(** * numTwo: the migration engine and the Deno SQLite adapter

    A shallow embedding of

      - [MigrationManager] (core/migrations/MigrationManager.ts, the revision
        with external SQL file references): [loadMigrations],
        [validateMigrationFiles], [resolveSql], [getCurrentVersion],
        [getLatestVersion], [migrateTo], [migrateUp], [migrateDown];
      - [DenoDatabase] (adapters/deno/DenoDatabase.ts): [exec], the three
        prepared statements the manager uses, and [transaction] with its
        [inTransaction] flag;
      - the earlier revision of [MigrationManager], whose scripts are inline
        strings, as [InlineManager];
      - core/schema.ts: [applySchema], [SchemaBuilder] and [createSchema].

    Methods that mutate [this] or the outside world are functions in a state
    and exception monad: a thrown JavaScript [Error] is [inl e], and the state
    reached when the exception was thrown is kept, as in JavaScript.
    [console.log] calls are left out: nothing reads them back.

    The SQLite driver ([Database] of "@db/sqlite3") and the file system are
    outside the repository.  The driver is modelled by its documented
    transaction behaviour: a store, the snapshot taken by BEGIN while a
    transaction is open, and a record of every call it received.  What an
    ordinary SQL script does to the user's schema and data is a parameter
    ([script]).  The file system is a function of the number of reads made so
    far, so that a file may change between two reads. *)

From Stdlib Require Import ZArith List Ascii String Bool Lia DecimalString.
From Stdlib Require Import Permutation Sorted.
Import ListNotations.
Open Scope string_scope.
Open Scope Z_scope.

(** ** Data model *)

(** [up: string | { file: string }] *)
Inductive SqlSource : Type :=
| Inline (sql : string)
| FileRef (file : string).

(** [interface Migration]; [down] is [None] for [null] (or an absent key). *)
Record Migration : Type := {
  version : Z;
  name : string;
  description : string;
  reversible : bool;
  up : SqlSource;
  down : option SqlSource
}.

(** [interface MigrationsFile] *)
Record MigrationsFile : Type := { migrations : list Migration }.

(** [targetVersion: number | "latest"].  The numbers of the model are the
    integers: a target that is NaN or has a fractional part is not
    represented, and the statements about targets are about integer
    targets and "latest". *)
Inductive Target : Type :=
| Latest
| Version (n : Z).

Inductive Direction : Type := Up | Down.

(** One row of the [migrations] table. *)
Record LedgerRow : Type := {
  row_version : Z;
  row_name : string;
  row_description : string;
  applied_at : string
}.

(** The source throws plain [Error]s that differ by their message; one
    constructor per [throw] site, named after the error taxonomy of the
    specification, with the pieces interpolated into the message as
    arguments.  [message] renders the text. *)
Inductive Error : Type :=
| DriverError (msg : string)
    (* thrown by the SQLite driver *)
| FsError (path : string)
    (* thrown by fs.readTextFile *)
| ParseError (msg : string)
    (* thrown by yamlParser, or by reading .migrations of what it returned *)
| SequenceError (expected actual : Z)
| MissingFileError (d : Direction) (v : Z) (nm file : string)
| LoadError (cause : Error)
| StepNotFoundError (v : Z)
| SqlFileError (v : Z) (d : Direction) (cause : Error)
| EmptyScriptError (v : Z) (d : Direction)
| ExecutionError (d : Direction) (v : Z) (cause : Error)
| NotReversibleError (v : Z) (nm : string)
| NoRollbackScriptError (v : Z) (nm : string).

(** [`${n}`] for an integer [n]. *)
Definition toString (n : Z) : string := NilZero.string_of_int (Z.to_int n).

Definition direction_name (d : Direction) : string :=
  match d with Up => "up" | Down => "down" end.

Fixpoint message (e : Error) : string :=
  match e with
  | DriverError msg => msg
  | FsError path => "No such file or directory: " ++ path
  | ParseError msg => msg
  | SequenceError expected actual =>
      "Migration version sequence error: expected version "
        ++ toString expected ++ ", got " ++ toString actual
  | MissingFileError d v nm file =>
      "Migration " ++ toString v ++ " (" ++ nm ++ "): "
        ++ direction_name d ++ " file not found: " ++ file
  | LoadError cause => "Failed to load migrations: " ++ message cause
  | StepNotFoundError v => "Migration version " ++ toString v ++ " not found"
  | SqlFileError v d cause =>
      "Failed to load SQL file for migration " ++ toString v
        ++ " (" ++ direction_name d ++ "): " ++ message cause
  | EmptyScriptError v d =>
      "Migration " ++ toString v ++ " has no " ++ direction_name d
        ++ " SQL defined"
  | ExecutionError Up v cause =>
      "Failed to apply migration " ++ toString v ++ ": " ++ message cause
  | ExecutionError Down v cause =>
      "Failed to rollback migration " ++ toString v ++ ": " ++ message cause
  | NotReversibleError v nm =>
      "Migration " ++ toString v ++ " (" ++ nm
        ++ ") is not reversible. Cannot rollback."
  | NoRollbackScriptError v nm =>
      "Migration " ++ toString v ++ " (" ++ nm
        ++ ") has no rollback script defined"
  end.

(** JavaScript truthiness of a string: only the empty string is falsy. *)
Definition truthy (s : string) : bool := negb (s =? "")%string.

(** ** State and exceptions *)

Definition Eff (S A : Type) : Type := S -> S * (Error + A).

Definition ret {S A : Type} (a : A) : Eff S A := fun s => (s, inr a).

Definition throw {S A : Type} (e : Error) : Eff S A := fun s => (s, inl e).

Definition bind {S A B : Type} (m : Eff S A) (k : A -> Eff S B) : Eff S B :=
  fun s =>
    match m s with
    | (s', inl e) => (s', inl e)
    | (s', inr a) => k a s'
    end.

(** [try { m } catch (error) { handler error }] *)
Definition try_catch {S A : Type} (m : Eff S A) (handler : Error -> Eff S A)
  : Eff S A :=
  fun s =>
    match m s with
    | (s', inl e) => handler e s'
    | (s', inr a) => (s', inr a)
    end.

Definition modify {S : Type} (f : S -> S) : Eff S unit :=
  fun s => (f s, inr tt).

(** Run a computation on a component of the state. *)
Definition zoom {S T A : Type} (proj : S -> T) (inj : T -> S -> S)
  (m : Eff T A) : Eff S A :=
  fun s => let (t', r) := m (proj s) in (inj t' s, r).

Declare Scope eff_scope.
Delimit Scope eff_scope with eff.
Notation "x <- m ;; k" := (bind m (fun x => k))
  (at level 61, m at next level, right associativity) : eff_scope.
Notation "m ;; k" := (bind m (fun _ => k))
  (at level 61, right associativity) : eff_scope.
Open Scope eff_scope.

(** ** The file system ([IFileSystem]) *)

Module FileSystem.

(** [disk t path] is what [path] holds when the [t]-th read is made
    ([None]: the read throws); [reads] lists the paths read so far, most
    recent first. *)
Record t : Type := {
  disk : nat -> string -> option string;
  reads : list string
}.

(** [readTextFile(path)] *)
Definition readTextFile (path : string) : Eff t string :=
  fun fs =>
    let fs' := {| disk := disk fs; reads := path :: reads fs |} in
    match disk fs (List.length (reads fs)) path with
    | Some content => (fs', inr content)
    | None => (fs', inl (FsError path))
    end.

(** No file changes between reads. *)
Definition stable (fs : t) : Prop :=
  forall n path, disk fs n path = disk fs 0%nat path.

End FileSystem.

(** ** The SQLite driver *)

Module Sqlite.

(** Calls received by the driver. *)
Inductive Call : Type :=
| Exec (sql : string)
| Insert (row : LedgerRow)
| Delete (v : Z)
| SelectMax.

(** The ledger DDL issued by [ensureMigrationsTable] (white space
    normalised). *)
Definition CREATE_MIGRATIONS : string :=
  "CREATE TABLE IF NOT EXISTS migrations (version INTEGER PRIMARY KEY, name TEXT NOT NULL, description TEXT, applied_at TEXT NOT NULL)".

(** The statements the driver tells apart: the three the adapter issues
    to control transactions, the ledger DDL, and everything else, which is
    an ordinary script.  An ordinary script changes the user data only and
    is run as one unit: a text that carries transaction control of its own
    (END, or COMMIT inside a longer script) or that writes the
    [migrations] table is not represented. *)
Inductive Statement : Type :=
| Begin
| Commit
| Rollback
| CreateMigrations
| Script (sql : string).

Definition classify (sql : string) : Statement :=
  if (sql =? "BEGIN TRANSACTION")%string then Begin
  else if (sql =? "COMMIT")%string then Commit
  else if (sql =? "ROLLBACK")%string then Rollback
  else if (sql =? CREATE_MIGRATIONS)%string then CreateMigrations
  else Script sql.

Section Driver.
Context {U : Type}.

(** The [migrations] table ([None]: it does not exist) and the rest of the
    database.  A table that exists has the columns the ledger DDL gives
    it. *)
Record Store : Type := {
  ledger : option (list LedgerRow);
  user : U
}.

(** [snapshot] is [Some s] while a transaction is open: [s] is the store
    BEGIN saw. *)
Record Database : Type := {
  store : Store;
  snapshot : option Store;
  calls : list Call
}.

(** What an ordinary script does to the user part; on failure the
    effects of the statements before the failing one are there. *)
Variable script : string -> U -> U * option string.

Definition record_call (c : Call) (d : Database) : Database :=
  {| store := store d; snapshot := snapshot d; calls := c :: calls d |}.

Definition set_store (s : Store) (d : Database) : Database :=
  {| store := s; snapshot := snapshot d; calls := calls d |}.

Definition set_snapshot (o : option Store) (d : Database) : Database :=
  {| store := store d; snapshot := o; calls := calls d |}.

(** [Database.exec(sql)] *)
Definition exec (sql : string) : Eff Database unit :=
  fun d0 =>
    let d := record_call (Exec sql) d0 in
    match classify sql with
    | Begin =>
        match snapshot d with
        | Some _ =>
            (d, inl (DriverError
                       "cannot start a transaction within a transaction"))
        | None => (set_snapshot (Some (store d)) d, inr tt)
        end
    | Commit =>
        match snapshot d with
        | Some _ => (set_snapshot None d, inr tt)
        | None =>
            (d, inl (DriverError
                       "cannot commit - no transaction is active"))
        end
    | Rollback =>
        match snapshot d with
        | Some s => (set_snapshot None (set_store s d), inr tt)
        | None =>
            (d, inl (DriverError
                       "cannot rollback - no transaction is active"))
        end
    | CreateMigrations =>
        match ledger (store d) with
        | Some _ => (d, inr tt)
        | None =>
            (set_store {| ledger := Some []; user := user (store d) |} d,
             inr tt)
        end
    | Script s =>
        let (u', failure) := script s (user (store d)) in
        let d' :=
          set_store {| ledger := ledger (store d); user := u' |} d in
        match failure with
        | Some msg => (d', inl (DriverError msg))
        | None => (d', inr tt)
        end
    end.

Definition has_version (v : Z) (rows : list LedgerRow) : bool :=
  existsb (fun r => row_version r =? v) rows.

(** [prepare("INSERT INTO migrations (version, name, description,
    applied_at) VALUES (?, ?, ?, ?)").run(...)]; [version] is the primary
    key. *)
Definition insert (row : LedgerRow) : Eff Database unit :=
  fun d0 =>
    let d := record_call (Insert row) d0 in
    match ledger (store d) with
    | None => (d, inl (DriverError "no such table: migrations"))
    | Some rows =>
        if has_version (row_version row) rows then
          (d, inl (DriverError
                     "UNIQUE constraint failed: migrations.version"))
        else
          (set_store {| ledger := Some (rows ++ [row])%list;
                        user := user (store d) |} d, inr tt)
    end.

(** [prepare("DELETE FROM migrations WHERE version = ?").run(version)] *)
Definition delete (v : Z) : Eff Database unit :=
  fun d0 =>
    let d := record_call (Delete v) d0 in
    match ledger (store d) with
    | None => (d, inl (DriverError "no such table: migrations"))
    | Some rows =>
        (set_store
           {| ledger :=
                Some (filter (fun r => negb (row_version r =? v)) rows);
              user := user (store d) |} d, inr tt)
    end.

(** SQL [MAX(version)]: NULL on an empty table. *)
Definition max_version (rows : list LedgerRow) : option Z :=
  match rows with
  | [] => None
  | r :: rest =>
      Some (fold_left Z.max (map row_version rest) (row_version r))
  end.

(** [prepare("SELECT MAX(version) as version FROM migrations").get()]:
    the [version] field of the one row returned. *)
Definition select_max : Eff Database (option Z) :=
  fun d0 =>
    let d := record_call SelectMax d0 in
    match ledger (store d) with
    | None => (d, inl (DriverError "no such table: migrations"))
    | Some rows => (d, inr (max_version rows))
    end.

End Driver.

Arguments Store : clear implicits.
Arguments Database : clear implicits.

End Sqlite.

(** ** [class DenoDatabase] *)

Module DenoDatabase.

Section Adapter.
Context {U : Type}.
Variable script : string -> U -> U * option string.

Record t : Type := {
  db : Sqlite.Database U;
  inTransaction : bool
}.

(** [new DenoDatabase(database)]: [private inTransaction = false]. *)
Definition create (database : Sqlite.Database U) : t :=
  {| db := database; inTransaction := false |}.

Definition on_db {A : Type} (m : Eff (Sqlite.Database U) A) : Eff t A :=
  zoom db (fun d this => {| db := d; inTransaction := inTransaction this |})
    m.

Definition set_inTransaction (b : bool) : Eff t unit :=
  modify (fun this => {| db := db this; inTransaction := b |}).

(** [exec(sql)] with no parameters, as the manager and [transaction] call
    it: [this.db.exec(sql)]. *)
Definition exec (sql : string) : Eff t unit :=
  on_db (Sqlite.exec script sql).

(** [prepare(sql)] followed by [run] or [get] on the statement, for the
    three statements of the migration manager. *)
Definition run_insert (row : LedgerRow) : Eff t unit :=
  on_db (Sqlite.insert row).

Definition run_delete (v : Z) : Eff t unit :=
  on_db (Sqlite.delete v).

Definition get_max : Eff t (option Z) :=
  on_db Sqlite.select_max.

(** [transaction<T>(fn: () => T): T] *)
Definition transaction {T : Type} (fn : Eff t T) : Eff t T :=
  fun this =>
    if inTransaction this then
      (* Already in a transaction, just execute the function *)
      fn this
    else
      (set_inTransaction true;;
       exec "BEGIN TRANSACTION";;
       try_catch
         (result <- fn;;
          exec "COMMIT";;
          set_inTransaction false;;
          ret result)
         (fun error =>
            exec "ROLLBACK";;
            set_inTransaction false;;
            throw error)) this.

End Adapter.

Arguments t : clear implicits.

End DenoDatabase.

(** ** [class MigrationManager] *)

Module MigrationManager.

Section Manager.
Context {U : Type}.
Variable script : string -> U -> U * option string.

(** [this.migrationsPath] and [this.yamlParser]; the parser's result is
    already cast to [MigrationsFile], and [inl] stands for any exception
    it raises. *)
Variable migrationsPath : string.
Variable yamlParser : string -> Error + MigrationsFile.

(** [this.fs], [this.db] (a [DenoDatabase]) and the clock read by
    [Date.now()]. *)
Record World : Type := {
  fs : FileSystem.t;
  db : DenoDatabase.t U;
  now : Z
}.

Definition on_fs {A : Type} (m : Eff FileSystem.t A) : Eff World A :=
  zoom fs (fun f w => {| fs := f; db := db w; now := now w |}) m.

Definition on_db {A : Type} (m : Eff (DenoDatabase.t U) A) : Eff World A :=
  zoom db (fun d w => {| fs := fs w; db := d; now := now w |}) m.

(** [await this.fs.readTextFile(path)] *)
Definition readTextFile (path : string) : Eff World string :=
  on_fs (FileSystem.readTextFile path).

Definition of_result {A : Type} (r : Error + A) : Eff World A :=
  fun w => (w, r).

(** [ensureMigrationsTable()] *)
Definition ensureMigrationsTable : Eff World unit :=
  on_db (DenoDatabase.exec script Sqlite.CREATE_MIGRATIONS).

(** [constructor]: the field assignments, then
    [this.ensureMigrationsTable()]. *)
Definition constructor : Eff World unit := ensureMigrationsTable.

(** [getCurrentVersion()]: [result?.version ?? 0] *)
Definition getCurrentVersion : Eff World Z :=
  result <- on_db DenoDatabase.get_max;;
  ret (match result with Some v => v | None => 0 end).

(** [resolveSql(sql, migrationVersion, direction)] *)
Definition resolveSql (sql : option SqlSource) (migrationVersion : Z)
  (direction : Direction) : Eff World (option string) :=
  match sql with
  | None => ret None
  | Some (Inline text) => ret (Some text)
  | Some (FileRef filePath) =>
      try_catch
        (content <- readTextFile filePath;;
         ret (Some content))
        (fun error =>
           throw (SqlFileError migrationVersion direction error))
  end.

(** One round of the loop of [validateMigrationFiles]. *)
Definition validateMigrationFile (migration : Migration)
  : Eff World unit :=
  (match up migration with
   | FileRef file =>
       (* typeof migration.up === "object" && migration.up.file *)
       if truthy file then
         try_catch
           (readTextFile file;; ret tt)
           (fun _ =>
              throw (MissingFileError Up (version migration)
                       (name migration) file))
       else ret tt
   | Inline _ => ret tt
   end);;
  (match down migration with
   | Some (FileRef file) =>
       if truthy file then
         try_catch
           (readTextFile file;; ret tt)
           (fun _ =>
              throw (MissingFileError Down (version migration)
                       (name migration) file))
       else ret tt
   | _ => ret tt
   end).

(** [validateMigrationFiles(migrations)] *)
Fixpoint validateMigrationFiles (migs : list Migration)
  : Eff World unit :=
  match migs with
  | [] => ret tt
  | migration :: rest =>
      validateMigrationFile migration;;
      validateMigrationFiles rest
  end.

(** [Array.prototype.sort((a, b) => a.version - b.version)]: a stable
    sort into ascending version order. *)
Fixpoint insert_by_version (m : Migration) (sorted : list Migration)
  : list Migration :=
  match sorted with
  | [] => [m]
  | x :: rest =>
      if version m <=? version x then m :: x :: rest
      else x :: insert_by_version m rest
  end.

Definition sort_by_version (migs : list Migration) : list Migration :=
  fold_right insert_by_version [] migs.

(** The version sequence loop of [loadMigrations], from index [i]:
    [if (migrations[i].version !== i + 1) throw ...]. *)
Fixpoint validateSequence (i : nat) (migs : list Migration)
  : Error + unit :=
  match migs with
  | [] => inr tt
  | m :: rest =>
      if version m =? Z.of_nat i + 1 then validateSequence (S i) rest
      else inl (SequenceError (Z.of_nat i + 1) (version m))
  end.

(** [loadMigrations()] *)
Definition loadMigrations : Eff World (list Migration) :=
  try_catch
    (yamlContent <- readTextFile migrationsPath;;
     migrationsFile <- of_result (yamlParser yamlContent);;
     let migs := sort_by_version (migrations migrationsFile) in
     of_result (validateSequence 0 migs);;
     validateMigrationFiles migs;;
     ret migs)
    (fun error => throw (LoadError error)).

(** [Math.max(...migrations.map((m) => m.version))], guarded by
    [migrations.length > 0]. *)
Definition latest_of (migs : list Migration) : Z :=
  match map version migs with
  | [] => 0
  | v :: vs => fold_left Z.max vs v
  end.

(** [getLatestVersion()] *)
Definition getLatestVersion : Eff World Z :=
  migs <- loadMigrations;;
  ret (latest_of migs).

(** [migrations.find((m) => m.version === version)] *)
Definition find_version (v : Z) (migs : list Migration)
  : option Migration :=
  find (fun m => version m =? v) migs.

(** [Date.now()].  The clock of the model stands still during a call, so
    the times recorded in the ledger rows mean nothing; the claims do not
    speak of them. *)
Definition Date_now : Eff World Z := fun w => (w, inr (now w)).

(** The atomic unit of a forward step: the function passed to
    [this.db.transaction] in [migrateUp].  [timestamp] is what [Date.now()]
    gives inside it; the clock of the model stands still, so it is read
    before the unit starts. *)
Definition up_unit (v : Z) (migration : Migration) (upSql : string)
  (timestamp : Z) : Eff (DenoDatabase.t U) unit :=
  DenoDatabase.exec script upSql;;
  DenoDatabase.run_insert
    {| row_version := v;
       row_name := name migration;
       row_description := description migration;
       applied_at := toString timestamp |}.

(** The body of the loop of [migrateUp] after the migration is found. *)
Definition apply_step (v : Z) (migration : Migration) : Eff World unit :=
  try_catch
    (upSql <- resolveSql (Some (up migration)) v Up;;
     match upSql with
     | Some sql =>
         if truthy sql then
           timestamp <- Date_now;;
           on_db (DenoDatabase.transaction script
                    (up_unit v migration sql timestamp))
         else throw (EmptyScriptError v Up)
     | None => throw (EmptyScriptError v Up)
     end)
    (fun error => throw (ExecutionError Up v error)).

(** [for (let version = currentVersion + 1; version <= targetVersion;
    version++)], with [n] rounds left. *)
Fixpoint migrateUp_loop (n : nat) (v : Z) (migs : list Migration)
  : Eff World unit :=
  match n with
  | O => ret tt
  | S n' =>
      match find_version v migs with
      | None => throw (StepNotFoundError v)
      | Some migration =>
          apply_step v migration;;
          migrateUp_loop n' (v + 1) migs
      end
  end.

(** [migrateUp(currentVersion, targetVersion, migrations)] *)
Definition migrateUp (currentVersion targetVersion : Z)
  (migs : list Migration) : Eff World unit :=
  migrateUp_loop (Z.to_nat (targetVersion - currentVersion))
    (currentVersion + 1) migs.

(** [!migration.down] *)
Definition no_down (migration : Migration) : bool :=
  match down migration with
  | None => true
  | Some (Inline text) => negb (truthy text)
  | Some (FileRef _) => false
  end.

(** The atomic unit of a backward step. *)
Definition down_unit (v : Z) (downSql : string)
  : Eff (DenoDatabase.t U) unit :=
  DenoDatabase.exec script downSql;;
  DenoDatabase.run_delete v.

(** The body of the loop of [migrateDown] after the migration is
    found. *)
Definition revert_step (v : Z) (migration : Migration) : Eff World unit :=
  if negb (reversible migration) then
    throw (NotReversibleError v (name migration))
  else if no_down migration then
    throw (NoRollbackScriptError v (name migration))
  else
    try_catch
      (downSql <- resolveSql (down migration) v Down;;
       match downSql with
       | Some sql =>
           if truthy sql then
             on_db (DenoDatabase.transaction script (down_unit v sql))
           else throw (EmptyScriptError v Down)
       | None => throw (EmptyScriptError v Down)
       end)
      (fun error => throw (ExecutionError Down v error)).

(** [for (let version = currentVersion; version > targetVersion;
    version--)], with [n] rounds left. *)
Fixpoint migrateDown_loop (n : nat) (v : Z) (migs : list Migration)
  : Eff World unit :=
  match n with
  | O => ret tt
  | S n' =>
      match find_version v migs with
      | None => throw (StepNotFoundError v)
      | Some migration =>
          revert_step v migration;;
          migrateDown_loop n' (v - 1) migs
      end
  end.

(** [migrateDown(currentVersion, targetVersion, migrations)] *)
Definition migrateDown (currentVersion targetVersion : Z)
  (migs : list Migration) : Eff World unit :=
  migrateDown_loop (Z.to_nat (currentVersion - targetVersion))
    currentVersion migs.

(** The value given to [actualTarget] in [migrateTo]. *)
Definition resolve_target (targetVersion : Target) : Eff World Z :=
  match targetVersion with
  | Latest => getLatestVersion
  | Version n => ret n
  end.

(** [migrateTo(targetVersion)] *)
Definition migrateTo (targetVersion : Target) : Eff World unit :=
  migs <- loadMigrations;;
  currentVersion <- getCurrentVersion;;
  actualTarget <- resolve_target targetVersion;;
  if currentVersion =? actualTarget then ret tt
  else if currentVersion <? actualTarget then
    migrateUp currentVersion actualTarget migs
  else
    migrateDown currentVersion actualTarget migs.

End Manager.

Arguments World : clear implicits.

End MigrationManager.

(** ** The earlier [MigrationManager], with inline scripts only

    [src/core/migrations/MigrationManager.ts]: [up] and [down] are strings,
    there is no file check and no script is resolved.  The constructor,
    [ensureMigrationsTable] and [getCurrentVersion] are those above. *)

Module InlineManager.

(** [interface Migration] *)
Record Migration : Type := {
  version : Z;
  name : string;
  description : string;
  reversible : bool;
  up : string;
  down : option string
}.

(** [interface MigrationsFile] *)
Record MigrationsFile : Type := { migrations : list Migration }.

Section Manager.
Context {U : Type}.
Variable script : string -> U -> U * option string.
Variable migrationsPath : string.
Variable yamlParser : string -> Error + MigrationsFile.

Fixpoint insert_by_version (m : Migration) (sorted : list Migration)
  : list Migration :=
  match sorted with
  | [] => [m]
  | x :: rest =>
      if version m <=? version x then m :: x :: rest
      else x :: insert_by_version m rest
  end.

Definition sort_by_version (migs : list Migration) : list Migration :=
  fold_right insert_by_version [] migs.

Fixpoint validateSequence (i : nat) (migs : list Migration)
  : Error + unit :=
  match migs with
  | [] => inr tt
  | m :: rest =>
      if version m =? Z.of_nat i + 1 then validateSequence (S i) rest
      else inl (SequenceError (Z.of_nat i + 1) (version m))
  end.

(** [loadMigrations()] *)
Definition loadMigrations
  : Eff (MigrationManager.World U) (list Migration) :=
  try_catch
    (yamlContent <- MigrationManager.readTextFile migrationsPath;;
     migrationsFile <- MigrationManager.of_result (yamlParser yamlContent);;
     let migs := sort_by_version (migrations migrationsFile) in
     MigrationManager.of_result (validateSequence 0 migs);;
     ret migs)
    (fun error => throw (LoadError error)).

Definition latest_of (migs : list Migration) : Z :=
  match map version migs with
  | [] => 0
  | v :: vs => fold_left Z.max vs v
  end.

(** [getLatestVersion()] *)
Definition getLatestVersion : Eff (MigrationManager.World U) Z :=
  migs <- loadMigrations;;
  ret (latest_of migs).

Definition find_version (v : Z) (migs : list Migration)
  : option Migration :=
  find (fun m => version m =? v) migs.

(** The function passed to [this.db.transaction] in [migrateUp];
    [timestamp] is what [Date.now()] gives inside it, read before the unit
    starts as the clock stands still. *)
Definition up_unit (v : Z) (migration : Migration) (timestamp : Z)
  : Eff (DenoDatabase.t U) unit :=
  DenoDatabase.exec script (up migration);;
  DenoDatabase.run_insert
    {| row_version := v;
       row_name := name migration;
       row_description := description migration;
       applied_at := toString timestamp |}.

Definition apply_step (v : Z) (migration : Migration)
  : Eff (MigrationManager.World U) unit :=
  try_catch
    (timestamp <- MigrationManager.Date_now;;
     MigrationManager.on_db
       (DenoDatabase.transaction script (up_unit v migration timestamp)))
    (fun error => throw (ExecutionError Up v error)).

Fixpoint migrateUp_loop (n : nat) (v : Z) (migs : list Migration)
  : Eff (MigrationManager.World U) unit :=
  match n with
  | O => ret tt
  | S n' =>
      match find_version v migs with
      | None => throw (StepNotFoundError v)
      | Some migration =>
          apply_step v migration;;
          migrateUp_loop n' (v + 1) migs
      end
  end.

(** [migrateUp(currentVersion, targetVersion, migrations)] *)
Definition migrateUp (currentVersion targetVersion : Z)
  (migs : list Migration) : Eff (MigrationManager.World U) unit :=
  migrateUp_loop (Z.to_nat (targetVersion - currentVersion))
    (currentVersion + 1) migs.

(** The function passed to [this.db.transaction] in [migrateDown]. *)
Definition down_unit (v : Z) (downSql : string)
  : Eff (DenoDatabase.t U) unit :=
  DenoDatabase.exec script downSql;;
  DenoDatabase.run_delete v.

Definition revert_step (v : Z) (migration : Migration)
  : Eff (MigrationManager.World U) unit :=
  if negb (reversible migration) then
    throw (NotReversibleError v (name migration))
  else
    match down migration with
    | None => throw (NoRollbackScriptError v (name migration))
    | Some text =>
        if truthy text then
          try_catch
            (MigrationManager.on_db
               (DenoDatabase.transaction script (down_unit v text)))
            (fun error => throw (ExecutionError Down v error))
        else throw (NoRollbackScriptError v (name migration))
    end.

Fixpoint migrateDown_loop (n : nat) (v : Z) (migs : list Migration)
  : Eff (MigrationManager.World U) unit :=
  match n with
  | O => ret tt
  | S n' =>
      match find_version v migs with
      | None => throw (StepNotFoundError v)
      | Some migration =>
          revert_step v migration;;
          migrateDown_loop n' (v - 1) migs
      end
  end.

(** [migrateDown(currentVersion, targetVersion, migrations)] *)
Definition migrateDown (currentVersion targetVersion : Z)
  (migs : list Migration) : Eff (MigrationManager.World U) unit :=
  migrateDown_loop (Z.to_nat (currentVersion - targetVersion))
    currentVersion migs.

Definition resolve_target (targetVersion : Target)
  : Eff (MigrationManager.World U) Z :=
  match targetVersion with
  | Latest => getLatestVersion
  | Version n => ret n
  end.

(** [migrateTo(targetVersion)] *)
Definition migrateTo (targetVersion : Target)
  : Eff (MigrationManager.World U) unit :=
  migs <- loadMigrations;;
  currentVersion <- MigrationManager.getCurrentVersion;;
  actualTarget <- resolve_target targetVersion;;
  if currentVersion =? actualTarget then ret tt
  else if currentVersion <? actualTarget then
    migrateUp currentVersion actualTarget migs
  else
    migrateDown currentVersion actualTarget migs.

End Manager.

End InlineManager.

(** A migration of the earlier revision, read by the later one: its
    scripts are inline. *)
Definition upgrade (m : InlineManager.Migration) : Migration :=
  {| version := InlineManager.version m;
     name := InlineManager.name m;
     description := InlineManager.description m;
     reversible := InlineManager.reversible m;
     up := Inline (InlineManager.up m);
     down := option_map Inline (InlineManager.down m) |}.

Definition upgrade_parser
  (yamlParser : string -> Error + InlineManager.MigrationsFile)
  (content : string) : Error + MigrationsFile :=
  match yamlParser content with
  | inl e => inl e
  | inr file =>
      inr {| migrations := map upgrade (InlineManager.migrations file) |}
  end.

(** ** [schema.ts] *)

Module Schema.

(** A string is read as its sequence of code units, one per character
    and each below 256.  The white space that [String.prototype.trim]
    strips is then U+0009 to U+000D, U+0020 and U+00A0. *)
Definition is_white_space (c : ascii) : bool :=
  let n := nat_of_ascii c in
  (((9 <=? n) && (n <=? 13)) || (n =? 32) || (n =? 160))%nat.

Fixpoint trimStart (s : string) : string :=
  match s with
  | EmptyString => EmptyString
  | String c rest => if is_white_space c then trimStart rest else s
  end.

Fixpoint trimEnd (s : string) : string :=
  match s with
  | EmptyString => EmptyString
  | String c rest =>
      match trimEnd rest with
      | EmptyString =>
          if is_white_space c then EmptyString else String c EmptyString
      | kept => String c kept
      end
  end.

(** [s.trim()] *)
Definition trim (s : string) : string := trimEnd (trimStart s).

(** [s.split(separator)] for a separator of one character: the pieces
    between the separators, empty ones included. *)
Fixpoint split (separator : ascii) (s : string) : list string :=
  match s with
  | EmptyString => [EmptyString]
  | String c rest =>
      if Ascii.eqb c separator then EmptyString :: split separator rest
      else
        match split separator rest with
        | piece :: pieces => String c piece :: pieces
        | [] => [String c EmptyString]
        end
  end.

(** [strings.join(separator)] *)
Fixpoint join (separator : string) (strings : list string) : string :=
  match strings with
  | [] => EmptyString
  | [s] => s
  | s :: rest => s ++ separator ++ join separator rest
  end.

Definition semicolon : ascii := ascii_of_nat 59.

Definition line_feed : ascii := ascii_of_nat 10.

(** [schemaSQL.split(";").map((s) => s.trim()).filter((s) => s.length > 0)] *)
Definition statements_of (schemaSQL : string) : list string :=
  filter (fun s => (0 <? String.length s)%nat)
    (map trim (split semicolon schemaSQL)).

Section Apply.
Context {U : Type}.
Variable script : string -> U -> U * option string.

(** [for (const statement of statements) { db.exec(statement); }] *)
Fixpoint exec_each (statements : list string)
  : Eff (DenoDatabase.t U) unit :=
  match statements with
  | [] => ret tt
  | statement :: rest =>
      DenoDatabase.exec script statement;;
      exec_each rest
  end.

(** [applySchema(db, schemaSQL)]; the handler logs the error and throws
    it again. *)
Definition applySchema (schemaSQL : string) : Eff (DenoDatabase.t U) unit :=
  try_catch (exec_each (statements_of schemaSQL))
    (fun error => throw error).

(** [class SchemaBuilder]: [private statements: string[] = []].  The
    methods change the builder in place and return it; here they return
    the builder they leave. *)
Record SchemaBuilder : Type := { statements : list string }.

(** [createSchema()] *)
Definition createSchema : SchemaBuilder := {| statements := [] |}.

(** [this.statements.push(sql); return this;] *)
Definition push (sql : string) (this : SchemaBuilder) : SchemaBuilder :=
  {| statements := (statements this ++ [sql])%list |}.

Definition table : string -> SchemaBuilder -> SchemaBuilder := push.

Definition index : string -> SchemaBuilder -> SchemaBuilder := push.

Definition raw : string -> SchemaBuilder -> SchemaBuilder := push.

(** [build()]: [this.statements.join(";\n") + ";"] *)
Definition build (this : SchemaBuilder) : string :=
  join (String semicolon (String line_feed EmptyString)) (statements this)
  ++ String semicolon EmptyString.

(** [apply(db)] *)
Definition apply (this : SchemaBuilder) : Eff (DenoDatabase.t U) unit :=
  applySchema (build this).

End Apply.

Fixpoint contains (c : ascii) (s : string) : bool :=
  match s with
  | EmptyString => false
  | String c' rest => Ascii.eqb c' c || contains c rest
  end.

End Schema.

(** ** A concrete engine, parser and migration sets

    User data is the list of scripts run so far (most recent first); a
    script that starts with FAIL throws after leaving its mark, so that a
    missing rollback shows. *)

Module Sample.

Definition script (sql : string) (u : list string)
  : list string * option string :=
  if prefix "FAIL" sql then (sql :: u, Some "syntax error")
  else (sql :: u, None).

Definition m1 : Migration :=
  {| version := 1; name := "create t"; description := "table t";
     reversible := true;
     up := Inline "CREATE TABLE t(id INTEGER);";
     down := Some (Inline "DROP TABLE t;") |}.

Definition m2 : Migration :=
  {| version := 2; name := "create u"; description := "table u";
     reversible := true;
     up := Inline "CREATE TABLE u(id INTEGER);";
     down := Some (Inline "DROP TABLE u;") |}.

Definition m2_fixed : Migration :=
  {| version := 2; name := "create u"; description := "table u";
     reversible := false;
     up := Inline "CREATE TABLE u(id INTEGER);";
     down := None |}.

Definition m2_broken : Migration :=
  {| version := 2; name := "create u"; description := "table u";
     reversible := true;
     up := Inline "FAIL TABLE u;";
     down := Some (Inline "DROP TABLE u;") |}.

Definition m2_file (file : string) : Migration :=
  {| version := 2; name := "create u"; description := "table u";
     reversible := true;
     up := FileRef file;
     down := Some (Inline "DROP TABLE u;") |}.

Definition m3 : Migration :=
  {| version := 3; name := "create v"; description := "table v";
     reversible := true;
     up := Inline "CREATE TABLE v(id INTEGER);";
     down := Some (Inline "DROP TABLE v;") |}.

(** The parser knows a handful of documents by name. *)
Definition yamlParser (content : string) : Error + MigrationsFile :=
  if (content =? "one")%string then inr {| migrations := [m1] |}
  else if (content =? "two")%string then inr {| migrations := [m2; m1] |}
  else if (content =? "fixed")%string then
    inr {| migrations := [m1; m2_fixed] |}
  else if (content =? "broken")%string then
    inr {| migrations := [m1; m2_broken] |}
  else if (content =? "missing")%string then
    inr {| migrations := [m1; m2_file "missing.sql"] |}
  else if (content =? "nopath")%string then
    inr {| migrations := [m1; m2_file ""] |}
  else inl (ParseError "unexpected token").

Definition migrationsPath : string := "./migrations.yaml".

(** A file system that holds [content] at [migrationsPath] and nothing
    else, and never changes. *)
Definition fs_with (content : string) : FileSystem.t :=
  {| FileSystem.disk := fun _ path =>
       if (path =? migrationsPath)%string then Some content else None;
     FileSystem.reads := [] |}.

(** A file system in which [migrationsPath] holds [first] at the first
    read and [later] from then on. *)
Definition fs_changing (first later : string) : FileSystem.t :=
  {| FileSystem.disk := fun n path =>
       if (path =? migrationsPath)%string then
         match n with O => Some first | S _ => Some later end
       else None;
     FileSystem.reads := [] |}.

(** A database file with the given ledger rows, no user data and no
    transaction open. *)
Definition database (rows : option (list LedgerRow))
  : Sqlite.Database (list string) :=
  {| Sqlite.store := {| Sqlite.ledger := rows; Sqlite.user := [] |};
     Sqlite.snapshot := None;
     Sqlite.calls := [] |}.

Definition world (files : FileSystem.t) (rows : option (list LedgerRow))
  : MigrationManager.World (list string) :=
  {| MigrationManager.fs := files;
     MigrationManager.db := DenoDatabase.create (database rows);
     MigrationManager.now := 1700000000000 |}.

Definition row (m : Migration) : LedgerRow :=
  {| row_version := version m; row_name := name m;
     row_description := description m;
     applied_at := "1700000000000" |}.

(** A connection on an empty database. *)
Definition connection : DenoDatabase.t (list string) :=
  DenoDatabase.create (database (Some [])).

(** The caller has opened a transaction of its own with [exec]. *)
Definition connection_in_use : DenoDatabase.t (list string) :=
  fst (DenoDatabase.exec script "BEGIN TRANSACTION" connection).

Definition create_t : Eff (DenoDatabase.t (list string)) unit :=
  DenoDatabase.exec script "CREATE TABLE t(id INTEGER);".

(** A unit that fails after its first statement. *)
Definition failing_unit : Eff (DenoDatabase.t (list string)) unit :=
  DenoDatabase.exec script "CREATE TABLE t(id INTEGER);";;
  DenoDatabase.exec script "FAIL TABLE u;".

(** A unit that ends the transaction itself and then fails. *)
Definition committing_unit : Eff (DenoDatabase.t (list string)) unit :=
  DenoDatabase.exec script "COMMIT";;
  DenoDatabase.exec script "FAIL TABLE u;".

(** [connection_in_use] after an outermost [transaction] call, then after
    the caller's own ROLLBACK, then after a [transaction] call with the
    failing unit. *)
Definition after_refused_begin : DenoDatabase.t (list string) :=
  fst (DenoDatabase.transaction script create_t connection_in_use).

Definition after_user_rollback : DenoDatabase.t (list string) :=
  fst (DenoDatabase.exec script "ROLLBACK" after_refused_begin).

Definition after_later_unit : DenoDatabase.t (list string) :=
  fst (DenoDatabase.transaction script failing_unit after_user_rollback).

Definition migrateTo :=
  MigrationManager.migrateTo script migrationsPath yamlParser.

End Sample.

(** ** More migration sets and file systems *)

Module Cases.

(** Migration 2 with a rollback script that fails. *)
Definition m2_stuck : Migration :=
  {| version := 2; name := "create u"; description := "table u";
     reversible := true;
     up := Inline "CREATE TABLE u(id INTEGER);";
     down := Some (Inline "FAIL DROP u;") |}.

(** Migration 2, reversible by its flag, with no rollback script. *)
Definition m2_no_down : Migration :=
  {| version := 2; name := "create u"; description := "table u";
     reversible := true;
     up := Inline "CREATE TABLE u(id INTEGER);";
     down := None |}.

(** Migration 2 with an empty up script. *)
Definition m2_empty : Migration :=
  {| version := 2; name := "create u"; description := "table u";
     reversible := true;
     up := Inline "";
     down := Some (Inline "DROP TABLE u;") |}.

(** Migration 1 with an up script that ends the transaction itself. *)
Definition m1_commit : Migration :=
  {| version := 1; name := "create t"; description := "table t";
     reversible := true;
     up := Inline "COMMIT";
     down := Some (Inline "DROP TABLE t;") |}.

Definition yamlParser (content : string) : Error + MigrationsFile :=
  if (content =? "stuck")%string then
    inr {| migrations := [Sample.m1; m2_stuck] |}
  else if (content =? "no down")%string then
    inr {| migrations := [Sample.m1; m2_no_down] |}
  else if (content =? "empty up")%string then
    inr {| migrations := [Sample.m1; m2_empty] |}
  else if (content =? "file")%string then
    inr {| migrations := [Sample.m1; Sample.m2_file "u.sql"] |}
  else if (content =? "three")%string then
    inr {| migrations := [Sample.m3; Sample.m1; Sample.m2] |}
  else if (content =? "gap")%string then
    inr {| migrations := [Sample.m3; Sample.m2_file "missing.sql"] |}
  else if (content =? "commit")%string then
    inr {| migrations := [m1_commit; Sample.m2_broken] |}
  else Sample.yamlParser content.

(** The migration source holds [content]; ["u.sql"] is there for the first
    [n] reads and gone afterwards. *)
Definition fs_vanishing (content : string) (n : nat) : FileSystem.t :=
  {| FileSystem.disk := fun t path =>
       if (path =? Sample.migrationsPath)%string then Some content
       else if (path =? "u.sql")%string then
         if (t <? n)%nat then Some "CREATE TABLE u(id INTEGER);" else None
       else None;
     FileSystem.reads := [] |}.

(** The migration source is unreadable. *)
Definition fs_empty : FileSystem.t :=
  {| FileSystem.disk := fun _ _ => None; FileSystem.reads := [] |}.

Definition rows12 : option (list LedgerRow) :=
  Some [Sample.row Sample.m1; Sample.row Sample.m2].

Definition migrateTo :=
  MigrationManager.migrateTo Sample.script Sample.migrationsPath yamlParser.

(** A schema whose second statement fails. *)
Definition schema : string :=
  " CREATE TABLE a(x) ; FAIL b;; CREATE TABLE c(x);".

(** A semicolon inside a string literal. *)
Definition schema_literal : string :=
  "CREATE TABLE a(x); INSERT INTO a VALUES ('p;q');".

Definition builder : Schema.SchemaBuilder :=
  Schema.index "CREATE INDEX i ON a(x)"
    (Schema.table "CREATE TABLE a(x)" Schema.createSchema).

(** A migration source of the earlier revision. *)
Definition inline_m1 : InlineManager.Migration :=
  {| InlineManager.version := 1; InlineManager.name := "create t";
     InlineManager.description := "table t";
     InlineManager.reversible := true;
     InlineManager.up := "CREATE TABLE t(id INTEGER);";
     InlineManager.down := Some "DROP TABLE t;" |}.

Definition inline_m2 : InlineManager.Migration :=
  {| InlineManager.version := 2; InlineManager.name := "create u";
     InlineManager.description := "table u";
     InlineManager.reversible := true;
     InlineManager.up := "CREATE TABLE u(id INTEGER);";
     InlineManager.down := None |}.

(** Migration 1 of the earlier revision with an empty up script. *)
Definition inline_m1_blank : InlineManager.Migration :=
  {| InlineManager.version := 1; InlineManager.name := "create t";
     InlineManager.description := "table t";
     InlineManager.reversible := true;
     InlineManager.up := "";
     InlineManager.down := Some "DROP TABLE t;" |}.

Definition inline_parser (content : string)
  : Error + InlineManager.MigrationsFile :=
  if (content =? "two")%string then
    inr {| InlineManager.migrations := [inline_m2; inline_m1] |}
  else if (content =? "blank")%string then
    inr {| InlineManager.migrations := [inline_m1_blank] |}
  else inl (ParseError "unexpected token").

(** The world after a first [migrateTo("latest")] on the set whose
    migration 1 is [m1_commit] and whose migration 2 fails half-way. *)
Definition after_commit_step : MigrationManager.World (list string) :=
  fst (migrateTo Latest (Sample.world (Sample.fs_with "commit") (Some []))).

(** A ledger with a hole: versions 1 and 3. *)
Definition rows13 : option (list LedgerRow) :=
  Some [Sample.row Sample.m1; Sample.row Sample.m3].

(** The world after [migrateTo(2)] on that ledger. *)
Definition after_gap_call : MigrationManager.World (list string) :=
  fst (migrateTo (Version 2) (Sample.world (Sample.fs_with "three") rows13)).

(** A database without the migrations table on which the caller has
    opened a transaction; a manager constructed there; and the same
    connection after the caller has rolled its transaction back. *)
Definition caller_begins : MigrationManager.World (list string) :=
  fst (MigrationManager.on_db
         (DenoDatabase.exec Sample.script "BEGIN TRANSACTION")
         (Sample.world (Sample.fs_with "two") None)).

Definition constructed_inside : MigrationManager.World (list string) :=
  fst (MigrationManager.constructor Sample.script caller_begins).

Definition caller_rolled_back : MigrationManager.World (list string) :=
  fst (MigrationManager.on_db (DenoDatabase.exec Sample.script "ROLLBACK")
         constructed_inside).

End Cases.

(** ** Vocabulary of the statements *)

(** Every run of [m] relates its initial and final states by [R]. *)
Definition frames {S A : Type} (R : S -> S -> Prop) (m : Eff S A) : Prop :=
  forall s s' r, m s = (s', r) -> R s s'.

Section Vocabulary.
Context {U : Type}.
Variable script : string -> U -> U * option string.
Variable migrationsPath : string.
Variable yamlParser : string -> Error + MigrationsFile.

Import MigrationManager.

Definition store_of (w : World U) : Sqlite.Store U :=
  Sqlite.store (DenoDatabase.db (db w)).

Definition ledger_of (w : World U) : option (list LedgerRow) :=
  Sqlite.ledger (store_of w).

Definition calls_of (w : World U) : list Sqlite.Call :=
  Sqlite.calls (DenoDatabase.db (db w)).

(** No unit is running and the driver has no transaction open. *)
Definition idle (d : DenoDatabase.t U) : Prop :=
  DenoDatabase.inTransaction d = false
  /\ Sqlite.snapshot (DenoDatabase.db d) = None.

(** [v] is the greatest element of [vs]. *)
Definition is_max (vs : list Z) (v : Z) : Prop :=
  In v vs /\ forall x, In x vs -> x <= v.

(** [1; 2; ...; n] *)
Definition one_to (n : nat) : list Z := map Z.of_nat (seq 1 n).

(** [from; from + 1; ...], [n] numbers. *)
Fixpoint countup (n : nat) (from : Z) : list Z :=
  match n with
  | O => []
  | S n' => from :: countup n' (from + 1)
  end.

(** [from; from - 1; ...], [n] numbers. *)
Fixpoint countdown (n : nat) (from : Z) : list Z :=
  match n with
  | O => []
  | S n' => from :: countdown n' (from - 1)
  end.

(** The versions of the DELETE statements among [cs], oldest first
    ([cs] is most recent first, as [Sqlite.calls]). *)
Fixpoint deleted (cs : list Sqlite.Call) : list Z :=
  match cs with
  | [] => []
  | Sqlite.Delete v :: rest => (deleted rest ++ [v])%list
  | _ :: rest => deleted rest
  end.

(** The first two statements of an outermost [transaction]: they lead
    to the state in which the unit's function starts. *)
Definition begin_unit : Eff (DenoDatabase.t U) unit :=
  DenoDatabase.set_inTransaction true;;
  DenoDatabase.exec script "BEGIN TRANSACTION".

(** Only the record of file reads differs between [w] and [w']. *)
Definition fs_only (w w' : World U) : Prop :=
  db w' = db w /\ now w' = now w
  /\ FileSystem.disk (fs w') = FileSystem.disk (fs w).

(** The files and the clock are the same in [w] and [w']. *)
Definition same_files (w w' : World U) : Prop :=
  now w' = now w /\ FileSystem.disk (fs w') = FileSystem.disk (fs w).

(** The [migrations] table exists, also in the snapshot a ROLLBACK would
    restore. *)
Definition table_exists (d : Sqlite.Database U) : Prop :=
  Sqlite.ledger (Sqlite.store d) <> None
  /\ forall s, Sqlite.snapshot d = Some s -> Sqlite.ledger s <> None.

Definition keeps_table (d d' : Sqlite.Database U) : Prop :=
  table_exists d -> table_exists d'.

Definition keeps_table_conn (c c' : DenoDatabase.t U) : Prop :=
  keeps_table (DenoDatabase.db c) (DenoDatabase.db c').

Definition keeps_table_world (w w' : World U) : Prop :=
  keeps_table_conn (db w) (db w').

(** What every method of the manager preserves. *)
Definition steady (w w' : World U) : Prop :=
  same_files w w' /\ keeps_table_world w w'.

(** The files of [w] never change and [w'] has the same files. *)
Definition same_disk (w w' : World U) : Prop :=
  FileSystem.stable (fs w)
  /\ FileSystem.disk (fs w') = FileSystem.disk (fs w).

(** From worlds with the same unchanging files, [m] gives the same
    result. *)
Definition alike {A : Type} (m : Eff (World U) A) : Prop :=
  forall w w', same_disk w w' ->
    snd (m w) = snd (m w') /\ same_disk (fst (m w)) (fst (m w')).

(** The path that the pre-flight check reads for direction [d] of
    migration [m], if any. *)
Definition file_ref (d : Direction) (m : Migration) : option string :=
  match d with
  | Up =>
      match up m with
      | FileRef file => if truthy file then Some file else None
      | Inline _ => None
      end
  | Down =>
      match down m with
      | Some (FileRef file) => if truthy file then Some file else None
      | _ => None
      end
  end.

(** The ledger lists exactly the versions 1..k, as it does when only the
    manager has written to it. *)
Definition dense (rows : list LedgerRow) (k : Z) : Prop :=
  0 <= k /\ forall x, In x (map row_version rows) <-> 1 <= x <= k.

(** What [getCurrentVersion] makes of the ledger rows. *)
Definition current_version (rows : list LedgerRow) : Z :=
  match Sqlite.max_version rows with
  | Some v => v
  | None => 0
  end.

(** The versions recorded in the ledger of [w]. *)
Definition applied (w : World U) : list Z :=
  match ledger_of w with
  | Some rows => map row_version rows
  | None => []
  end.

(** The first three lines of [migrateTo]: from [w], the set [migs] is
    loaded, [current] is read from the ledger and [target] is what
    [actualTarget] receives; [w'] is the world at that point. *)
Definition plans (targetVersion : Target) (w : World U)
  (migs : list Migration) (current target : Z) (w' : World U) : Prop :=
  exists wa wb,
    loadMigrations migrationsPath yamlParser w = (wa, inr migs)
    /\ getCurrentVersion wa = (wb, inr current)
    /\ resolve_target migrationsPath yamlParser targetVersion wb
       = (w', inr target).

(** The world in which the stepping of [migrateTo] starts. *)
Definition planned (targetVersion : Target) (w : World U) : World U :=
  fst (resolve_target migrationsPath yamlParser targetVersion
         (fst (getCurrentVersion
                 (fst (loadMigrations migrationsPath yamlParser w))))).

(** What a statement sent with [exec] does to the user data; the three
    transaction statements and the ledger DDL do not touch it. *)
Definition run_script (sql : string) (u : U) : U :=
  match Sqlite.classify sql with
  | Sqlite.Script s => fst (script s u)
  | _ => u
  end.

(** The ledger row that records migration [m], applied at [ts]. *)
Definition row_of (ts : Z) (m : Migration) : LedgerRow :=
  {| row_version := version m;
     row_name := name m;
     row_description := description m;
     applied_at := toString ts |}.

(** [sql] is the text of [source] in [w]: the inline text, or what the
    file held at one of the reads. *)
Definition text_of (w : World U) (source : SqlSource) (sql : string)
  : Prop :=
  match source with
  | Inline text => sql = text
  | FileRef file => exists n, FileSystem.disk (fs w) n file = Some sql
  end.

End Vocabulary.

(** ** The version sequence check *)

Section Sequence.
Import MigrationManager.

Lemma validateSequence_ok_iff (migs : list Migration) : forall i,
  validateSequence i migs = inr tt
  <-> map version migs = map Z.of_nat (seq (S i) (List.length migs)).
Proof.
  induction migs as [|m rest IH]; intro i; simpl.
  - split; reflexivity.
  - destruct (Z.eqb_spec (version m) (Z.of_nat i + 1)) as [E|E].
    + rewrite IH. split; intro H.
      * f_equal; [lia | exact H].
      * now inversion H.
    + split; intro H; [discriminate|].
      inversion H. lia.
Qed.

Lemma validateSequence_first_violation (migs : list Migration) :
  forall i0 i m,
    nth_error migs i = Some m ->
    version m <> Z.of_nat (i0 + i) + 1 ->
    (forall j mj, (j < i)%nat -> nth_error migs j = Some mj ->
                  version mj = Z.of_nat (i0 + j) + 1) ->
    validateSequence i0 migs
    = inl (SequenceError (Z.of_nat (i0 + i) + 1) (version m)).
Proof.
  induction migs as [|x rest IH]; intros i0 i m Hnth Hne Hbefore.
  - destruct i; discriminate.
  - destruct i as [|i]; simpl in *.
    + inversion Hnth; subst x.
      rewrite Nat.add_0_r in *.
      destruct (Z.eqb_spec (version m) (Z.of_nat i0 + 1)); [contradiction|].
      reflexivity.
    + assert (Hx : version x = Z.of_nat i0 + 1).
      { rewrite (Hbefore 0%nat x);
          [f_equal; f_equal; lia | lia | reflexivity]. }
      rewrite Hx, Z.eqb_refl.
      replace (i0 + S i)%nat with (S i0 + i)%nat in * by lia.
      apply IH; auto.
      intros j mj Hj Hnj.
      rewrite (Hbefore (S j) mj); [f_equal; f_equal; lia | lia | exact Hnj].
Qed.

(** C4. The version sequence check of [loadMigrations] accepts a list
    exactly when its versions are [1; 2; ...; N] (this holds for every
    list, so for every list sorted ascending by version); and when [i] is
    the first index with [migrations[i].version <> i + 1], it fails with
    the sequence error that reports expected version [i + 1] and the
    version found there. *)
Theorem validateSequence_dense (migs : list Migration) :
  (validateSequence 0 migs = inr tt
   <-> map version migs = one_to (List.length migs))
  /\ (forall i m,
        nth_error migs i = Some m ->
        version m <> Z.of_nat i + 1 ->
        (forall j mj, (j < i)%nat -> nth_error migs j = Some mj ->
                      version mj = Z.of_nat j + 1) ->
        validateSequence 0 migs
        = inl (SequenceError (Z.of_nat i + 1) (version m))).
Proof.
  split.
  - apply validateSequence_ok_iff.
  - intros i m Hnth Hne Hbefore.
    apply (validateSequence_first_violation migs 0 i m); auto.
Qed.

End Sequence.

(** ** Frame rules *)

Section Frames.
Context {S : Type} (R : S -> S -> Prop).
Hypothesis R_refl : forall s, R s s.
Hypothesis R_trans : forall a b c, R a b -> R b c -> R a c.

Lemma frames_ret {A : Type} (a : A) : frames R (ret a).
Proof. intros s s' r H. inversion H. apply R_refl. Qed.

Lemma frames_throw {A : Type} (e : Error) : frames R (@throw S A e).
Proof. intros s s' r H. inversion H. apply R_refl. Qed.

Lemma frames_bind {A B : Type} (m : Eff S A) (k : A -> Eff S B) :
  frames R m -> (forall a, frames R (k a)) -> frames R (bind m k).
Proof.
  intros Hm Hk s s' r H. unfold bind in H.
  destruct (m s) as [s1 [e|a]] eqn:E.
  - inversion H; subst. exact (Hm _ _ _ E).
  - exact (R_trans _ _ _ (Hm _ _ _ E) (Hk _ _ _ _ H)).
Qed.

Lemma frames_try_catch {A : Type} (m : Eff S A) (h : Error -> Eff S A) :
  frames R m -> (forall e, frames R (h e)) -> frames R (try_catch m h).
Proof.
  intros Hm Hh s s' r H. unfold try_catch in H.
  destruct (m s) as [s1 [e|a]] eqn:E.
  - exact (R_trans _ _ _ (Hm _ _ _ E) (Hh _ _ _ _ H)).
  - inversion H; subst. exact (Hm _ _ _ E).
Qed.

Lemma frames_modify (f : S -> S) :
  (forall s, R s (f s)) -> frames R (modify f).
Proof. intros Hf s s' r H. inversion H. apply Hf. Qed.

Lemma frames_zoom {T A : Type} (R' : T -> T -> Prop) (proj : S -> T)
  (inj : T -> S -> S) (m : Eff T A) :
  frames R' m ->
  (forall s t', R' (proj s) t' -> R s (inj t' s)) ->
  frames R (zoom proj inj m).
Proof.
  intros Hm Hinj s s' r H. unfold zoom in H.
  destruct (m (proj s)) as [t' r'] eqn:E.
  inversion H; subst. apply Hinj. exact (Hm _ _ _ E).
Qed.

End Frames.

Lemma frames_transaction {U T : Type}
  (script : string -> U -> U * option string)
  (R : DenoDatabase.t U -> DenoDatabase.t U -> Prop)
  (fn : Eff (DenoDatabase.t U) T) :
  (forall s, R s s) ->
  (forall a b c, R a b -> R b c -> R a c) ->
  (forall b, frames R (DenoDatabase.set_inTransaction b)) ->
  (forall sql, frames R (DenoDatabase.exec script sql)) ->
  frames R fn ->
  frames R (DenoDatabase.transaction script fn).
Proof.
  intros Hrefl Htrans Hset Hexec Hfn this s' r H.
  unfold DenoDatabase.transaction in H.
  destruct (DenoDatabase.inTransaction this).
  - exact (Hfn _ _ _ H).
  - revert H. apply frames_bind; auto. intros _.
    apply frames_bind; auto. intros _.
    apply frames_try_catch; auto.
    + apply frames_bind; auto. intro result.
      apply frames_bind; auto. intros _.
      apply frames_bind; auto. intros _.
      apply frames_ret; auto.
    + intro error. apply frames_bind; auto. intros _.
      apply frames_bind; auto. intros _.
      apply frames_throw; auto.
Qed.

(** ** What the manager's methods leave alone *)

Create HintDb frames.

#[local] Hint Resolve frames_ret frames_throw frames_bind frames_try_catch
  frames_modify : frames.

Section ManagerFrames.
Context {U : Type}.
Variable script : string -> U -> U * option string.
Variable migrationsPath : string.
Variable yamlParser : string -> Error + MigrationsFile.
Import MigrationManager.

Lemma fs_only_refl (w : World U) : fs_only w w.
Proof. repeat split. Qed.

Lemma fs_only_trans (a b c : World U) :
  fs_only a b -> fs_only b c -> fs_only a c.
Proof.
  intros (H1 & H2 & H3) (H4 & H5 & H6).
  repeat split; congruence.
Qed.

Lemma same_files_refl (w : World U) : same_files w w.
Proof. repeat split. Qed.

Lemma same_files_trans (a b c : World U) :
  same_files a b -> same_files b c -> same_files a c.
Proof. intros (H1 & H2) (H3 & H4). split; congruence. Qed.

Lemma fs_only_same_files (w w' : World U) : fs_only w w' -> same_files w w'.
Proof. intros (H1 & H2 & H3). split; assumption. Qed.

Lemma keeps_table_refl (d : Sqlite.Database U) : keeps_table d d.
Proof. intro H; exact H. Qed.

Lemma keeps_table_trans (a b c : Sqlite.Database U) :
  keeps_table a b -> keeps_table b c -> keeps_table a c.
Proof. unfold keeps_table; auto. Qed.

Lemma keeps_table_conn_refl (d : DenoDatabase.t U) : keeps_table_conn d d.
Proof. intro H; exact H. Qed.

Lemma keeps_table_conn_trans (a b c : DenoDatabase.t U) :
  keeps_table_conn a b -> keeps_table_conn b c -> keeps_table_conn a c.
Proof. unfold keeps_table_conn, keeps_table; auto. Qed.

Lemma keeps_table_world_refl (w : World U) : keeps_table_world w w.
Proof. intro H; exact H. Qed.

Lemma keeps_table_world_trans (a b c : World U) :
  keeps_table_world a b -> keeps_table_world b c -> keeps_table_world a c.
Proof. unfold keeps_table_world, keeps_table_conn, keeps_table; auto. Qed.

Lemma fs_only_keeps_table (w w' : World U) :
  fs_only w w' -> keeps_table_world w w'.
Proof.
  intros (H1 & _). unfold keeps_table_world. rewrite H1.
  apply keeps_table_conn_refl.
Qed.

#[local] Hint Resolve fs_only_refl fs_only_trans same_files_refl same_files_trans
  keeps_table_refl keeps_table_trans keeps_table_conn_refl
  keeps_table_conn_trans keeps_table_world_refl keeps_table_world_trans
  : frames.

(** *** Methods that only read files *)

Lemma readTextFile_fs_only (path : string) :
  frames fs_only (@readTextFile U path).
Proof.
  intros w w' r H.
  unfold readTextFile, on_fs, zoom, FileSystem.readTextFile in H.
  destruct (FileSystem.disk (fs w) _ path); inversion H; subst;
    repeat split.
Qed.

Lemma of_result_fs_only {A : Type} (x : Error + A) :
  frames fs_only (@of_result U A x).
Proof. intros w w' r H. inversion H. apply fs_only_refl. Qed.

#[local] Hint Resolve readTextFile_fs_only of_result_fs_only : frames.

Lemma resolveSql_fs_only (sql : option SqlSource) (v : Z) (d : Direction) :
  frames fs_only (@resolveSql U sql v d).
Proof.
  unfold resolveSql. destruct sql as [[text|file]|]; eauto 10 with frames.
Qed.

Lemma validateMigrationFile_fs_only (m : Migration) :
  frames fs_only (@validateMigrationFile U m).
Proof.
  unfold validateMigrationFile.
  apply frames_bind; eauto with frames.
  - destruct (up m) as [text|file]; eauto with frames.
    destruct (truthy file); eauto 10 with frames.
  - intros _. destruct (down m) as [[text|file]|]; eauto with frames.
    destruct (truthy file); eauto 10 with frames.
Qed.

#[local] Hint Resolve resolveSql_fs_only validateMigrationFile_fs_only : frames.

Lemma validateMigrationFiles_fs_only (migs : list Migration) :
  frames fs_only (@validateMigrationFiles U migs).
Proof.
  induction migs as [|m rest IH]; simpl; eauto with frames.
Qed.

#[local] Hint Resolve validateMigrationFiles_fs_only : frames.

Lemma loadMigrations_fs_only :
  frames fs_only (@loadMigrations U migrationsPath yamlParser).
Proof. unfold loadMigrations. eauto 20 with frames. Qed.

#[local] Hint Resolve loadMigrations_fs_only : frames.

Lemma getLatestVersion_fs_only :
  frames fs_only (@getLatestVersion U migrationsPath yamlParser).
Proof. unfold getLatestVersion. eauto 20 with frames. Qed.


(** *** All methods: the files stay, and so does the ledger table *)

Lemma frames_weaken {S A : Type} (R R' : S -> S -> Prop) (m : Eff S A) :
  (forall s s', R s s' -> R' s s') -> frames R m -> frames R' m.
Proof. intros HR Hm s s' r H. apply HR. exact (Hm _ _ _ H). Qed.

Lemma steady_refl (w : World U) : steady w w.
Proof. split; eauto with frames. Qed.

Lemma steady_trans (a b c : World U) :
  steady a b -> steady b c -> steady a c.
Proof. intros [H1 H2] [H3 H4]. split; eauto with frames. Qed.

Lemma fs_only_steady (w w' : World U) : fs_only w w' -> steady w w'.
Proof.
  intro H. split; [apply fs_only_same_files | apply fs_only_keeps_table];
    exact H.
Qed.

#[local] Hint Resolve steady_refl steady_trans : frames.

Lemma exec_keeps_table (sql : string) :
  frames keeps_table (Sqlite.exec script sql).
Proof.
  intros d d' r H [Hst Hsn]. unfold Sqlite.exec in H.
  destruct d as [[lg u] snap cs]; simpl in *.
  destruct (Sqlite.classify sql); simpl in *.
  - destruct snap; inversion H; subst; split; simpl; auto.
    intros s E; inversion E; subst; auto.
  - destruct snap; inversion H; subst; split; simpl; auto; discriminate.
  - destruct snap; inversion H; subst; split; simpl; auto; discriminate.
  - destruct lg; inversion H; subst; split; simpl; auto; discriminate.
  - destruct (script sql0 u) as [u' [msg|]]; inversion H; subst;
      split; simpl; auto.
Qed.

Lemma insert_keeps_table (row : LedgerRow) :
  frames keeps_table (@Sqlite.insert U row).
Proof.
  intros d d' r H [Hst Hsn]. unfold Sqlite.insert in H.
  destruct d as [[lg u] snap cs]; simpl in *.
  destruct lg as [rows|]; [|contradiction].
  destruct (Sqlite.has_version _ rows); inversion H; subst;
    split; simpl; auto; discriminate.
Qed.

Lemma delete_keeps_table (v : Z) :
  frames keeps_table (@Sqlite.delete U v).
Proof.
  intros d d' r H [Hst Hsn]. unfold Sqlite.delete in H.
  destruct d as [[lg u] snap cs]; simpl in *.
  destruct lg as [rows|]; [|contradiction].
  inversion H; subst; split; simpl; auto; discriminate.
Qed.

Lemma select_max_keeps_table :
  frames keeps_table (@Sqlite.select_max U).
Proof.
  intros d d' r H [Hst Hsn]. unfold Sqlite.select_max in H.
  destruct d as [[lg u] snap cs]; simpl in *.
  destruct lg as [rows|]; [|contradiction].
  inversion H; subst; split; simpl; auto.
Qed.

Lemma conn_on_db_keeps_table {A : Type} (m : Eff (Sqlite.Database U) A) :
  frames keeps_table m -> frames keeps_table_conn (DenoDatabase.on_db m).
Proof.
  intro Hm. unfold DenoDatabase.on_db.
  apply (frames_zoom keeps_table_conn keeps_table); auto.
Qed.

Lemma set_inTransaction_keeps_table (b : bool) :
  frames keeps_table_conn (@DenoDatabase.set_inTransaction U b).
Proof.
  unfold DenoDatabase.set_inTransaction. apply frames_modify.
  intros s H; exact H.
Qed.

Lemma conn_exec_keeps_table (sql : string) :
  frames keeps_table_conn (DenoDatabase.exec script sql).
Proof. apply conn_on_db_keeps_table, exec_keeps_table. Qed.

#[local] Hint Resolve conn_exec_keeps_table set_inTransaction_keeps_table : frames.

Lemma transaction_keeps_table {T : Type} (fn : Eff (DenoDatabase.t U) T) :
  frames keeps_table_conn fn ->
  frames keeps_table_conn (DenoDatabase.transaction script fn).
Proof. intro Hfn. apply frames_transaction; eauto with frames. Qed.

Lemma on_db_steady {A : Type} (m : Eff (DenoDatabase.t U) A) :
  frames keeps_table_conn m -> frames steady (on_db m).
Proof.
  intro Hm. unfold on_db.
  apply (frames_zoom steady keeps_table_conn); auto.
  intros s t' H. split; [split; reflexivity | exact H].
Qed.

Lemma up_unit_keeps_table (v : Z) (m : Migration) (sql : string) (ts : Z) :
  frames keeps_table_conn (up_unit script v m sql ts).
Proof.
  unfold up_unit. apply frames_bind; eauto with frames.
  intros _. apply conn_on_db_keeps_table, insert_keeps_table.
Qed.

Lemma down_unit_keeps_table (v : Z) (sql : string) :
  frames keeps_table_conn (down_unit script v sql).
Proof.
  unfold down_unit. apply frames_bind; eauto with frames.
  intros _. apply conn_on_db_keeps_table, delete_keeps_table.
Qed.

Lemma Date_now_steady : frames steady (@Date_now U).
Proof. intros w w' r H. inversion H. apply steady_refl. Qed.

Lemma resolveSql_steady (sql : option SqlSource) (v : Z) (d : Direction) :
  frames steady (@resolveSql U sql v d).
Proof.
  apply (frames_weaken fs_only); [apply fs_only_steady|].
  apply resolveSql_fs_only.
Qed.

Lemma loadMigrations_steady :
  frames steady (@loadMigrations U migrationsPath yamlParser).
Proof.
  apply (frames_weaken fs_only); [apply fs_only_steady|].
  apply loadMigrations_fs_only.
Qed.

Lemma getLatestVersion_steady :
  frames steady (@getLatestVersion U migrationsPath yamlParser).
Proof.
  apply (frames_weaken fs_only); [apply fs_only_steady|].
  apply getLatestVersion_fs_only.
Qed.

#[local] Hint Resolve Date_now_steady resolveSql_steady loadMigrations_steady
  getLatestVersion_steady on_db_steady transaction_keeps_table
  up_unit_keeps_table down_unit_keeps_table : frames.

Lemma getCurrentVersion_steady : frames steady (@getCurrentVersion U).
Proof.
  unfold getCurrentVersion. apply frames_bind; eauto with frames.
  apply on_db_steady, conn_on_db_keeps_table, select_max_keeps_table.
Qed.

Lemma constructor_steady : frames steady (constructor script).
Proof.
  unfold constructor, ensureMigrationsTable. eauto with frames.
Qed.

Lemma apply_step_steady (v : Z) (m : Migration) :
  frames steady (apply_step script v m).
Proof.
  unfold apply_step.
  apply frames_try_catch; eauto with frames.
  apply frames_bind; eauto with frames.
  intros [sql|]; eauto with frames.
  destruct (truthy sql); eauto 10 with frames.
Qed.

Lemma revert_step_steady (v : Z) (m : Migration) :
  frames steady (revert_step script v m).
Proof.
  unfold revert_step.
  destruct (negb (reversible m)); eauto with frames.
  destruct (no_down m); eauto with frames.
  apply frames_try_catch; eauto with frames.
  apply frames_bind; eauto with frames.
  intros [sql|]; eauto with frames.
  destruct (truthy sql); eauto 10 with frames.
Qed.

#[local] Hint Resolve getCurrentVersion_steady apply_step_steady revert_step_steady
  : frames.

Lemma migrateUp_loop_steady (migs : list Migration) (n : nat) :
  forall v, frames steady (migrateUp_loop script n v migs).
Proof.
  induction n as [|n IH]; intro v; simpl; eauto with frames.
  destruct (find_version v migs); eauto with frames.
Qed.

Lemma migrateDown_loop_steady (migs : list Migration) (n : nat) :
  forall v, frames steady (migrateDown_loop script n v migs).
Proof.
  induction n as [|n IH]; intro v; simpl; eauto with frames.
  destruct (find_version v migs); eauto with frames.
Qed.

#[local] Hint Resolve migrateUp_loop_steady migrateDown_loop_steady : frames.

Lemma migrateTo_steady (targetVersion : Target) :
  frames steady (migrateTo script migrationsPath yamlParser targetVersion).
Proof.
  unfold migrateTo.
  apply frames_bind; eauto with frames. intro migs.
  apply frames_bind; eauto with frames. intro current.
  apply frames_bind; eauto with frames.
  - destruct targetVersion; simpl; eauto with frames.
  - intro target.
    destruct (current =? target); eauto with frames.
    destruct (current <? target); unfold migrateUp, migrateDown;
      eauto with frames.
Qed.

End ManagerFrames.

(** ** Loading twice from files that do not change *)

Section Determinism.
Context {U : Type}.
Variable migrationsPath : string.
Variable yamlParser : string -> Error + MigrationsFile.
Import MigrationManager.

Lemma alike_ret {A : Type} (a : A) : alike (@ret (World U) A a).
Proof. intros w w' H. split; [reflexivity | exact H]. Qed.

Lemma alike_throw {A : Type} (e : Error) : alike (@throw (World U) A e).
Proof. intros w w' H. split; [reflexivity | exact H]. Qed.

Lemma alike_of_result {A : Type} (x : Error + A) :
  alike (@of_result U A x).
Proof. intros w w' H. split; [reflexivity | exact H]. Qed.

Lemma alike_bind {A B : Type} (m : Eff (World U) A)
  (k : A -> Eff (World U) B) :
  alike m -> (forall a, alike (k a)) -> alike (bind m k).
Proof.
  intros Hm Hk w w' H. destruct (Hm w w' H) as [Hr Hw].
  unfold bind.
  destruct (m w) as [w1 [e|a]]; destruct (m w') as [w1' [e'|a']];
    simpl in *; try discriminate.
  - split; [congruence | exact Hw].
  - inversion Hr; subst a'. apply Hk. exact Hw.
Qed.

Lemma alike_try_catch {A : Type} (m : Eff (World U) A)
  (h : Error -> Eff (World U) A) :
  alike m -> (forall e, alike (h e)) -> alike (try_catch m h).
Proof.
  intros Hm Hh w w' H. destruct (Hm w w' H) as [Hr Hw].
  unfold try_catch.
  destruct (m w) as [w1 [e|a]]; destruct (m w') as [w1' [e'|a']];
    simpl in *; try discriminate.
  - inversion Hr; subst e'. apply Hh. exact Hw.
  - split; [congruence | exact Hw].
Qed.

Lemma alike_readTextFile (path : string) : alike (@readTextFile U path).
Proof.
  intros w w' [Hstable Hdisk].
  unfold readTextFile, on_fs, zoom, FileSystem.readTextFile.
  rewrite Hdisk.
  rewrite (Hstable (List.length (FileSystem.reads (fs w)))),
    (Hstable (List.length (FileSystem.reads (fs w')))).
  destruct (FileSystem.disk (fs w) 0%nat path); simpl;
    (split; [reflexivity | split; [exact Hstable | reflexivity]]).
Qed.

#[local] Hint Resolve alike_ret alike_throw alike_of_result alike_bind
  alike_try_catch alike_readTextFile : frames.

Lemma alike_validateMigrationFile (m : Migration) :
  alike (@validateMigrationFile U m).
Proof.
  unfold validateMigrationFile. apply alike_bind.
  - destruct (up m) as [text|file]; auto with frames.
    destruct (truthy file); auto 10 with frames.
  - intros _. destruct (down m) as [[text|file]|]; auto with frames.
    destruct (truthy file); auto 10 with frames.
Qed.

Lemma alike_validateMigrationFiles (migs : list Migration) :
  alike (@validateMigrationFiles U migs).
Proof.
  induction migs as [|m rest IH]; simpl; auto with frames.
  apply alike_bind; [apply alike_validateMigrationFile | intros _; exact IH].
Qed.

Lemma alike_loadMigrations :
  alike (@loadMigrations U migrationsPath yamlParser).
Proof.
  unfold loadMigrations.
  apply alike_try_catch; auto with frames.
  apply alike_bind; auto with frames. intro yamlContent.
  apply alike_bind; auto with frames. intro migrationsFile.
  apply alike_bind; auto with frames. intros _.
  apply alike_bind; auto with frames.
  apply alike_validateMigrationFiles.
Qed.

(** Two loads from the same unchanging files give the same set. *)
Lemma loadMigrations_again (w w' wa wb : World U)
  (r r' : Error + list Migration) :
  same_disk w w' ->
  loadMigrations migrationsPath yamlParser w = (wa, r) ->
  loadMigrations migrationsPath yamlParser w' = (wb, r') ->
  r' = r.
Proof.
  intros H Ha Hb. destruct (alike_loadMigrations w w' H) as [Hr _].
  rewrite Ha, Hb in Hr. simpl in Hr. congruence.
Qed.

Lemma alike_getLatestVersion :
  alike (@getLatestVersion U migrationsPath yamlParser).
Proof.
  unfold getLatestVersion. apply alike_bind; auto with frames.
  apply alike_loadMigrations.
Qed.

Lemma alike_resolve_target (targetVersion : Target) :
  alike (@resolve_target U migrationsPath yamlParser targetVersion).
Proof.
  destruct targetVersion; simpl; auto with frames.
  apply alike_getLatestVersion.
Qed.

Lemma stable_same_disk (f f' : FileSystem.t) :
  FileSystem.disk f' = FileSystem.disk f ->
  FileSystem.stable f -> FileSystem.stable f'.
Proof. intros H Hs n path. rewrite H. apply Hs. Qed.

End Determinism.

(** ** Atomic units on an idle connection *)

Section Units.
Context {U : Type}.
Variable script : string -> U -> U * option string.
Import MigrationManager.

Ltac unit_unfold H :=
  unfold DenoDatabase.transaction, begin_unit, up_unit, down_unit,
    DenoDatabase.exec,
    DenoDatabase.run_insert, DenoDatabase.run_delete, DenoDatabase.on_db,
    DenoDatabase.set_inTransaction,
    Sqlite.exec, Sqlite.insert, Sqlite.delete, bind, try_catch, zoom,
    modify, ret, throw in H;
  simpl in H.

Ltac unit_step H :=
  match type of H with
  | context [Sqlite.classify ?s] => destruct (Sqlite.classify s) eqn:?
  | context [script ?s ?u] => destruct (script s u) as [? [?|]] eqn:?
  | context [Sqlite.has_version ?v ?l] =>
      destruct (Sqlite.has_version v l) eqn:?
  end; simpl in H.

Lemma up_unit_committed (v : Z) (m : Migration) (sql : string) (ts : Z)
  (d d' : DenoDatabase.t U) (rows : list LedgerRow) :
  idle d ->
  Sqlite.ledger (Sqlite.store (DenoDatabase.db d)) = Some rows ->
  DenoDatabase.transaction script (up_unit script v m sql ts) d
  = (d', inr tt) ->
  idle d'
  /\ Sqlite.ledger (Sqlite.store (DenoDatabase.db d'))
     = Some (rows ++ [{| row_version := v; row_name := name m;
                         row_description := description m;
                         applied_at := toString ts |}])%list
  /\ deleted (Sqlite.calls (DenoDatabase.db d'))
     = deleted (Sqlite.calls (DenoDatabase.db d)).
Proof.
  intros [Hflag Hsnap] Hrows H.
  destruct d as [[[lg u] snap cs] flag]; simpl in *; subst.
  unit_unfold H.
  repeat unit_step H.
  all: try discriminate.
  all: inversion H; subst; clear H; simpl.
  all: repeat split; reflexivity.
Qed.

Lemma down_unit_committed (v : Z) (sql : string)
  (d d' : DenoDatabase.t U) (rows : list LedgerRow) :
  idle d ->
  Sqlite.ledger (Sqlite.store (DenoDatabase.db d)) = Some rows ->
  DenoDatabase.transaction script (down_unit script v sql) d
  = (d', inr tt) ->
  idle d'
  /\ Sqlite.ledger (Sqlite.store (DenoDatabase.db d'))
     = Some (filter (fun r => negb (row_version r =? v)) rows)
  /\ deleted (Sqlite.calls (DenoDatabase.db d'))
     = (deleted (Sqlite.calls (DenoDatabase.db d)) ++ [v])%list.
Proof.
  intros [Hflag Hsnap] Hrows H.
  destruct d as [[[lg u] snap cs] flag]; simpl in *; subst.
  unit_unfold H.
  repeat unit_step H.
  all: try discriminate.
  all: inversion H; subst; clear H; simpl.
  all: repeat split; reflexivity.
Qed.

(** A forward unit that fails leaves the ledger as it was, or with the
    row of its version when the script ended the transaction itself. *)
Lemma up_unit_failed_ledger (v : Z) (m : Migration) (sql : string) (ts : Z)
  (d d' : DenoDatabase.t U) (rows : list LedgerRow) (e : Error) :
  idle d ->
  Sqlite.ledger (Sqlite.store (DenoDatabase.db d)) = Some rows ->
  DenoDatabase.transaction script (up_unit script v m sql ts) d
  = (d', inl e) ->
  Sqlite.ledger (Sqlite.store (DenoDatabase.db d')) = Some rows
  \/ (Sqlite.has_version v rows = false
      /\ Sqlite.ledger (Sqlite.store (DenoDatabase.db d'))
         = Some (rows ++ [{| row_version := v; row_name := name m;
                             row_description := description m;
                             applied_at := toString ts |}])%list).
Proof.
  intros [Hflag Hsnap] Hrows H.
  destruct d as [[[lg u] snap cs] flag]; simpl in *; subst.
  unit_unfold H.
  repeat unit_step H.
  all: try discriminate.
  all: inversion H; subst; clear H; simpl; auto.
Qed.

(** A backward unit that fails leaves the ledger as it was, or without
    the row of its version when the script ended the transaction
    itself. *)
Lemma down_unit_failed_ledger (v : Z) (sql : string)
  (d d' : DenoDatabase.t U) (rows : list LedgerRow) (e : Error) :
  idle d ->
  Sqlite.ledger (Sqlite.store (DenoDatabase.db d)) = Some rows ->
  DenoDatabase.transaction script (down_unit script v sql) d
  = (d', inl e) ->
  Sqlite.ledger (Sqlite.store (DenoDatabase.db d')) = Some rows
  \/ Sqlite.ledger (Sqlite.store (DenoDatabase.db d'))
     = Some (filter (fun r => negb (row_version r =? v)) rows).
Proof.
  intros [Hflag Hsnap] Hrows H.
  destruct d as [[[lg u] snap cs] flag]; simpl in *; subst.
  unit_unfold H.
  repeat unit_step H.
  all: try discriminate.
  all: inversion H; subst; clear H; simpl; auto.
Qed.

(** An outermost [transaction] whose function throws while the
    transaction that BEGIN opened is as BEGIN left it: ROLLBACK restores
    the store, the error comes out as it is, and the connection is idle
    again. *)
Lemma transaction_rolls_back {T : Type} (fn : Eff (DenoDatabase.t U) T)
  (d d_in d_out : DenoDatabase.t U) (cause : Error) :
  idle d ->
  begin_unit script d = (d_in, inr tt) ->
  fn d_in = (d_out, inl cause) ->
  Sqlite.snapshot (DenoDatabase.db d_out)
  = Sqlite.snapshot (DenoDatabase.db d_in) ->
  exists d',
    DenoDatabase.transaction script fn d = (d', inl cause)
    /\ idle d'
    /\ Sqlite.store (DenoDatabase.db d') = Sqlite.store (DenoDatabase.db d).
Proof.
  intros [Hflag Hsnap] Hin Hfn Hopen.
  destruct d as [[st snap cs] flag]; simpl in *; subst.
  unfold DenoDatabase.transaction. simpl.
  unfold begin_unit in Hin. unfold bind at 1 2.
  unfold bind at 1 in Hin.
  destruct (DenoDatabase.set_inTransaction true
              {| DenoDatabase.db :=
                   {| Sqlite.store := st; Sqlite.snapshot := None;
                      Sqlite.calls := cs |};
                 DenoDatabase.inTransaction := false |})
    as [da [e|[]]] eqn:Ea; [discriminate|].
  rewrite Hin. unfold try_catch, bind. rewrite Hfn.
  unfold DenoDatabase.set_inTransaction, modify in Ea.
  inversion Ea; subst da; clear Ea.
  unfold DenoDatabase.exec, DenoDatabase.on_db, zoom, Sqlite.exec in Hin.
  simpl in Hin. inversion Hin; subst d_in; clear Hin. simpl in Hopen.
  destruct d_out as [[st' snap' cs'] flag']; simpl in *; subst snap'.
  simpl. eexists. split; [reflexivity|]. split; [split|]; reflexivity.
Qed.

End Units.

(** ** Ranges of versions *)

Section Ranges.

Lemma countdown_In (n : nat) : forall from x,
  In x (countdown n from) <-> from - Z.of_nat n < x <= from.
Proof.
  induction n as [|n IH]; intros from x; simpl.
  - split; [tauto | lia].
  - rewrite IH. lia.
Qed.

Lemma countup_In (n : nat) : forall from x,
  In x (countup n from) <-> from <= x < from + Z.of_nat n.
Proof.
  induction n as [|n IH]; intros from x; simpl.
  - split; [tauto | lia].
  - rewrite IH. lia.
Qed.

Lemma fold_left_max_ge_init (l : list Z) : forall a,
  a <= fold_left Z.max l a.
Proof.
  induction l as [|x l IH]; intro a; simpl.
  - lia.
  - specialize (IH (Z.max a x)). lia.
Qed.

Lemma fold_left_max_ge_elem (l : list Z) : forall a x,
  In x l -> x <= fold_left Z.max l a.
Proof.
  induction l as [|y l IH]; intros a x Hin; simpl.
  - destruct Hin.
  - destruct Hin as [->|Hin].
    + pose proof (fold_left_max_ge_init l (Z.max a x)). lia.
    + apply IH. exact Hin.
Qed.

Lemma fold_left_max_In (l : list Z) : forall a,
  fold_left Z.max l a = a \/ In (fold_left Z.max l a) l.
Proof.
  induction l as [|y l IH]; intro a; simpl.
  - left. reflexivity.
  - destruct (IH (Z.max a y)) as [H|H].
    + rewrite H. destruct (Z.max_spec a y) as [[_ E]|[_ E]]; rewrite E; auto.
    + right. right. exact H.
Qed.

(** SQL [MAX(version)] is the greatest version of a table with rows. *)
Lemma max_version_is_max (rows : list LedgerRow) (v : Z) :
  Sqlite.max_version rows = Some v -> is_max (map row_version rows) v.
Proof.
  destruct rows as [|r rest]; simpl; [discriminate|].
  intro H. inversion H; subst v; clear H. split.
  - destruct (fold_left_max_In (map row_version rest) (row_version r))
      as [E|E]; [left; symmetry; exact E | right; exact E].
  - intros x [<-|Hx].
    + apply fold_left_max_ge_init.
    + apply fold_left_max_ge_elem. exact Hx.
Qed.

Lemma max_version_None (rows : list LedgerRow) :
  Sqlite.max_version rows = None <-> rows = [].
Proof. destruct rows; simpl; split; intro H; congruence. Qed.

Lemma current_version_ge (rows : list LedgerRow) (r : LedgerRow) :
  In r rows -> row_version r <= current_version rows.
Proof.
  intro Hin. unfold current_version.
  destruct (Sqlite.max_version rows) as [v|] eqn:E.
  - apply max_version_is_max in E. apply E. apply in_map. exact Hin.
  - apply max_version_None in E. subst. destruct Hin.
Qed.

Lemma has_version_In (v : Z) (rows : list LedgerRow) :
  Sqlite.has_version v rows = true <-> In v (map row_version rows).
Proof.
  unfold Sqlite.has_version. rewrite existsb_exists, in_map_iff.
  split; intros (r & H1 & H2).
  - exists r. split; [apply Z.eqb_eq; exact H2 | exact H1].
  - exists r. split; [exact H2 | apply Z.eqb_eq; exact H1].
Qed.

Lemma dense_current (rows : list LedgerRow) (k : Z) :
  dense rows k -> current_version rows = k.
Proof.
  intros [Hk Hmem]. unfold current_version.
  destruct (Sqlite.max_version rows) as [v|] eqn:E.
  - apply max_version_is_max in E. destruct E as [Hin Hge].
    pose proof (proj1 (Hmem v) Hin) as Hv.
    assert (Hkin : In k (map row_version rows)) by (apply Hmem; lia).
    specialize (Hge k Hkin). lia.
  - apply max_version_None in E. subst rows.
    destruct (Z.eq_dec k 0) as [->|Hne]; [reflexivity|].
    exfalso. apply (proj2 (Hmem 1)). lia.
Qed.

Lemma dense_nil (rows : list LedgerRow) : dense rows 0 -> rows = [].
Proof.
  intros [_ Hmem]. destruct rows as [|r rest]; [reflexivity|].
  exfalso. pose proof (proj1 (Hmem (row_version r)) (or_introl eq_refl)).
  lia.
Qed.

Lemma dense_empty : dense [] 0.
Proof. split; [lia|]. intro x. simpl. split; [tauto | lia]. Qed.

Lemma validated_find (migs : list Migration) (v : Z) (m : Migration) :
  MigrationManager.validateSequence 0 migs = inr tt ->
  MigrationManager.find_version v migs = Some m ->
  1 <= v <= Z.of_nat (List.length migs).
Proof.
  intros Hseq Hfind. apply validateSequence_ok_iff in Hseq.
  apply find_some in Hfind. destruct Hfind as [Hin Hv].
  apply Z.eqb_eq in Hv. subst v.
  assert (H : In (version m) (map version migs)) by (apply in_map; exact Hin).
  rewrite Hseq in H. apply in_map_iff in H. destruct H as (n & <- & Hn).
  apply in_seq in Hn. lia.
Qed.

(** Rows left when the versions of a countdown are deleted one by
    one. *)
Lemma without_none (rows : list LedgerRow) (v : Z) (x : LedgerRow) :
  In x rows <-> In x rows /\ ~ In (row_version x) (countdown 0 v).
Proof.
  simpl. split; [intro Hx; split; [exact Hx | intros []]|].
  intros [Hx _]. exact Hx.
Qed.

Lemma without_one (rows : list LedgerRow) (v : Z) (x : LedgerRow) :
  In x (filter (fun r => negb (row_version r =? v)) rows)
  <-> In x rows /\ ~ In (row_version x) (countdown 1 v).
Proof.
  rewrite filter_In, negb_true_iff, Z.eqb_neq. simpl. split.
  - intros [Hx Hne]. split; [exact Hx|].
    intros [Heq|[]]. exact (Hne (eq_sym Heq)).
  - intros [Hx Hnot]. split; [exact Hx|].
    intro Heq. apply Hnot. left. symmetry. exact Heq.
Qed.

Lemma without_more (rows rows' : list LedgerRow) (v : Z) (j : nat) :
  (forall x, In x rows'
             <-> In x (filter (fun r => negb (row_version r =? v)) rows)
                 /\ ~ In (row_version x) (countdown j (v - 1))) ->
  forall x, In x rows'
            <-> In x rows /\ ~ In (row_version x) (countdown (S j) v).
Proof.
  intros Hmem x. rewrite Hmem, filter_In, negb_true_iff, Z.eqb_neq.
  simpl. split.
  - intros [[Hx Hne] Hnot]. split; [exact Hx|].
    intros [Heq|Hc]; [exact (Hne (eq_sym Heq)) | exact (Hnot Hc)].
  - intros [Hx Hnot]. split; [split|].
    + exact Hx.
    + intro Heq. apply Hnot. left. symmetry. exact Heq.
    + intro Hc. apply Hnot. right. exact Hc.
Qed.

End Ranges.

(** ** Steps that commit *)

Section Steps.
Context {U : Type}.
Variable script : string -> U -> U * option string.
Variable migrationsPath : string.
Variable yamlParser : string -> Error + MigrationsFile.
Import MigrationManager.

Lemma on_db_run {A : Type} (m : Eff (DenoDatabase.t U) A) (w w' : World U)
  (r : Error + A) :
  on_db m w = (w', r) ->
  exists d', m (db w) = (d', r)
             /\ w' = {| fs := fs w; db := d'; now := now w |}.
Proof.
  unfold on_db, zoom. destruct (m (db w)) as [d' r'].
  intro H; inversion H; subst. eauto.
Qed.

Lemma apply_step_committed (v : Z) (m : Migration) (w w' : World U)
  (rows : list LedgerRow) :
  idle (db w) ->
  ledger_of w = Some rows ->
  apply_step script v m w = (w', inr tt) ->
  idle (db w')
  /\ ledger_of w'
     = Some (rows ++ [{| row_version := v; row_name := name m;
                         row_description := description m;
                         applied_at := toString (now w) |}])%list
  /\ deleted (calls_of w') = deleted (calls_of w).
Proof.
  intros Hidle Hrows H.
  unfold apply_step, try_catch, bind in H.
  destruct (resolveSql (Some (up m)) v Up w) as [w1 [e|[sql|]]] eqn:E;
    simpl in H; try discriminate.
  destruct (resolveSql_fs_only _ _ _ _ _ _ E) as (Hdb & Hnow & _).
  destruct (truthy sql); [|discriminate].
  unfold Date_now in H.
  destruct (on_db _ w1) as [w2 [e|[]]] eqn:E2; [discriminate|].
  inversion H; subst w2; clear H.
  apply on_db_run in E2. destruct E2 as (d' & Hd & ->).
  rewrite Hdb, Hnow in Hd.
  unfold ledger_of, store_of, calls_of in *. simpl.
  exact (up_unit_committed script v m sql (now w) (db w) d' rows
           Hidle Hrows Hd).
Qed.

Lemma revert_step_committed (v : Z) (m : Migration) (w w' : World U)
  (rows : list LedgerRow) :
  idle (db w) ->
  ledger_of w = Some rows ->
  revert_step script v m w = (w', inr tt) ->
  idle (db w')
  /\ ledger_of w'
     = Some (filter (fun r => negb (row_version r =? v)) rows)
  /\ deleted (calls_of w') = (deleted (calls_of w) ++ [v])%list.
Proof.
  intros Hidle Hrows H.
  unfold revert_step in H.
  destruct (negb (reversible m)); [discriminate|].
  destruct (no_down m); [discriminate|].
  unfold try_catch, bind in H.
  destruct (resolveSql (down m) v Down w) as [w1 [e|[sql|]]] eqn:E;
    simpl in H; try discriminate.
  destruct (resolveSql_fs_only _ _ _ _ _ _ E) as (Hdb & Hnow & _).
  destruct (truthy sql); [|discriminate].
  destruct (on_db _ w1) as [w2 [e|[]]] eqn:E2; [discriminate|].
  inversion H; subst w2; clear H.
  apply on_db_run in E2. destruct E2 as (d' & Hd & ->).
  rewrite Hdb in Hd.
  unfold ledger_of, store_of, calls_of in *. simpl.
  exact (down_unit_committed script v sql (db w) d' rows Hidle Hrows Hd).
Qed.

Lemma migrateUp_loop_committed (migs : list Migration) (n : nat) :
  forall v (w w' : World U) rows,
    idle (db w) ->
    ledger_of w = Some rows ->
    migrateUp_loop script n v migs w = (w', inr tt) ->
    idle (db w')
    /\ (exists added,
          ledger_of w' = Some (rows ++ added)%list
          /\ map row_version added = countup n v)
    /\ deleted (calls_of w') = deleted (calls_of w).
Proof.
  induction n as [|n IH]; intros v w w' rows Hidle Hrows H; simpl in H.
  - inversion H; subst. split; [exact Hidle|split; [|reflexivity]].
    exists []. rewrite app_nil_r. auto.
  - destruct (find_version v migs) as [m|]; [|discriminate].
    unfold bind in H.
    destruct (apply_step script v m w) as [w1 [e|[]]] eqn:E;
      [discriminate|].
    destruct (apply_step_committed v m w w1 rows Hidle Hrows E)
      as (Hidle1 & Hrows1 & Hdel1).
    destruct (IH _ _ _ _ Hidle1 Hrows1 H)
      as (Hidle' & (added & Hrows' & Hadded) & Hdel').
    split; [exact Hidle'|split; [|congruence]].
    eexists (_ :: added). split.
    + rewrite Hrows'. rewrite <- app_assoc. reflexivity.
    + simpl. rewrite Hadded. reflexivity.
Qed.

Lemma migrateDown_loop_committed (migs : list Migration) (n : nat) :
  forall v (w w' : World U) rows,
    idle (db w) ->
    ledger_of w = Some rows ->
    migrateDown_loop script n v migs w = (w', inr tt) ->
    idle (db w')
    /\ (exists rows',
          ledger_of w' = Some rows'
          /\ forall r, In r rows'
                       <-> In r rows
                           /\ ~ In (row_version r) (countdown n v))
    /\ deleted (calls_of w')
       = (deleted (calls_of w) ++ countdown n v)%list.
Proof.
  induction n as [|n IH]; intros v w w' rows Hidle Hrows H; simpl in H.
  - inversion H; subst. split; [exact Hidle|split].
    + exists rows. split; auto. simpl. intro r. split.
      * intro Hr. split; [exact Hr | intros []].
      * intros [Hr _]. exact Hr.
    + simpl. rewrite app_nil_r. reflexivity.
  - destruct (find_version v migs) as [m|]; [|discriminate].
    unfold bind in H.
    destruct (revert_step script v m w) as [w1 [e|[]]] eqn:E;
      [discriminate|].
    destruct (revert_step_committed v m w w1 rows Hidle Hrows E)
      as (Hidle1 & Hrows1 & Hdel1).
    destruct (IH _ _ _ _ Hidle1 Hrows1 H)
      as (Hidle' & (rows' & Hrows' & Hin) & Hdel').
    split; [exact Hidle'|split].
    + exists rows'. split; auto.
      intro r. rewrite Hin, filter_In. simpl.
      rewrite negb_true_iff, Z.eqb_neq. split.
      * intros [[Hr Hne] Hnot]. split; [exact Hr|].
        intros [Heq|Hc]; [exact (Hne (eq_sym Heq)) | exact (Hnot Hc)].
      * intros [Hr Hnot]. split; [split|].
        -- exact Hr.
        -- intro Heq. apply Hnot. left. symmetry. exact Heq.
        -- intro Hc. apply Hnot. right. exact Hc.
    + rewrite Hdel', Hdel1. simpl. rewrite <- app_assoc. reflexivity.
Qed.


(** *** Cutting a run of the loops in two *)

Lemma migrateUp_loop_split (migs : list Migration) (n k : nat) :
  forall v (w : World U),
    migrateUp_loop script (n + k) v migs w
    = bind (migrateUp_loop script n v migs)
        (fun _ => migrateUp_loop script k (v + Z.of_nat n) migs) w.
Proof.
  induction n as [|n IH]; intros v w.
  - simpl. unfold bind, ret. rewrite Z.add_0_r. reflexivity.
  - simpl Nat.add. cbn [migrateUp_loop].
    destruct (find_version v migs) as [m|]; [|reflexivity].
    unfold bind at 1 2 3.
    destruct (apply_step script v m w) as [w1 [e|[]]]; [reflexivity|].
    rewrite IH. unfold bind.
    replace (v + 1 + Z.of_nat n) with (v + Z.of_nat (S n)) by lia.
    reflexivity.
Qed.

Lemma migrateDown_loop_split (migs : list Migration) (n k : nat) :
  forall v (w : World U),
    migrateDown_loop script (n + k) v migs w
    = bind (migrateDown_loop script n v migs)
        (fun _ => migrateDown_loop script k (v - Z.of_nat n) migs) w.
Proof.
  induction n as [|n IH]; intros v w.
  - simpl. unfold bind, ret. rewrite Z.sub_0_r. reflexivity.
  - simpl Nat.add. cbn [migrateDown_loop].
    destruct (find_version v migs) as [m|]; [|reflexivity].
    unfold bind at 1 2 3.
    destruct (revert_step script v m w) as [w1 [e|[]]]; [reflexivity|].
    rewrite IH. unfold bind.
    replace (v - 1 - Z.of_nat n) with (v - Z.of_nat (S n)) by lia.
    reflexivity.
Qed.

(** [migrateUp] to [target] is [migrateUp] to [mid - 1], then the step
    for [mid], then the rest. *)
Lemma migrateUp_at (migs : list Migration) (current mid target : Z)
  (w w1 : World U) :
  current < mid <= target ->
  migrateUp script current (mid - 1) migs w = (w1, inr tt) ->
  migrateUp script current target migs w
  = match find_version mid migs with
    | None => (w1, inl (StepNotFoundError mid))
    | Some m =>
        bind (apply_step script mid m)
          (fun _ => migrateUp script mid target migs) w1
    end.
Proof.
  intros Hrange Hprior. unfold migrateUp in *.
  replace (Z.to_nat (target - current))
    with (Z.to_nat (mid - 1 - current)
          + S (Z.to_nat (target - mid)))%nat by lia.
  rewrite migrateUp_loop_split. unfold bind at 1. rewrite Hprior.
  cbn [migrateUp_loop].
  replace (current + 1 + Z.of_nat (Z.to_nat (mid - 1 - current)))
    with mid by lia.
  destruct (find_version mid migs); reflexivity.
Qed.

(** [migrateDown] to [target] is [migrateDown] to [mid], then the step
    for [mid], then the rest. *)
Lemma migrateDown_at (migs : list Migration) (current mid target : Z)
  (w w1 : World U) :
  target < mid <= current ->
  migrateDown script current mid migs w = (w1, inr tt) ->
  migrateDown script current target migs w
  = match find_version mid migs with
    | None => (w1, inl (StepNotFoundError mid))
    | Some m =>
        bind (revert_step script mid m)
          (fun _ => migrateDown script (mid - 1) target migs) w1
    end.
Proof.
  intros Hrange Hprior. unfold migrateDown in *.
  replace (Z.to_nat (current - target))
    with (Z.to_nat (current - mid)
          + S (Z.to_nat (mid - 1 - target)))%nat by lia.
  rewrite migrateDown_loop_split. unfold bind at 1. rewrite Hprior.
  cbn [migrateDown_loop].
  replace (current - Z.of_nat (Z.to_nat (current - mid)))
    with mid by lia.
  destruct (find_version mid migs); reflexivity.
Qed.

(** *** [migrateTo] after its first three lines *)

Lemma migrateTo_planned (targetVersion : Target) (w w0 : World U)
  (migs : list Migration) (current target : Z) :
  plans migrationsPath yamlParser targetVersion w migs current target w0 ->
  migrateTo script migrationsPath yamlParser targetVersion w
  = (if current =? target then ret tt
     else if current <? target then
       migrateUp script current target migs
     else migrateDown script current target migs) w0.
Proof.
  intros (wa & wb & Hload & Hcur & Htarget).
  unfold migrateTo, bind.
  rewrite Hload, Hcur, Htarget. reflexivity.
Qed.


Lemma getCurrentVersion_run (w w' : World U) (r : Error + Z) :
  getCurrentVersion w = (w', r) ->
  fs w' = fs w /\ now w' = now w
  /\ DenoDatabase.inTransaction (db w') = DenoDatabase.inTransaction (db w)
  /\ store_of w' = store_of w
  /\ Sqlite.snapshot (DenoDatabase.db (db w'))
     = Sqlite.snapshot (DenoDatabase.db (db w))
  /\ calls_of w' = Sqlite.SelectMax :: calls_of w
  /\ match ledger_of w with
     | Some rows => r = inr (current_version rows)
     | None => r = inl (DriverError "no such table: migrations")
     end.
Proof.
  unfold getCurrentVersion, bind, on_db, zoom, DenoDatabase.get_max,
    DenoDatabase.on_db, Sqlite.select_max, ret, ledger_of, store_of,
    calls_of, current_version.
  destruct w as [f [[[lg u] snap cs] flag] t]; simpl.
  destruct lg as [rows|]; intro H; inversion H; subst; simpl;
    repeat split.
Qed.

(** What the first three lines of [migrateTo] establish. *)
Lemma plans_run (targetVersion : Target) (w w0 : World U)
  (migs : list Migration) (current target : Z) :
  plans migrationsPath yamlParser targetVersion w migs current target w0 ->
  db w0
  = {| DenoDatabase.db :=
         Sqlite.record_call Sqlite.SelectMax (DenoDatabase.db (db w));
       DenoDatabase.inTransaction := DenoDatabase.inTransaction (db w) |}
  /\ same_files w w0
  /\ exists rows, ledger_of w = Some rows
                  /\ current = current_version rows.
Proof.
  intros (wa & wb & Hload & Hcur & Htarget).
  apply loadMigrations_fs_only in Hload. destruct Hload as (Ha & Ha' & Ha'').
  assert (Hb : fs_only wb w0).
  { destruct targetVersion; simpl in Htarget.
    - exact (getLatestVersion_fs_only _ _ _ _ _ Htarget).
    - inversion Htarget. apply fs_only_refl. }
  destruct Hb as (Hb & Hb' & Hb'').
  pose proof (getCurrentVersion_run _ _ _ Hcur)
    as (Hc1 & Hc2 & Hc3 & Hc4 & Hc5 & Hc6 & Hc7).
  unfold ledger_of, store_of, calls_of in *.
  rewrite Ha in *.
  split; [|split].
  - rewrite Hb. destruct (db wb) as [[st snap cs] flag].
    destruct (db w) as [[st' snap' cs'] flag']. simpl in *.
    unfold Sqlite.record_call; simpl. congruence.
  - split; [congruence|]. rewrite Hb'', Hc1. exact Ha''.
  - destruct (Sqlite.ledger (Sqlite.store (DenoDatabase.db (db w))))
      as [rows|]; [|discriminate].
    exists rows. split; [reflexivity|congruence].
Qed.

(** *** A step whose unit fails *)

Lemma apply_step_unit_failed (v : Z) (m : Migration) (w w2 : World U)
  (sql : string) (d' : DenoDatabase.t U) (cause : Error) :
  resolveSql (Some (up m)) v Up w = (w2, inr (Some sql)) ->
  truthy sql = true ->
  DenoDatabase.transaction script (up_unit script v m sql (now w2)) (db w2)
  = (d', inl cause) ->
  apply_step script v m w
  = ({| fs := fs w2; db := d'; now := now w2 |},
     inl (ExecutionError Up v cause)).
Proof.
  intros Hres Hsql Hunit.
  unfold apply_step, try_catch, bind. rewrite Hres, Hsql.
  unfold Date_now, on_db, zoom. rewrite Hunit. reflexivity.
Qed.

(** *** Plans from runs *)

Lemma run_eq {S A : Type} (x : S * A) (a : A) : snd x = a -> x = (fst x, a).
Proof. destruct x as [s b]. simpl. intros ->. reflexivity. Qed.

Lemma plans_of_run (targetVersion : Target) (w : World U)
  (migs : list Migration) (current target : Z) :
  snd (loadMigrations migrationsPath yamlParser w) = inr migs ->
  snd (getCurrentVersion
         (fst (loadMigrations migrationsPath yamlParser w))) = inr current ->
  snd (resolve_target migrationsPath yamlParser targetVersion
         (fst (getCurrentVersion
                 (fst (loadMigrations migrationsPath yamlParser w)))))
  = inr target ->
  plans migrationsPath yamlParser targetVersion w migs current target
    (planned migrationsPath yamlParser targetVersion w).
Proof.
  intros H1 H2 H3. unfold plans, planned.
  exists (fst (loadMigrations migrationsPath yamlParser w)),
    (fst (getCurrentVersion
            (fst (loadMigrations migrationsPath yamlParser w)))).
  split; [apply run_eq; exact H1|].
  split; apply run_eq; assumption.
Qed.

End Steps.

(** ** Planning *)

Section Planning.
Context {U : Type}.
Variable migrationsPath : string.
Variable yamlParser : string -> Error + MigrationsFile.
Import MigrationManager.

Lemma latest_of_is_max (migs : list Migration) :
  migs = [] /\ latest_of migs = 0
  \/ is_max (map version migs) (latest_of migs).
Proof.
  destruct migs as [|m rest]; [left; split; reflexivity|].
  right. unfold latest_of. simpl. split.
  - destruct (fold_left_max_In (map version rest) (version m)) as [E|E];
      [left; symmetry; exact E | right; exact E].
  - intros x [<-|Hx].
    + apply fold_left_max_ge_init.
    + apply fold_left_max_ge_elem. exact Hx.
Qed.

(** C2, amended.  With a numeric target, [migrateTo] loads the migration
    source once and reads no file between the load and the steps, and
    [actualTarget] is the number given.  With target "latest" it loads
    the source twice, in [migrateTo] and again in [getLatestVersion]: the
    steps search the first set, and [actualTarget] is the greatest version
    of the second validated set, or 0 if that set is empty.  When the
    files do not change between reads the two sets are equal. *)
Theorem migrateTo_plan (targetVersion : Target) (w w0 : World U)
  (migs : list Migration) (current target : Z) :
  plans migrationsPath yamlParser targetVersion w migs current target w0 ->
  match targetVersion with
  | Version n =>
      target = n
      /\ exists wa,
           loadMigrations migrationsPath yamlParser w = (wa, inr migs)
           /\ fs w0 = fs wa
  | Latest =>
      exists wa wb migs2,
        loadMigrations migrationsPath yamlParser w = (wa, inr migs)
        /\ fs wb = fs wa
        /\ loadMigrations migrationsPath yamlParser wb = (w0, inr migs2)
        /\ target = latest_of migs2
        /\ (migs2 = [] /\ target = 0
            \/ is_max (map version migs2) target)
        /\ (FileSystem.stable (fs w) -> migs2 = migs)
  end.
Proof.
  intros (wa & wb & Hload & Hcur & Htarget).
  pose proof (getCurrentVersion_run _ _ _ Hcur) as (Hfs & _).
  destruct targetVersion as [|n]; simpl in Htarget.
  - unfold getLatestVersion, bind in Htarget.
    destruct (loadMigrations migrationsPath yamlParser wb)
      as [wc [e|migs2]] eqn:Hload2; [discriminate|].
    inversion Htarget; subst wc target; clear Htarget.
    exists wa, wb, migs2.
    split; [exact Hload|]. split; [exact Hfs|]. split; [exact Hload2|].
    split; [reflexivity|]. split.
    + destruct (latest_of_is_max migs2) as [[E1 E2]|E];
        [left; split; assumption | right; exact E].
    + intro Hstable.
      assert (Hsame : same_disk w wb).
      { split; [exact Hstable|]. rewrite Hfs.
        apply (loadMigrations_fs_only _ _ _ _ _ Hload). }
      pose proof (loadMigrations_again migrationsPath yamlParser
                    w wb wa w0 _ _ Hsame Hload Hload2) as E.
      congruence.
  - inversion Htarget; subst. split; [reflexivity|].
    exists wa. split; [exact Hload | exact Hfs].
Qed.

End Planning.

(** ** The pre-flight check of file references *)

Section Preflight.
Context {U : Type}.
Variable script : string -> U -> U * option string.
Variable migrationsPath : string.
Variable yamlParser : string -> Error + MigrationsFile.
Import MigrationManager.

Lemma insert_by_version_In (m x : Migration) (l : list Migration) :
  In x (insert_by_version m l) <-> x = m \/ In x l.
Proof.
  induction l as [|y l IH]; simpl.
  - split; intros [H|H]; auto.
  - destruct (version m <=? version y); simpl.
    + split; intros [H|H]; auto.
    + rewrite IH. split; intros [H|[H|H]]; auto.
Qed.

Lemma sort_by_version_In (x : Migration) (l : list Migration) :
  In x (sort_by_version l) <-> In x l.
Proof.
  induction l as [|y l IH]; simpl.
  - split; auto.
  - rewrite insert_by_version_In, IH. split; intros [H|H]; auto.
Qed.

(** One round of the check: an error names this migration and a
    reference of it that did not resolve; without an error every
    reference of it resolved. *)
Lemma validateMigrationFile_run (m : Migration) (w w' : World U)
  (r : Error + unit) :
  validateMigrationFile m w = (w', r) ->
  match r with
  | inl e =>
      exists d path n,
        file_ref d m = Some path
        /\ FileSystem.disk (fs w) n path = None
        /\ e = MissingFileError d (version m) (name m) path
  | inr _ =>
      forall d path, file_ref d m = Some path ->
        exists n, FileSystem.disk (fs w) n path <> None
  end.
Proof.
  unfold validateMigrationFile, file_ref, bind, try_catch, readTextFile,
    on_fs, zoom, FileSystem.readTextFile, ret, throw.
  destruct w as [[disk reads] d t]; simpl.
  destruct (up m) as [text|file]; simpl.
  - destruct (down m) as [[text'|file']|]; simpl;
      try (intro H; inversion H; subst; intros [|] path Hp; discriminate).
    destruct (truthy file') eqn:Ht; simpl;
      [|intro H; inversion H; subst; intros [|] path Hp; discriminate].
    destruct (disk (List.length reads) file') eqn:Hd; simpl;
      intro H; inversion H; subst.
    + intros [|] path Hp; [discriminate|]. inversion Hp; subst.
      exists (List.length reads). congruence.
    + exists Down, file', (List.length reads). auto.
  - destruct (truthy file) eqn:Ht; simpl.
    + destruct (disk (List.length reads) file) eqn:Hd; simpl.
      * destruct (down m) as [[text'|file']|]; simpl;
          try (intro H; inversion H; subst; intros [|] path Hp;
               [inversion Hp; subst; exists (List.length reads); congruence
               | discriminate]).
        destruct (truthy file') eqn:Ht'; simpl;
          [|intro H; inversion H; subst; intros [|] path Hp;
            [inversion Hp; subst; exists (List.length reads); congruence
            | discriminate]].
        destruct (disk (S (List.length reads)) file') eqn:Hd'; simpl;
          intro H; inversion H; subst.
        -- intros [|] path Hp; inversion Hp; subst.
           ++ exists (List.length reads). congruence.
           ++ exists (S (List.length reads)). congruence.
        -- exists Down, file', (S (List.length reads)). auto.
      * intro H; inversion H; subst.
        exists Up, file, (List.length reads). auto.
    + destruct (down m) as [[text'|file']|]; simpl;
        try (intro H; inversion H; subst; intros [|] path Hp; discriminate).
      destruct (truthy file') eqn:Ht'; simpl;
        [|intro H; inversion H; subst; intros [|] path Hp; discriminate].
      destruct (disk (List.length reads) file') eqn:Hd; simpl;
        intro H; inversion H; subst.
      * intros [|] path Hp; [discriminate|]. inversion Hp; subst.
        exists (List.length reads). congruence.
      * exists Down, file', (List.length reads). auto.
Qed.

Lemma validateMigrationFiles_run (migs : list Migration) :
  forall (w w' : World U) (r : Error + unit),
    validateMigrationFiles migs w = (w', r) ->
    match r with
    | inl e =>
        exists m d path n,
          In m migs /\ file_ref d m = Some path
          /\ FileSystem.disk (fs w) n path = None
          /\ e = MissingFileError d (version m) (name m) path
    | inr _ =>
        forall m d path, In m migs -> file_ref d m = Some path ->
          exists n, FileSystem.disk (fs w) n path <> None
    end.
Proof.
  induction migs as [|m rest IH]; intros w w' r H; simpl in H.
  - inversion H; subst. intros m d path [].
  - unfold bind in H.
    destruct (validateMigrationFile m w) as [w1 [e|[]]] eqn:E.
    + inversion H; subst.
      destruct (validateMigrationFile_run m w _ _ E)
        as (d & path & n & H1 & H2 & H3).
      exists m, d, path, n. simpl. auto.
    + pose proof (validateMigrationFile_run m w w1 _ E) as Hm.
      destruct (validateMigrationFile_fs_only _ _ _ _ E) as (_ & _ & Hdisk).
      specialize (IH w1 w' r H). rewrite Hdisk in IH.
      destruct r as [e|[]].
      * destruct IH as (m' & d & path & n & H1 & H2 & H3 & H4).
        exists m', d, path, n. simpl. auto.
      * intros m' d path [<-|Hin] Hp; [apply (Hm d path Hp)|].
        apply (IH m' d path Hin Hp).
Qed.

(** C7, amended.  Let the migration source load into a set whose sorted
    versions are 1..N and that contains a migration whose up or down is a
    file reference with a non-empty path that does not resolve.  Then
    [migrateTo] fails in [loadMigrations], with the load error that wraps
    a missing-file error naming a migration of the set and a referenced
    file of it that did not resolve (the first one met), and the
    connection is exactly as it was: the driver received no call, so no
    step ran and no atomic unit was opened. *)
Theorem migrateTo_missing_file (targetVersion : Target) (w wa : World U)
  (yamlContent : string) (file : MigrationsFile) (m : Migration)
  (d : Direction) (path : string) :
  readTextFile migrationsPath w = (wa, inr yamlContent) ->
  yamlParser yamlContent = inr file ->
  validateSequence 0 (sort_by_version (migrations file)) = inr tt ->
  In m (migrations file) ->
  file_ref d m = Some path ->
  (forall n, FileSystem.disk (fs w) n path = None) ->
  exists w' d' m' path' n,
    migrateTo script migrationsPath yamlParser targetVersion w
    = (w', inl (LoadError
                  (MissingFileError d' (version m') (name m') path')))
    /\ In m' (migrations file)
    /\ file_ref d' m' = Some path'
    /\ FileSystem.disk (fs w) n path' = None
    /\ db w' = db w.
Proof.
  intros Hread Hparse Hseq Hin Href Hmissing.
  destruct (readTextFile_fs_only _ _ _ _ Hread) as (Hdb & _ & Hdisk).
  destruct (validateMigrationFiles (sort_by_version (migrations file)) wa)
    as [wb r] eqn:Hfiles.
  pose proof (validateMigrationFiles_run _ _ _ _ Hfiles) as Hrun.
  destruct (validateMigrationFiles_fs_only _ _ _ _ Hfiles) as (Hdb' & _).
  destruct r as [e|[]].
  - destruct Hrun as (m' & d' & path' & n & H1 & H2 & H3 & ->).
    exists wb, d', m', path', n.
    split; [|split; [|split; [|split]]].
    + unfold migrateTo, bind, loadMigrations, try_catch, bind, of_result.
      rewrite Hread, Hparse, Hseq, Hfiles. reflexivity.
    + apply sort_by_version_In. exact H1.
    + exact H2.
    + rewrite <- Hdisk. exact H3.
    + congruence.
  - exfalso.
    destruct (Hrun m d path (proj2 (sort_by_version_In m _) Hin) Href)
      as [n Hn].
    apply Hn. rewrite Hdisk. apply Hmissing.
Qed.

End Preflight.

(** ** The stepping loops of [migrateTo] *)

Section Stepping.
Context {U : Type}.
Variable script : string -> U -> U * option string.
Variable migrationsPath : string.
Variable yamlParser : string -> Error + MigrationsFile.
Import MigrationManager.

(** C3. When the step sequence computed by [migrateTo] reaches a version
    [v] that the loaded set does not contain (no bounds check precedes
    the loops), the call fails with the not-found error naming [v], and
    the world it leaves is exactly the one the earlier iterations of
    this call produced: their steps stay as they were committed, and for
    [v] the driver received no call at all (no BEGIN, no script, no
    ledger statement) and no file was read.  Forward and backward. *)
Theorem migrateTo_step_not_found (targetVersion : Target)
  (w w0 w1 : World U) (migs : list Migration) (current target v : Z) :
  plans migrationsPath yamlParser targetVersion w migs current target w0 ->
  find_version v migs = None ->
  (current < v <= target
   /\ migrateUp script current (v - 1) migs w0 = (w1, inr tt))
  \/ (target < v <= current
      /\ migrateDown script current v migs w0 = (w1, inr tt)) ->
  migrateTo script migrationsPath yamlParser targetVersion w
  = (w1, inl (StepNotFoundError v)).
Proof.
  intros Hplan Hfind Hprior.
  rewrite (migrateTo_planned script _ _ _ _ _ _ _ _ Hplan).
  destruct Hprior as [[Hrange Hprior]|[Hrange Hprior]].
  - destruct (Z.eqb_spec current target); [lia|].
    destruct (Z.ltb_spec current target); [|lia].
    rewrite (migrateUp_at script migs current v target w0 w1 Hrange Hprior).
    rewrite Hfind. reflexivity.
  - destruct (Z.eqb_spec current target); [lia|].
    destruct (Z.ltb_spec current target); [lia|].
    rewrite (migrateDown_at script migs current v target w0 w1 Hrange
               Hprior).
    rewrite Hfind. reflexivity.
Qed.

(** C5. When a backward step of [migrateTo] meets a migration with
    [reversible = false], the call fails with the not-reversible error
    for it, whatever its [down] is (the check comes before the one for a
    missing rollback script), and the world it leaves is exactly the one
    the earlier iterations produced: for this step no SQL was resolved
    (no file read), the driver received no call, and the ledger still
    lists the version if it did when the call started on an idle
    connection. *)
Theorem migrateTo_not_reversible (targetVersion : Target)
  (w w0 w1 : World U) (migs : list Migration) (current target v : Z)
  (m : Migration) :
  plans migrationsPath yamlParser targetVersion w migs current target w0 ->
  target < v <= current ->
  migrateDown script current v migs w0 = (w1, inr tt) ->
  find_version v migs = Some m ->
  reversible m = false ->
  migrateTo script migrationsPath yamlParser targetVersion w
  = (w1, inl (NotReversibleError v (name m)))
  /\ (idle (db w) -> In v (applied w) -> In v (applied w1)).
Proof.
  intros Hplan Hrange Hprior Hfind Hrev. split.
  - rewrite (migrateTo_planned script _ _ _ _ _ _ _ _ Hplan).
    destruct (Z.eqb_spec current target); [lia|].
    destruct (Z.ltb_spec current target); [lia|].
    rewrite (migrateDown_at script migs current v target w0 w1 Hrange
               Hprior).
    rewrite Hfind. unfold bind, revert_step. rewrite Hrev. reflexivity.
  - intros Hidle Hin.
    destruct (plans_run _ _ _ _ _ _ _ _ Hplan)
      as (Hdb & _ & rows & Hrows & _).
    assert (Hidle0 : idle (db w0)).
    { destruct Hidle as [Hf Hs]. rewrite Hdb. split; simpl; assumption. }
    assert (Hrows0 : ledger_of w0 = Some rows).
    { unfold ledger_of, store_of in *. rewrite Hdb. simpl. exact Hrows. }
    unfold migrateDown in Hprior.
    destruct (migrateDown_loop_committed script migs _ _ _ _ _ Hidle0
                Hrows0 Hprior) as (_ & (rows1 & Hrows1 & Hmem) & _).
    unfold applied in *. rewrite Hrows in Hin. rewrite Hrows1.
    apply in_map_iff in Hin. destruct Hin as (r & Hr & Hinr).
    apply in_map_iff. exists r. split; [exact Hr|].
    apply Hmem. split; [exact Hinr|].
    rewrite countdown_In, Hr. lia.
Qed.

(** Forward steps are atomic on an idle connection.  In a forward run of
    [migrateTo] on a connection with no unit running and no transaction
    open, let the steps before version [v] have committed (reaching [w1])
    and let the up script of step [v] fail with [cause], leaving the
    transaction that BEGIN opened as it was.  Then [migrateTo] aborts with
    the execution error that names [v] and wraps [cause]; the store is the
    one the earlier steps left, so neither a ledger row for [v] nor any
    effect of the script persists while the earlier steps stay committed;
    and no transaction is left open. *)
Lemma migrateTo_unit_rolls_back (targetVersion : Target)
  (w w0 w1 w2 : World U) (migs : list Migration) (current target v : Z)
  (m : Migration) (sql : string) (d_in d_out : DenoDatabase.t U)
  (cause : Error) :
  idle (db w) ->
  plans migrationsPath yamlParser targetVersion w migs current target w0 ->
  current < v <= target ->
  migrateUp script current (v - 1) migs w0 = (w1, inr tt) ->
  find_version v migs = Some m ->
  resolveSql (Some (up m)) v Up w1 = (w2, inr (Some sql)) ->
  truthy sql = true ->
  begin_unit script (db w2) = (d_in, inr tt) ->
  DenoDatabase.exec script sql d_in = (d_out, inl cause) ->
  Sqlite.snapshot (DenoDatabase.db d_out)
  = Sqlite.snapshot (DenoDatabase.db d_in) ->
  exists w',
    migrateTo script migrationsPath yamlParser targetVersion w
    = (w', inl (ExecutionError Up v cause))
    /\ store_of w' = store_of w1
    /\ ~ In v (applied w')
    /\ idle (db w').
Proof.
  intros Hidle Hplan Hrange Hprior Hfind Hres Hsql Hin Hexec Hopen.
  destruct (plans_run _ _ _ _ _ _ _ _ Hplan)
    as (Hdb & _ & rows & Hrows & Hcur).
  assert (Hidle0 : idle (db w0)).
  { destruct Hidle as [Hf Hs]. rewrite Hdb. split; simpl; assumption. }
  assert (Hrows0 : ledger_of w0 = Some rows).
  { unfold ledger_of, store_of in *. rewrite Hdb. simpl. exact Hrows. }
  pose proof Hprior as Hloop. unfold migrateUp in Hloop.
  destruct (migrateUp_loop_committed script migs _ _ _ _ _ Hidle0 Hrows0
              Hloop) as (Hidle1 & (added & Hrows1 & Hadded) & _).
  assert (Hfresh : ~ In v (map row_version (rows ++ added))).
  { rewrite map_app, in_app_iff. intros [Hv|Hv].
    - apply in_map_iff in Hv. destruct Hv as (r & Hr & Hinr).
      pose proof (current_version_ge rows r Hinr). lia.
    - rewrite Hadded in Hv. apply countup_In in Hv. lia. }
  destruct (resolveSql_fs_only _ _ _ _ _ _ Hres) as (Hdb2 & _ & _).
  assert (Hidle2 : idle (db w2)) by (rewrite Hdb2; exact Hidle1).
  assert (Hfn : up_unit script v m sql (now w2) d_in = (d_out, inl cause)).
  { unfold up_unit, bind. rewrite Hexec. reflexivity. }
  destruct (transaction_rolls_back script
              (up_unit script v m sql (now w2)) (db w2) d_in d_out cause
              Hidle2 Hin Hfn Hopen)
    as (d' & Hunit & Hidle' & Hstore).
  eexists. split; [|split; [|split]].
  - rewrite (migrateTo_planned script _ _ _ _ _ _ _ _ Hplan).
    destruct (Z.eqb_spec current target); [lia|].
    destruct (Z.ltb_spec current target); [|lia].
    rewrite (migrateUp_at script migs current v target w0 w1 Hrange Hprior).
    rewrite Hfind. unfold bind.
    rewrite (apply_step_unit_failed script v m w1 w2 sql d' cause Hres
               Hsql Hunit).
    reflexivity.
  - unfold store_of. simpl. rewrite Hstore, Hdb2. reflexivity.
  - unfold applied, ledger_of, store_of in *. simpl.
    rewrite Hstore, Hdb2, Hrows1. exact Hfresh.
  - exact Hidle'.
Qed.

End Stepping.

(** ** Runs that succeed *)

Section Runs.
Context {U : Type}.
Variable script : string -> U -> U * option string.
Variable migrationsPath : string.
Variable yamlParser : string -> Error + MigrationsFile.
Import MigrationManager.

Lemma loadMigrations_validated (w w' : World U) (migs : list Migration) :
  loadMigrations migrationsPath yamlParser w = (w', inr migs) ->
  validateSequence 0 migs = inr tt.
Proof.
  unfold loadMigrations, try_catch, bind, of_result.
  destruct (readTextFile migrationsPath w) as [w1 [e|content]];
    [discriminate|].
  destruct (yamlParser content) as [e|file]; [discriminate|].
  destruct (validateSequence 0 (sort_by_version (migrations file)))
    as [e|[]] eqn:Hseq; [discriminate|].
  destruct (validateMigrationFiles _ w1) as [w2 [e|[]]]; [discriminate|].
  intro H. inversion H; subst. exact Hseq.
Qed.

(** A successful [migrateTo] went through its three first lines and then
    through the branch they select. *)
Lemma migrateTo_ok_plans (targetVersion : Target) (w w1 : World U) :
  migrateTo script migrationsPath yamlParser targetVersion w = (w1, inr tt) ->
  exists migs current target w0,
    plans migrationsPath yamlParser targetVersion w migs current target w0
    /\ (if current =? target then ret tt
        else if current <? target then
          migrateUp script current target migs
        else migrateDown script current target migs) w0 = (w1, inr tt).
Proof.
  unfold migrateTo, bind, plans.
  destruct (loadMigrations migrationsPath yamlParser w)
    as [wa [e|migs]] eqn:Ha; [discriminate|].
  destruct (getCurrentVersion wa) as [wb [e|current]] eqn:Hb;
    [discriminate|].
  destruct (resolve_target migrationsPath yamlParser targetVersion wb)
    as [w0 [e|target]] eqn:Hc; [discriminate|].
  intro H. exists migs, current, target, w0. split; [|exact H].
  exists wa, wb. auto.
Qed.

(** Every version a successful backward run went through is in the
    set. *)
Lemma migrateDown_loop_found (migs : list Migration) (n : nat) :
  forall v (w w' : World U),
    migrateDown_loop script n v migs w = (w', inr tt) ->
    forall x, In x (countdown n v) -> find_version x migs <> None.
Proof.
  induction n as [|n IH]; intros v w w' H x Hx; simpl in *.
  - destruct Hx.
  - destruct (find_version v migs) as [m|] eqn:Hfind; [|discriminate].
    unfold bind in H.
    destruct (revert_step script v m w) as [w1 [e|[]]]; [discriminate|].
    destruct Hx as [<-|Hx]; [congruence|].
    exact (IH _ _ _ H x Hx).
Qed.

(** A successful forward run on a dense ledger leaves it dense, at the
    target. *)
Lemma migrateUp_dense (migs : list Migration) (current target : Z)
  (w w' : World U) (rows : list LedgerRow) :
  idle (db w) ->
  ledger_of w = Some rows ->
  dense rows current ->
  current < target ->
  migrateUp script current target migs w = (w', inr tt) ->
  idle (db w')
  /\ (exists rows', ledger_of w' = Some rows' /\ dense rows' target)
  /\ deleted (calls_of w') = deleted (calls_of w).
Proof.
  intros Hidle Hrows [Hk Hmem] Hlt Hrun. unfold migrateUp in Hrun.
  destruct (migrateUp_loop_committed script migs _ _ _ _ _ Hidle Hrows Hrun)
    as (Hidle' & (added & Hrows' & Hadded) & Hdel).
  split; [exact Hidle'|]. split; [|exact Hdel].
  exists (rows ++ added)%list. split; [exact Hrows'|].
  split; [lia|]. intro x.
  rewrite map_app, in_app_iff, Hadded, countup_In, Hmem. lia.
Qed.

(** A successful backward run on a dense ledger, with a validated set,
    leaves the ledger dense at the target, which is not negative; the
    versions were deleted from the top down. *)
Lemma migrateDown_dense (migs : list Migration) (current target : Z)
  (w w' : World U) (rows : list LedgerRow) :
  idle (db w) ->
  ledger_of w = Some rows ->
  dense rows current ->
  validateSequence 0 migs = inr tt ->
  target < current ->
  migrateDown script current target migs w = (w', inr tt) ->
  idle (db w')
  /\ (exists rows', ledger_of w' = Some rows' /\ dense rows' target)
  /\ deleted (calls_of w')
     = (deleted (calls_of w)
        ++ countdown (Z.to_nat (current - target)) current)%list.
Proof.
  intros Hidle Hrows [Hk Hmem] Hseq Hlt Hrun. unfold migrateDown in Hrun.
  assert (Htarget : 0 <= target).
  { destruct (find_version (target + 1) migs) as [m|] eqn:Hfind.
    - pose proof (validated_find migs _ m Hseq Hfind). lia.
    - exfalso.
      apply (migrateDown_loop_found migs _ _ _ _ Hrun (target + 1));
        [|exact Hfind].
      apply countdown_In. lia. }
  destruct (migrateDown_loop_committed script migs _ _ _ _ _ Hidle Hrows
              Hrun) as (Hidle' & (rows' & Hrows' & Hin) & Hdel).
  split; [exact Hidle'|]. split; [|exact Hdel].
  exists rows'. split; [exact Hrows'|].
  split; [exact Htarget|]. intro x. split.
  - intro Hx. apply in_map_iff in Hx. destruct Hx as (r & <- & Hr).
    apply Hin in Hr. destruct Hr as [Hr Hnot].
    rewrite countdown_In in Hnot.
    pose proof (proj1 (Hmem (row_version r)) (in_map _ _ _ Hr)). lia.
  - intro Hx.
    assert (Hx' : In x (map row_version rows)) by (apply Hmem; lia).
    apply in_map_iff in Hx'. destruct Hx' as (r & <- & Hr).
    apply in_map. apply Hin. split; [exact Hr|].
    rewrite countdown_In. lia.
Qed.

(** A successful [migrateTo] on an idle connection with a dense ledger:
    the ledger is dense at [actualTarget] afterwards, the connection is
    idle, and the DELETE statements issued are those of the versions from
    the current one down to the one above the target. *)
Lemma migrateTo_ok_dense (targetVersion : Target) (w w1 : World U)
  (rows : list LedgerRow) (k : Z) :
  idle (db w) ->
  ledger_of w = Some rows ->
  dense rows k ->
  migrateTo script migrationsPath yamlParser targetVersion w = (w1, inr tt) ->
  exists migs target w0,
    plans migrationsPath yamlParser targetVersion w migs k target w0
    /\ idle (db w1)
    /\ (exists rows1, ledger_of w1 = Some rows1 /\ dense rows1 target)
    /\ deleted (calls_of w1)
       = (deleted (calls_of w) ++ countdown (Z.to_nat (k - target)) k)%list.
Proof.
  intros Hidle Hrows Hdense Hrun.
  destruct (migrateTo_ok_plans _ _ _ Hrun)
    as (migs & current & target & w0 & Hplan & Hbranch).
  destruct (plans_run _ _ _ _ _ _ _ _ Hplan)
    as (Hdb & _ & rows' & Hrows' & Hcur).
  assert (rows' = rows) by congruence. subst rows'.
  rewrite (dense_current rows k Hdense) in Hcur. subst current.
  assert (Hidle0 : idle (db w0)).
  { destruct Hidle as [Hf Hs]. rewrite Hdb. split; simpl; assumption. }
  assert (Hrows0 : ledger_of w0 = Some rows).
  { unfold ledger_of, store_of in *. rewrite Hdb. simpl. exact Hrows. }
  assert (Hdel0 : deleted (calls_of w0) = deleted (calls_of w)).
  { unfold calls_of. rewrite Hdb. reflexivity. }
  assert (Hseq : validateSequence 0 migs = inr tt).
  { destruct Hplan as (wa & _ & Hload & _).
    exact (loadMigrations_validated _ _ _ Hload). }
  exists migs, target, w0. split; [exact Hplan|].
  destruct (Z.eqb_spec k target) as [->|Hne].
  - inversion Hbranch; subst w1.
    split; [exact Hidle0|]. split; [exists rows; auto|].
    rewrite Z.sub_diag. simpl. rewrite app_nil_r. exact Hdel0.
  - destruct (Z.ltb_spec k target) as [Hlt|Hge].
    + destruct (migrateUp_dense migs k target w0 w1 rows Hidle0 Hrows0
                  Hdense Hlt Hbranch) as (H1 & H2 & H3).
      split; [exact H1|]. split; [exact H2|].
      replace (Z.to_nat (k - target)) with 0%nat by lia.
      simpl. rewrite app_nil_r. congruence.
    + assert (Hgt : target < k) by lia.
      destruct (migrateDown_dense migs k target w0 w1 rows Hidle0 Hrows0
                  Hdense Hseq Hgt Hbranch) as (H1 & H2 & H3).
      split; [exact H1|]. split; [exact H2|]. congruence.
Qed.



End Runs.

(** ** Steps that fail before or inside their unit *)

Section Edges.
Context {U : Type}.
Variable script : string -> U -> U * option string.
Variable migrationsPath : string.
Variable yamlParser : string -> Error + MigrationsFile.
Import MigrationManager.

Lemma revert_step_unit_failed (v : Z) (m : Migration) (w w2 : World U)
  (sql : string) (d' : DenoDatabase.t U) (cause : Error) :
  reversible m = true ->
  no_down m = false ->
  resolveSql (down m) v Down w = (w2, inr (Some sql)) ->
  truthy sql = true ->
  DenoDatabase.transaction script (down_unit script v sql) (db w2)
  = (d', inl cause) ->
  revert_step script v m w
  = ({| fs := fs w2; db := d'; now := now w2 |},
     inl (ExecutionError Down v cause)).
Proof.
  intros Hrev Hdown Hres Hsql Hunit.
  unfold revert_step. rewrite Hrev, Hdown. simpl.
  unfold try_catch, bind. rewrite Hres, Hsql.
  unfold on_db, zoom. rewrite Hunit. reflexivity.
Qed.

(** X1. A backward run of [migrateTo] on a connection with no unit running
    and no transaction open: when the rollback script of step [v] fails
    with [cause] and leaves the transaction that BEGIN opened as it was
    (the script did not end it itself), [migrateTo] aborts with the
    execution error for a rollback that names [v] and wraps [cause]; the
    store is the one the earlier steps of the call left, no transaction is
    left open, and the ledger still lists [v] if it did when the call
    started. *)
Theorem migrateTo_down_unit_rolls_back (targetVersion : Target)
  (w w0 w1 w2 : World U) (migs : list Migration) (current target v : Z)
  (m : Migration) (sql : string) (d_in d_out : DenoDatabase.t U)
  (cause : Error) :
  idle (db w) ->
  plans migrationsPath yamlParser targetVersion w migs current target w0 ->
  target < v <= current ->
  migrateDown script current v migs w0 = (w1, inr tt) ->
  find_version v migs = Some m ->
  reversible m = true ->
  no_down m = false ->
  resolveSql (down m) v Down w1 = (w2, inr (Some sql)) ->
  truthy sql = true ->
  begin_unit script (db w2) = (d_in, inr tt) ->
  DenoDatabase.exec script sql d_in = (d_out, inl cause) ->
  Sqlite.snapshot (DenoDatabase.db d_out)
  = Sqlite.snapshot (DenoDatabase.db d_in) ->
  exists w',
    migrateTo script migrationsPath yamlParser targetVersion w
    = (w', inl (ExecutionError Down v cause))
    /\ store_of w' = store_of w1
    /\ idle (db w')
    /\ (In v (applied w) -> In v (applied w')).
Proof.
  intros Hidle Hplan Hrange Hprior Hfind Hrev Hdown Hres Hsql Hin Hexec
    Hopen.
  destruct (plans_run _ _ _ _ _ _ _ _ Hplan)
    as (Hdb & _ & rows & Hrows & Hcur).
  assert (Hidle0 : idle (db w0)).
  { destruct Hidle as [Hf Hs]. rewrite Hdb. split; simpl; assumption. }
  assert (Hrows0 : ledger_of w0 = Some rows).
  { unfold ledger_of, store_of in *. rewrite Hdb. simpl. exact Hrows. }
  pose proof Hprior as Hloop. unfold migrateDown in Hloop.
  destruct (migrateDown_loop_committed script migs _ _ _ _ _ Hidle0 Hrows0
              Hloop) as (Hidle1 & (rows1 & Hrows1 & Hmem) & _).
  destruct (resolveSql_fs_only _ _ _ _ _ _ Hres) as (Hdb2 & _ & _).
  assert (Hidle2 : idle (db w2)) by (rewrite Hdb2; exact Hidle1).
  assert (Hfn : down_unit script v sql d_in = (d_out, inl cause)).
  { unfold down_unit, bind. rewrite Hexec. reflexivity. }
  destruct (transaction_rolls_back script (down_unit script v sql) (db w2)
              d_in d_out cause Hidle2 Hin Hfn Hopen)
    as (d' & Hunit & Hidle' & Hstore).
  eexists. split; [|split; [|split]].
  - rewrite (migrateTo_planned script _ _ _ _ _ _ _ _ Hplan).
    destruct (Z.eqb_spec current target); [lia|].
    destruct (Z.ltb_spec current target); [lia|].
    rewrite (migrateDown_at script migs current v target w0 w1 Hrange
               Hprior).
    rewrite Hfind. unfold bind.
    rewrite (revert_step_unit_failed v m w1 w2 sql d' cause Hrev Hdown
               Hres Hsql Hunit).
    reflexivity.
  - unfold store_of. simpl. rewrite Hstore, Hdb2. reflexivity.
  - exact Hidle'.
  - intro Hv. unfold applied, ledger_of, store_of in *. simpl.
    rewrite Hstore, Hdb2. rewrite Hrows in Hv.
    unfold ledger_of, store_of in Hrows1. rewrite Hrows1.
    apply in_map_iff in Hv. destruct Hv as (r & Hr & Hinr).
    apply in_map_iff. exists r. split; [exact Hr|].
    apply Hmem. split; [exact Hinr|].
    rewrite countdown_In, Hr. lia.
Qed.

(** X2. A backward step for a migration that is reversible by its flag but has
    no rollback script ([down] is null, absent or the empty string) fails
    with the no-rollback-script error, and the world is the one the
    earlier iterations left: nothing was read or executed for it. *)
Theorem migrateTo_no_rollback_script (targetVersion : Target)
  (w w0 w1 : World U) (migs : list Migration) (current target v : Z)
  (m : Migration) :
  plans migrationsPath yamlParser targetVersion w migs current target w0 ->
  target < v <= current ->
  migrateDown script current v migs w0 = (w1, inr tt) ->
  find_version v migs = Some m ->
  reversible m = true ->
  down m = None \/ down m = Some (Inline "") ->
  migrateTo script migrationsPath yamlParser targetVersion w
  = (w1, inl (NoRollbackScriptError v (name m))).
Proof.
  intros Hplan Hrange Hprior Hfind Hrev Hdown.
  rewrite (migrateTo_planned script _ _ _ _ _ _ _ _ Hplan).
  destruct (Z.eqb_spec current target); [lia|].
  destruct (Z.ltb_spec current target); [lia|].
  rewrite (migrateDown_at script migs current v target w0 w1 Hrange Hprior).
  rewrite Hfind. unfold bind, revert_step, no_down. rewrite Hrev.
  destruct Hdown as [-> | ->]; reflexivity.
Qed.

(** X3. A step whose SQL resolves to the empty string (an empty inline up
    script, or a referenced file that is empty when the step runs) fails
    with the execution error of its direction wrapping the empty-script
    error; the connection is as the earlier iterations left it, so no
    atomic unit was opened. *)
Theorem migrateTo_empty_script (targetVersion : Target)
  (w w0 w1 w2 : World U) (migs : list Migration) (current target v : Z)
  (m : Migration) :
  plans migrationsPath yamlParser targetVersion w migs current target w0 ->
  find_version v migs = Some m ->
  (current < v <= target
   /\ migrateUp script current (v - 1) migs w0 = (w1, inr tt)
   /\ resolveSql (Some (up m)) v Up w1 = (w2, inr (Some "")))
  \/ (target < v <= current
      /\ migrateDown script current v migs w0 = (w1, inr tt)
      /\ reversible m = true /\ no_down m = false
      /\ resolveSql (down m) v Down w1 = (w2, inr (Some ""))) ->
  exists d,
    migrateTo script migrationsPath yamlParser targetVersion w
    = (w2, inl (ExecutionError d v (EmptyScriptError v d)))
    /\ d = (if current <? target then Up else Down)
    /\ db w2 = db w1.
Proof.
  intros Hplan Hfind Hcase.
  rewrite (migrateTo_planned script _ _ _ _ _ _ _ _ Hplan).
  destruct Hcase as [(Hrange & Hprior & Hres)
                    |(Hrange & Hprior & Hrev & Hdown & Hres)].
  - exists Up.
    destruct (Z.eqb_spec current target); [lia|].
    destruct (Z.ltb_spec current target); [|lia].
    split; [|split; [reflexivity|]].
    + rewrite (migrateUp_at script migs current v target w0 w1 Hrange
                 Hprior).
      rewrite Hfind. unfold bind, apply_step, try_catch, bind.
      rewrite Hres. reflexivity.
    + apply (resolveSql_fs_only _ _ _ _ _ _ Hres).
  - exists Down.
    destruct (Z.eqb_spec current target); [lia|].
    destruct (Z.ltb_spec current target); [lia|].
    split; [|split; [reflexivity|]].
    + rewrite (migrateDown_at script migs current v target w0 w1 Hrange
                 Hprior).
      rewrite Hfind. unfold bind, revert_step. rewrite Hrev, Hdown. simpl.
      unfold try_catch, bind. rewrite Hres. reflexivity.
    + apply (resolveSql_fs_only _ _ _ _ _ _ Hres).
Qed.

(** X4. SQL files are read when the step runs: a forward step whose up file
    cannot be read then (whatever the pre-flight check saw) fails with
    the execution error wrapping the SQL-file error that wraps the file
    system's error, and the connection is as the earlier iterations left
    it. *)
Theorem migrateTo_sql_file_unreadable (targetVersion : Target)
  (w w0 w1 w2 : World U) (migs : list Migration) (current target v : Z)
  (m : Migration) (file : string) (e : Error) :
  plans migrationsPath yamlParser targetVersion w migs current target w0 ->
  current < v <= target ->
  migrateUp script current (v - 1) migs w0 = (w1, inr tt) ->
  find_version v migs = Some m ->
  up m = FileRef file ->
  readTextFile file w1 = (w2, inl e) ->
  migrateTo script migrationsPath yamlParser targetVersion w
  = (w2, inl (ExecutionError Up v (SqlFileError v Up e)))
  /\ e = FsError file
  /\ db w2 = db w1.
Proof.
  intros Hplan Hrange Hprior Hfind Hup Hread.
  split; [|split].
  - rewrite (migrateTo_planned script _ _ _ _ _ _ _ _ Hplan).
    destruct (Z.eqb_spec current target); [lia|].
    destruct (Z.ltb_spec current target); [|lia].
    rewrite (migrateUp_at script migs current v target w0 w1 Hrange Hprior).
    rewrite Hfind. unfold bind, apply_step, try_catch, bind, resolveSql.
    rewrite Hup. unfold try_catch, bind. rewrite Hread. reflexivity.
  - unfold readTextFile, on_fs, zoom, FileSystem.readTextFile in Hread.
    destruct (FileSystem.disk (fs w1) _ file); inversion Hread.
    reflexivity.
  - apply (readTextFile_fs_only _ _ _ _ Hread).
Qed.

(** X5. Whatever makes [loadMigrations] fail (the source cannot be read or
    parsed, the version sequence is broken, a referenced file is
    missing), the error is a load error, [migrateTo] and
    [getLatestVersion] fail with that same error, and the connection is
    untouched: the driver receives no call. *)
Theorem migrateTo_load_failure (targetVersion : Target) (w w' : World U)
  (e : Error) :
  loadMigrations migrationsPath yamlParser w = (w', inl e) ->
  (exists cause, e = LoadError cause)
  /\ migrateTo script migrationsPath yamlParser targetVersion w
     = (w', inl e)
  /\ getLatestVersion migrationsPath yamlParser w = (w', inl e)
  /\ db w' = db w.
Proof.
  intro Hload. split; [|split; [|split]].
  - unfold loadMigrations, try_catch in Hload.
    match type of Hload with
    | context [match ?body w with _ => _ end] =>
        destruct (body w) as [w1 [c|migs]]
    end; inversion Hload. eauto.
  - unfold migrateTo, bind. rewrite Hload. reflexivity.
  - unfold getLatestVersion, bind. rewrite Hload. reflexivity.
  - apply (loadMigrations_fs_only _ _ _ _ _ Hload).
Qed.

End Edges.

(** ** The ledger after any run *)

Section Ledger.
Context {U : Type}.
Variable script : string -> U -> U * option string.
Variable migrationsPath : string.
Variable yamlParser : string -> Error + MigrationsFile.
Import MigrationManager.

Lemma apply_step_failed_ledger (v : Z) (m : Migration) (w w' : World U)
  (rows : list LedgerRow) (e : Error) :
  idle (db w) ->
  ledger_of w = Some rows ->
  apply_step script v m w = (w', inl e) ->
  ledger_of w' = Some rows
  \/ exists row, row_version row = v
                 /\ ledger_of w' = Some (rows ++ [row])%list.
Proof.
  intros Hidle Hrows H.
  unfold apply_step, try_catch, bind in H.
  destruct (resolveSql (Some (up m)) v Up w) as [w1 [c|o]] eqn:E.
  - destruct (resolveSql_fs_only _ _ _ _ _ _ E) as (Hdb & _).
    inversion H; subst. left. unfold ledger_of, store_of. rewrite Hdb.
    exact Hrows.
  - destruct (resolveSql_fs_only _ _ _ _ _ _ E) as (Hdb & Hnow & _).
    assert (Hsame : ledger_of w1 = Some rows).
    { unfold ledger_of, store_of. rewrite Hdb. exact Hrows. }
    destruct o as [sql|]; [|inversion H; subst; left; exact Hsame].
    destruct (truthy sql); [|inversion H; subst; left; exact Hsame].
    unfold Date_now in H.
    destruct (on_db _ w1) as [w2 [c|[]]] eqn:E2; [|discriminate].
    inversion H; subst w2; clear H.
    apply on_db_run in E2. destruct E2 as (d' & Hd & ->).
    rewrite Hdb in Hd.
    destruct (up_unit_failed_ledger script v m sql _ (db w) d' rows c
                Hidle Hrows Hd) as [Hl|[_ Hl]].
    + left. exact Hl.
    + right. eexists. split; [|exact Hl]. reflexivity.
Qed.

Lemma revert_step_failed_ledger (v : Z) (m : Migration) (w w' : World U)
  (rows : list LedgerRow) (e : Error) :
  idle (db w) ->
  ledger_of w = Some rows ->
  revert_step script v m w = (w', inl e) ->
  ledger_of w' = Some rows
  \/ ledger_of w' = Some (filter (fun r => negb (row_version r =? v)) rows).
Proof.
  intros Hidle Hrows H.
  unfold revert_step in H.
  destruct (negb (reversible m)); [inversion H; subst; left; exact Hrows|].
  destruct (no_down m); [inversion H; subst; left; exact Hrows|].
  unfold try_catch, bind in H.
  destruct (resolveSql (down m) v Down w) as [w1 [c|o]] eqn:E.
  - destruct (resolveSql_fs_only _ _ _ _ _ _ E) as (Hdb & _).
    inversion H; subst. left. unfold ledger_of, store_of. rewrite Hdb.
    exact Hrows.
  - destruct (resolveSql_fs_only _ _ _ _ _ _ E) as (Hdb & Hnow & _).
    assert (Hsame : ledger_of w1 = Some rows).
    { unfold ledger_of, store_of. rewrite Hdb. exact Hrows. }
    destruct o as [sql|]; [|inversion H; subst; left; exact Hsame].
    destruct (truthy sql); [|inversion H; subst; left; exact Hsame].
    destruct (on_db _ w1) as [w2 [c|[]]] eqn:E2; [|discriminate].
    inversion H; subst w2; clear H.
    apply on_db_run in E2. destruct E2 as (d' & Hd & ->).
    rewrite Hdb in Hd.
    exact (down_unit_failed_ledger script v sql (db w) d' rows c
             Hidle Hrows Hd).
Qed.

(** Whatever the outcome of the forward loop, the ledger has gained the
    rows of the first [j] versions of the run, and all of them on
    success. *)
Lemma migrateUp_loop_ledger (migs : list Migration) (n : nat) :
  forall v (w w' : World U) rows r,
    idle (db w) ->
    ledger_of w = Some rows ->
    migrateUp_loop script n v migs w = (w', r) ->
    exists j added,
      (j <= n)%nat
      /\ ledger_of w' = Some (rows ++ added)%list
      /\ map row_version added = countup j v
      /\ (r = inr tt -> j = n).
Proof.
  induction n as [|n IH]; intros v w w' rows r Hidle Hrows H; simpl in H.
  - inversion H; subst. exists 0%nat, []. rewrite app_nil_r. auto.
  - destruct (find_version v migs) as [m|].
    + unfold bind in H.
      destruct (apply_step script v m w) as [w1 [e|[]]] eqn:E.
      * inversion H; subst.
        destruct (apply_step_failed_ledger v m w w' rows e Hidle Hrows E)
          as [Hl|(row & Hv & Hl)].
        -- exists 0%nat, []. rewrite app_nil_r.
           repeat split; [lia | exact Hl | discriminate].
        -- exists 1%nat, [row]. simpl. rewrite Hv.
           repeat split; [lia | exact Hl | discriminate].
      * destruct (apply_step_committed script v m w w1 rows Hidle Hrows E)
          as (Hidle1 & Hrows1 & _).
        destruct (IH _ _ _ _ _ Hidle1 Hrows1 H)
          as (j & added & Hj & Hl & Hadded & Hok).
        exists (S j). eexists (_ :: added).
        split; [lia|]. split; [|split].
        -- rewrite Hl, <- app_assoc. reflexivity.
        -- simpl. rewrite Hadded. reflexivity.
        -- intro Hr. rewrite (Hok Hr). reflexivity.
    + inversion H; subst. exists 0%nat, []. rewrite app_nil_r.
      repeat split; [lia | exact Hrows | discriminate].
Qed.

(** Whatever the outcome of the backward loop, the ledger has lost the
    rows of the first [j] versions of the run (all of them on success),
    and each of these versions is in the set. *)
Lemma migrateDown_loop_ledger (migs : list Migration) (n : nat) :
  forall v (w w' : World U) rows r,
    idle (db w) ->
    ledger_of w = Some rows ->
    migrateDown_loop script n v migs w = (w', r) ->
    exists j rows',
      (j <= n)%nat
      /\ ledger_of w' = Some rows'
      /\ (forall x, In x rows'
                    <-> In x rows /\ ~ In (row_version x) (countdown j v))
      /\ (forall x, In x (countdown j v) -> find_version x migs <> None)
      /\ (r = inr tt -> j = n).
Proof.
  induction n as [|n IH]; intros v w w' rows r Hidle Hrows H; simpl in H.
  - inversion H; subst. exists 0%nat, rows.
    split; [lia|]. split; [exact Hrows|].
    split; [apply without_none|]. split; [intros x []|reflexivity].
  - destruct (find_version v migs) as [m|] eqn:Hfind.
    + unfold bind in H.
      destruct (revert_step script v m w) as [w1 [e|[]]] eqn:E.
      * inversion H; subst.
        destruct (revert_step_failed_ledger v m w w' rows e Hidle Hrows E)
          as [Hl|Hl].
        -- exists 0%nat, rows. split; [lia|]. split; [exact Hl|].
           split; [apply without_none|].
           split; [intros x []|discriminate].
        -- exists 1%nat. eexists. split; [lia|]. split; [exact Hl|].
           split; [apply without_one|]. split; [|discriminate].
           intros x [<-|[]]. congruence.
      * destruct (revert_step_committed script v m w w1 rows Hidle Hrows E)
          as (Hidle1 & Hrows1 & _).
        destruct (IH _ _ _ _ _ Hidle1 Hrows1 H)
          as (j & rows' & Hj & Hl & Hmem & Hfound & Hok).
        exists (S j), rows'. split; [lia|]. split; [exact Hl|].
        split; [|split].
        -- apply without_more. exact Hmem.
        -- intros x [<-|Hx]; [congruence | exact (Hfound x Hx)].
        -- intro Hr. rewrite (Hok Hr). reflexivity.
    + inversion H; subst. exists 0%nat, rows.
      split; [lia|]. split; [exact Hrows|].
      split; [apply without_none|]. split; [intros x []|discriminate].
Qed.

Lemma plans_unique (targetVersion : Target) (w w1 w2 : World U)
  (migs1 migs2 : list Migration) (c1 c2 t1 t2 : Z) :
  plans migrationsPath yamlParser targetVersion w migs1 c1 t1 w1 ->
  plans migrationsPath yamlParser targetVersion w migs2 c2 t2 w2 ->
  migs1 = migs2 /\ c1 = c2 /\ t1 = t2 /\ w1 = w2.
Proof.
  intros (wa & wb & Ha & Hb & Hc) (wa' & wb' & Ha' & Hb' & Hc').
  rewrite Ha in Ha'. inversion Ha'; subst wa' migs2.
  rewrite Hb in Hb'. inversion Hb'; subst wb' c2.
  rewrite Hc in Hc'. inversion Hc'; subst. auto.
Qed.

(** Every version a successful forward run went through is in the
    set. *)
Lemma migrateUp_loop_found (migs : list Migration) (n : nat) :
  forall v (w w' : World U),
    migrateUp_loop script n v migs w = (w', inr tt) ->
    forall x, In x (countup n v) -> find_version x migs <> None.
Proof.
  induction n as [|n IH]; intros v w w' H x Hx; simpl in *.
  - destruct Hx.
  - destruct (find_version v migs) as [m|] eqn:Hfind; [|discriminate].
    unfold bind in H.
    destruct (apply_step script v m w) as [w1 [e|[]]]; [discriminate|].
    destruct Hx as [<-|Hx]; [congruence|].
    exact (IH _ _ _ H x Hx).
Qed.

(** X6. [migrateTo] never leaves a hole in the ledger.  Called with an
    integer target or "latest" on an idle connection whose ledger lists
    the versions 1..k, it leaves a ledger that lists the versions 1..j,
    whatever its outcome; when the call got as far as stepping, [j] lies
    between [k] and [actualTarget], and [j] is [actualTarget] when the
    call succeeds. *)
Theorem migrateTo_keeps_dense (targetVersion : Target) (w w' : World U)
  (rows : list LedgerRow) (k : Z) (r : Error + unit) :
  idle (db w) ->
  ledger_of w = Some rows ->
  dense rows k ->
  migrateTo script migrationsPath yamlParser targetVersion w = (w', r) ->
  exists rows' j,
    ledger_of w' = Some rows'
    /\ dense rows' j
    /\ (forall migs current target w0,
          plans migrationsPath yamlParser targetVersion w migs current
            target w0 ->
          Z.min k target <= j <= Z.max k target
          /\ (r = inr tt -> j = target)).
Proof.
  intros Hidle Hrows Hdense Hrun.
  assert (Hstay : forall w1 : World U,
            ledger_of w1 = Some rows ->
            (forall migs current target w0,
               ~ plans migrationsPath yamlParser targetVersion w migs
                   current target w0) ->
            exists rows' j,
              ledger_of w1 = Some rows' /\ dense rows' j
              /\ (forall migs current target w0,
                    plans migrationsPath yamlParser targetVersion w migs
                      current target w0 ->
                    Z.min k target <= j <= Z.max k target
                    /\ (r = inr tt -> j = target))).
  { intros w1 Hl Hno. exists rows, k. split; [exact Hl|].
    split; [exact Hdense|]. intros migs c t w0 Hp.
    exfalso. exact (Hno _ _ _ _ Hp). }
  unfold migrateTo, bind in Hrun.
  destruct (loadMigrations migrationsPath yamlParser w) as [wa [e|migs]]
    eqn:Ha.
  { inversion Hrun; subst. apply Hstay.
    - unfold ledger_of, store_of.
      rewrite (proj1 (loadMigrations_fs_only _ _ _ _ _ Ha)). exact Hrows.
    - intros migs c t w0 (wa' & wb' & Ha' & _). congruence. }
  destruct (loadMigrations_fs_only _ _ _ _ _ Ha) as (Hdba & _).
  destruct (getCurrentVersion wa) as [wb rb] eqn:Hb.
  pose proof (getCurrentVersion_run _ _ _ Hb)
    as (_ & _ & Hflagb & Hstoreb & Hsnapb & _ & Hrb).
  assert (Hrowsa : ledger_of wa = Some rows).
  { unfold ledger_of, store_of. rewrite Hdba. exact Hrows. }
  rewrite Hrowsa, (dense_current rows k Hdense) in Hrb. subst rb.
  assert (Hrowsb : ledger_of wb = Some rows).
  { unfold ledger_of. rewrite Hstoreb. exact Hrowsa. }
  assert (Hidleb : idle (db wb)).
  { destruct Hidle as [Hf Hs]. split.
    - rewrite Hflagb, Hdba. exact Hf.
    - rewrite Hsnapb, Hdba. exact Hs. }
  destruct (resolve_target migrationsPath yamlParser targetVersion wb)
    as [w0 [e|target]] eqn:Hc.
  { inversion Hrun; subst. apply Hstay.
    - assert (Hfs : fs_only wb w').
      { destruct targetVersion; simpl in Hc.
        - exact (getLatestVersion_fs_only _ _ _ _ _ Hc).
        - inversion Hc. }
      unfold ledger_of, store_of. rewrite (proj1 Hfs). exact Hrowsb.
    - intros migs' c t w0 (wa' & wb' & Ha' & Hb' & Hc').
      rewrite Ha in Ha'. inversion Ha'; subst.
      rewrite Hb in Hb'. inversion Hb'; subst. congruence. }
  assert (Hplan : plans migrationsPath yamlParser targetVersion w migs k
                    target w0).
  { exists wa, wb. auto. }
  assert (Hfs0 : fs_only wb w0).
  { destruct targetVersion; simpl in Hc.
    - exact (getLatestVersion_fs_only _ _ _ _ _ Hc).
    - inversion Hc. apply fs_only_refl. }
  assert (Hrows0 : ledger_of w0 = Some rows).
  { unfold ledger_of, store_of. rewrite (proj1 Hfs0). exact Hrowsb. }
  assert (Hidle0 : idle (db w0)) by (rewrite (proj1 Hfs0); exact Hidleb).
  assert (Hseq : validateSequence 0 migs = inr tt)
    by exact (loadMigrations_validated _ _ _ _ _ Ha).
  assert (Hgoal : exists rows' j,
            ledger_of w' = Some rows' /\ dense rows' j
            /\ Z.min k target <= j <= Z.max k target
            /\ (r = inr tt -> j = target)).
  { destruct Hdense as [Hk Hmem].
    destruct (Z.eqb_spec k target) as [->|Hne].
    - inversion Hrun; subst. exists rows, target.
      split; [exact Hrows0|]. split; [split; assumption|]. split; [lia|auto].
    - destruct (Z.ltb_spec k target) as [Hlt|Hge].
      + unfold migrateUp in Hrun.
        destruct (migrateUp_loop_ledger migs _ _ _ _ _ _ Hidle0 Hrows0 Hrun)
          as (j & added & Hj & Hl & Hadded & Hok).
        exists (rows ++ added)%list, (k + Z.of_nat j).
        split; [exact Hl|]. split; [|split; [lia|]].
        * split; [lia|]. intro x.
          rewrite map_app, in_app_iff, Hadded, countup_In, Hmem. lia.
        * intro Hr. rewrite (Hok Hr). lia.
      + unfold migrateDown in Hrun.
        destruct (migrateDown_loop_ledger migs _ _ _ _ _ _ Hidle0 Hrows0
                    Hrun) as (j & rows' & Hj & Hl & Hin & Hfound & Hok).
        assert (Hlow : 0 <= k - Z.of_nat j).
        { destruct j as [|j]; [lia|].
          destruct (find_version (k - Z.of_nat (S j) + 1) migs) as [m|]
            eqn:Hfind.
          - pose proof (validated_find migs _ m Hseq Hfind). lia.
          - exfalso. apply (Hfound (k - Z.of_nat (S j) + 1));
              [|exact Hfind].
            apply countdown_In. lia. }
        exists rows', (k - Z.of_nat j).
        split; [exact Hl|]. split; [|split; [lia|]].
        * split; [exact Hlow|]. intro x. split.
          -- intro Hx. apply in_map_iff in Hx.
             destruct Hx as (y & <- & Hy). apply Hin in Hy.
             destruct Hy as [Hy Hnot]. rewrite countdown_In in Hnot.
             pose proof (proj1 (Hmem (row_version y)) (in_map _ _ _ Hy)).
             lia.
          -- intro Hx.
             assert (Hx' : In x (map row_version rows))
               by (apply Hmem; lia).
             apply in_map_iff in Hx'. destruct Hx' as (y & <- & Hy).
             apply in_map. apply Hin. split; [exact Hy|].
             rewrite countdown_In. lia.
        * intro Hr. rewrite (Hok Hr). lia. }
  destruct Hgoal as (rows' & j & Hl & Hd & Hbounds & Hok).
  exists rows', j. split; [exact Hl|]. split; [exact Hd|].
  intros migs' c t w0' Hp.
  destruct (plans_unique _ _ _ _ _ _ _ _ _ _ Hplan Hp) as (_ & _ & <- & _).
  split; assumption.
Qed.

(** X7. On success the database is at [actualTarget]: after a successful
    [migrateTo] with an integer target or "latest" on an idle connection
    whose ledger lists the versions 1..k, [getCurrentVersion] returns
    [actualTarget]; and when the call had steps to take, the version it
    started from and the target both lie within 0..N, where N is the
    number of migrations loaded. *)
Theorem migrateTo_reaches_target (targetVersion : Target) (w w' : World U)
  (rows : list LedgerRow) (k : Z) :
  idle (db w) ->
  ledger_of w = Some rows ->
  dense rows k ->
  migrateTo script migrationsPath yamlParser targetVersion w = (w', inr tt) ->
  exists migs target w0 w'',
    plans migrationsPath yamlParser targetVersion w migs k target w0
    /\ getCurrentVersion w' = (w'', inr target)
    /\ (k <> target ->
        0 <= target <= Z.of_nat (List.length migs)
        /\ 0 <= k <= Z.of_nat (List.length migs)).
Proof.
  intros Hidle Hrows Hdense Hrun.
  destruct (migrateTo_ok_dense script migrationsPath yamlParser
              targetVersion w w' rows k Hidle Hrows Hdense Hrun)
    as (migs & target & w0 & Hplan & _ & (rows1 & Hrows1 & Hdense1) & _).
  destruct (getCurrentVersion w') as [w'' rc] eqn:Hcur.
  pose proof (getCurrentVersion_run _ _ _ Hcur) as (_ & _ & _ & _ & _ & _ & Hrc).
  rewrite Hrows1, (dense_current rows1 target Hdense1) in Hrc. subst rc.
  exists migs, target, w0, w''. split; [exact Hplan|].
  split; [reflexivity|]. intro Hne.
  pose proof Hrun as Hrun'.
  rewrite (migrateTo_planned script _ _ _ _ _ _ _ _ Hplan) in Hrun'.
  assert (Hseq : validateSequence 0 migs = inr tt).
  { destruct Hplan as (wa & _ & Hload & _).
    exact (loadMigrations_validated _ _ _ _ _ Hload). }
  destruct Hdense as [Hk _]. destruct Hdense1 as [Ht _].
  destruct (Z.eqb_spec k target); [contradiction|].
  destruct (Z.ltb_spec k target) as [Hlt|Hge].
  - unfold migrateUp in Hrun'.
    destruct (find_version target migs) as [m|] eqn:Hfind.
    + pose proof (validated_find migs _ m Hseq Hfind). lia.
    + exfalso.
      apply (migrateUp_loop_found migs _ _ _ _ Hrun' target);
        [|exact Hfind].
      apply countup_In. lia.
  - unfold migrateDown in Hrun'.
    destruct (find_version k migs) as [m|] eqn:Hfind.
    + pose proof (validated_find migs _ m Hseq Hfind). lia.
    + exfalso.
      apply (migrateDown_loop_found script migs _ _ _ _ Hrun' k);
        [|exact Hfind].
      apply countdown_In. lia.
Qed.

End Ledger.

(** ** What the steps do to the data *)

Section Effects.
Context {U : Type}.
Variable script : string -> U -> U * option string.
Variable migrationsPath : string.
Variable yamlParser : string -> Error + MigrationsFile.
Import MigrationManager.

Ltac effect_unfold H :=
  unfold DenoDatabase.transaction, begin_unit, up_unit, down_unit,
    DenoDatabase.exec,
    DenoDatabase.run_insert, DenoDatabase.run_delete, DenoDatabase.on_db,
    DenoDatabase.set_inTransaction,
    Sqlite.exec, Sqlite.insert, Sqlite.delete, bind, try_catch, zoom,
    modify, ret, throw in H;
  simpl in H.

Ltac effect_step H :=
  match type of H with
  | context [Sqlite.classify ?s] => destruct (Sqlite.classify s) eqn:?
  | context [script ?s ?u] => destruct (script s u) as [? [?|]] eqn:?
  | context [Sqlite.has_version ?v ?l] =>
      destruct (Sqlite.has_version v l) eqn:?
  end; simpl in H.

Lemma up_unit_effect (v : Z) (m : Migration) (sql : string) (ts : Z)
  (d d' : DenoDatabase.t U) :
  idle d ->
  DenoDatabase.transaction script (up_unit script v m sql ts) d
  = (d', inr tt) ->
  Sqlite.user (Sqlite.store (DenoDatabase.db d'))
  = run_script script sql (Sqlite.user (Sqlite.store (DenoDatabase.db d))).
Proof.
  intros [Hflag Hsnap] H.
  destruct d as [[[[rows|] u] snap cs] flag]; simpl in *; subst;
    unfold run_script.
  all: effect_unfold H.
  all: repeat effect_step H.
  all: try discriminate.
  all: inversion H; subst; clear H; simpl.
  all: reflexivity.
Qed.

Lemma down_unit_effect (v : Z) (sql : string) (d d' : DenoDatabase.t U) :
  idle d ->
  DenoDatabase.transaction script (down_unit script v sql) d
  = (d', inr tt) ->
  Sqlite.user (Sqlite.store (DenoDatabase.db d'))
  = run_script script sql (Sqlite.user (Sqlite.store (DenoDatabase.db d))).
Proof.
  intros [Hflag Hsnap] H.
  destruct d as [[[[rows|] u] snap cs] flag]; simpl in *; subst;
    unfold run_script.
  all: effect_unfold H.
  all: repeat effect_step H.
  all: try discriminate.
  all: inversion H; subst; clear H; simpl.
  all: reflexivity.
Qed.

Lemma resolveSql_text (source : SqlSource) (v : Z) (d : Direction)
  (w w1 : World U) (sql : string) :
  resolveSql (Some source) v d w = (w1, inr (Some sql)) ->
  text_of w source sql.
Proof.
  destruct source as [text|file]; simpl.
  - unfold ret. intro H. inversion H. reflexivity.
  - unfold try_catch, bind, readTextFile, on_fs, zoom,
      FileSystem.readTextFile.
    destruct (FileSystem.disk (fs w) (List.length (FileSystem.reads (fs w)))
                file) as [content|] eqn:E; simpl.
    + intro H. inversion H; subst. eexists. exact E.
    + discriminate.
Qed.

Lemma apply_step_effect (v : Z) (m : Migration) (w w' : World U) :
  idle (db w) ->
  apply_step script v m w = (w', inr tt) ->
  exists sql,
    text_of w (up m) sql
    /\ truthy sql = true
    /\ Sqlite.user (store_of w')
       = run_script script sql (Sqlite.user (store_of w)).
Proof.
  intros Hidle H.
  unfold apply_step, try_catch, bind in H.
  destruct (resolveSql (Some (up m)) v Up w) as [w1 [e|[sql|]]] eqn:E;
    simpl in H; try discriminate.
  destruct (resolveSql_fs_only _ _ _ _ _ _ E) as (Hdb & Hnow & _).
  destruct (truthy sql) eqn:Hsql; [|discriminate].
  unfold Date_now in H.
  destruct (on_db _ w1) as [w2 [e|[]]] eqn:E2; [discriminate|].
  inversion H; subst w2; clear H.
  apply on_db_run in E2. destruct E2 as (d' & Hd & ->).
  rewrite Hdb in Hd.
  exists sql. split; [exact (resolveSql_text _ _ _ _ _ _ E)|].
  split; [exact Hsql|].
  unfold store_of. simpl.
  exact (up_unit_effect _ _ _ _ _ _ Hidle Hd).
Qed.

Lemma revert_step_effect (v : Z) (m : Migration) (w w' : World U) :
  idle (db w) ->
  revert_step script v m w = (w', inr tt) ->
  reversible m = true
  /\ exists source sql,
       down m = Some source
       /\ text_of w source sql
       /\ truthy sql = true
       /\ Sqlite.user (store_of w')
          = run_script script sql (Sqlite.user (store_of w)).
Proof.
  intros Hidle H.
  unfold revert_step in H.
  destruct (reversible m); simpl in H; [|discriminate].
  split; [reflexivity|].
  destruct (no_down m); [discriminate|].
  unfold try_catch, bind in H.
  destruct (down m) as [source|] eqn:Hdown.
  - destruct (resolveSql (Some source) v Down w) as [w1 [e|[sql|]]] eqn:E;
      simpl in H; try discriminate.
    destruct (resolveSql_fs_only _ _ _ _ _ _ E) as (Hdb & Hnow & _).
    destruct (truthy sql) eqn:Hsql; [|discriminate].
    destruct (on_db _ w1) as [w2 [e|[]]] eqn:E2; [discriminate|].
    inversion H; subst w2; clear H.
    apply on_db_run in E2. destruct E2 as (d' & Hd & ->).
    rewrite Hdb in Hd.
    exists source, sql. split; [reflexivity|].
    split; [exact (resolveSql_text _ _ _ _ _ _ E)|].
    split; [exact Hsql|].
    unfold store_of. simpl.
    exact (down_unit_effect _ _ _ _ Hidle Hd).
  - simpl in H. discriminate.
Qed.

Lemma find_version_found (v : Z) (migs : list Migration) (m : Migration) :
  find_version v migs = Some m -> In m migs /\ version m = v.
Proof.
  unfold find_version. intro H. apply find_some in H.
  destruct H as [Hin Hv]. split; [exact Hin|]. apply Z.eqb_eq. exact Hv.
Qed.

Lemma text_of_same_disk (w w' : World U) (source : SqlSource)
  (sql : string) :
  FileSystem.disk (fs w') = FileSystem.disk (fs w) ->
  text_of w' source sql -> text_of w source sql.
Proof.
  intros Hdisk. destruct source as [text|file]; simpl; [auto|].
  rewrite Hdisk. auto.
Qed.

Lemma migrateUp_loop_effect (migs : list Migration) (n : nat) :
  forall v (w w' : World U) rows,
    idle (db w) ->
    ledger_of w = Some rows ->
    migrateUp_loop script n v migs w = (w', inr tt) ->
    exists steps : list (Migration * string),
      map (fun s => version (fst s)) steps = countup n v
      /\ (forall s, In s steps ->
            In (fst s) migs
            /\ text_of w (up (fst s)) (snd s)
            /\ truthy (snd s) = true)
      /\ ledger_of w'
         = Some (rows ++ map (fun s => row_of (now w) (fst s)) steps)%list
      /\ Sqlite.user (store_of w')
         = fold_left (fun u s => run_script script (snd s) u) steps
             (Sqlite.user (store_of w)).
Proof.
  induction n as [|n IH]; intros v w w' rows Hidle Hrows H; simpl in H.
  - inversion H; subst. exists []. simpl. rewrite app_nil_r.
    split; [reflexivity|]. split; [intros s []|]. split; [exact Hrows|].
    reflexivity.
  - destruct (find_version v migs) as [m|] eqn:Hfind; [|discriminate].
    destruct (find_version_found _ _ _ Hfind) as [Hin Hv].
    unfold bind in H.
    destruct (apply_step script v m w) as [w1 [e|[]]] eqn:E;
      [discriminate|].
    destruct (apply_step_committed script v m w w1 rows Hidle Hrows E)
      as (Hidle1 & Hrows1 & _).
    destruct (apply_step_effect v m w w1 Hidle E)
      as (sql & Htext & Hsql & Huser).
    destruct (apply_step_steady script v m _ _ _ E) as [[Hnow Hdisk] _].
    destruct (IH _ _ _ _ Hidle1 Hrows1 H)
      as (steps & Hvs & Hsteps & Hledger & Huser').
    exists ((m, sql) :: steps). simpl.
    split; [rewrite Hv, Hvs; reflexivity|]. split; [|split].
    + intros s [<-|Hs]; simpl; [auto|].
      destruct (Hsteps s Hs) as (H1 & H2 & H3).
      split; [exact H1|]. split; [|exact H3].
      exact (text_of_same_disk _ _ _ _ Hdisk H2).
    + rewrite Hledger, Hnow, <- app_assoc. simpl.
      unfold row_of at 2. rewrite Hv. reflexivity.
    + rewrite Huser', Huser. reflexivity.
Qed.

Lemma migrateDown_loop_effect (migs : list Migration) (n : nat) :
  forall v (w w' : World U) rows,
    idle (db w) ->
    ledger_of w = Some rows ->
    migrateDown_loop script n v migs w = (w', inr tt) ->
    exists steps : list (Migration * string),
      map (fun s => version (fst s)) steps = countdown n v
      /\ (forall s, In s steps ->
            In (fst s) migs
            /\ reversible (fst s) = true
            /\ (exists source,
                  down (fst s) = Some source
                  /\ text_of w source (snd s))
            /\ truthy (snd s) = true)
      /\ Sqlite.user (store_of w')
         = fold_left (fun u s => run_script script (snd s) u) steps
             (Sqlite.user (store_of w)).
Proof.
  induction n as [|n IH]; intros v w w' rows Hidle Hrows H; simpl in H.
  - inversion H; subst. exists []. simpl.
    split; [reflexivity|]. split; [intros s []|reflexivity].
  - destruct (find_version v migs) as [m|] eqn:Hfind; [|discriminate].
    destruct (find_version_found _ _ _ Hfind) as [Hin Hv].
    unfold bind in H.
    destruct (revert_step script v m w) as [w1 [e|[]]] eqn:E;
      [discriminate|].
    destruct (revert_step_committed script v m w w1 rows Hidle Hrows E)
      as (Hidle1 & Hrows1 & _).
    destruct (revert_step_effect v m w w1 Hidle E)
      as (Hrev & source & sql & Hdown & Htext & Hsql & Huser).
    destruct (revert_step_steady script v m _ _ _ E) as [[Hnow Hdisk] _].
    destruct (IH _ _ _ _ Hidle1 Hrows1 H)
      as (steps & Hvs & Hsteps & Huser').
    exists ((m, sql) :: steps). simpl.
    split; [rewrite Hv, Hvs; reflexivity|]. split.
    + intros s [<-|Hs]; simpl.
      * split; [exact Hin|]. split; [exact Hrev|].
        split; [exists source; auto | exact Hsql].
      * destruct (Hsteps s Hs) as (H1 & H2 & (src & H3 & H4) & H5).
        split; [exact H1|]. split; [exact H2|]. split; [|exact H5].
        exists src. split; [exact H3|].
        exact (text_of_same_disk _ _ _ _ Hdisk H4).
    + rewrite Huser', Huser. reflexivity.
Qed.

Lemma plans_start (targetVersion : Target) (w w0 : World U)
  (migs : list Migration) (current target : Z) (rows : list LedgerRow) :
  idle (db w) ->
  ledger_of w = Some rows ->
  plans migrationsPath yamlParser targetVersion w migs current target w0 ->
  idle (db w0)
  /\ ledger_of w0 = Some rows
  /\ Sqlite.user (store_of w0) = Sqlite.user (store_of w)
  /\ now w0 = now w
  /\ FileSystem.disk (fs w0) = FileSystem.disk (fs w).
Proof.
  intros [Hf Hs] Hrows Hplan.
  destruct (plans_run _ _ _ _ _ _ _ _ Hplan) as (Hdb & [Hnow Hdisk] & _).
  unfold idle, ledger_of, store_of in *. rewrite Hdb. simpl. auto.
Qed.

(** X8. A successful forward [migrateTo] on an idle connection leaves the
    user data as running the up scripts of the versions current+1, ...,
    target leaves it, each once and in ascending order: the scripts are
    those of the migrations of the loaded set (the inline text, or what
    the file held when it was read), and the ledger gains one row for
    each, in that order, with the migration's version, name and
    description.  (Nothing is said of the time recorded in the rows.) *)
Theorem migrateTo_forward_effect (targetVersion : Target)
  (w w0 w' : World U) (migs : list Migration) (current target : Z)
  (rows : list LedgerRow) :
  idle (db w) ->
  ledger_of w = Some rows ->
  plans migrationsPath yamlParser targetVersion w migs current target w0 ->
  current < target ->
  migrateTo script migrationsPath yamlParser targetVersion w = (w', inr tt) ->
  exists (steps : list (Migration * string)) (added : list LedgerRow),
    map (fun s => version (fst s)) steps
    = countup (Z.to_nat (target - current)) (current + 1)
    /\ (forall s, In s steps ->
          In (fst s) migs
          /\ text_of w (up (fst s)) (snd s)
          /\ truthy (snd s) = true)
    /\ ledger_of w' = Some (rows ++ added)%list
    /\ map (fun r => (row_version r, row_name r, row_description r)) added
       = map (fun s => (version (fst s), name (fst s),
                        description (fst s))) steps
    /\ Sqlite.user (store_of w')
       = fold_left (fun u s => run_script script (snd s) u) steps
           (Sqlite.user (store_of w)).
Proof.
  intros Hidle Hrows Hplan Hlt Hrun.
  rewrite (migrateTo_planned script _ _ _ _ _ _ _ _ Hplan) in Hrun.
  destruct (Z.eqb_spec current target) as [Heq|_]; [lia|].
  destruct (Z.ltb_spec current target) as [_|Hge]; [|lia].
  destruct (plans_start _ _ _ _ _ _ _ Hidle Hrows Hplan)
    as (Hidle0 & Hrows0 & Huser0 & Hnow0 & Hdisk0).
  unfold migrateUp in Hrun.
  destruct (migrateUp_loop_effect _ _ _ _ _ _ Hidle0 Hrows0 Hrun)
    as (steps & Hvs & Hsteps & Hledger & Huser).
  exists steps, (map (fun s => row_of (now w0) (fst s)) steps).
  split; [exact Hvs|]. split; [|split; [|split]].
  - intros s Hs. destruct (Hsteps s Hs) as (H1 & H2 & H3).
    split; [exact H1|]. split; [|exact H3].
    exact (text_of_same_disk _ _ _ _ Hdisk0 H2).
  - exact Hledger.
  - rewrite map_map. apply map_ext. intro s. reflexivity.
  - rewrite Huser, Huser0. reflexivity.
Qed.


End Effects.

(** ** What [loadMigrations] returns *)

Section Loading.
Context {U : Type}.
Variable migrationsPath : string.
Variable yamlParser : string -> Error + MigrationsFile.
Import MigrationManager.

Lemma insert_by_version_perm (m : Migration) (l : list Migration) :
  Permutation (insert_by_version m l) (m :: l).
Proof.
  induction l as [|x l IH]; simpl.
  - apply Permutation_refl.
  - destruct (version m <=? version x).
    + apply Permutation_refl.
    + apply perm_trans with (x :: m :: l).
      * apply perm_skip. exact IH.
      * apply perm_swap.
Qed.

Lemma sort_by_version_perm (l : list Migration) :
  Permutation (sort_by_version l) l.
Proof.
  induction l as [|m l IH]; simpl.
  - apply perm_nil.
  - apply perm_trans with (m :: sort_by_version l).
    + apply insert_by_version_perm.
    + apply perm_skip. exact IH.
Qed.

Lemma insert_by_version_sorted (m : Migration) (l : list Migration) :
  StronglySorted (fun a b => version a <= version b) l ->
  StronglySorted (fun a b => version a <= version b)
    (insert_by_version m l).
Proof.
  induction 1 as [|x l Hs IH Hall]; simpl.
  - constructor; constructor.
  - destruct (Z.leb_spec (version m) (version x)) as [Hle|Hgt].
    + constructor; [constructor; assumption|].
      constructor; [exact Hle|].
      rewrite Forall_forall in *. intros y Hy.
      specialize (Hall y Hy). simpl in *. lia.
    + constructor; [exact IH|].
      rewrite Forall_forall in *. intros y Hy.
      apply (Permutation_in _ (insert_by_version_perm m l)) in Hy.
      destruct Hy as [<-|Hy]; [lia | exact (Hall y Hy)].
Qed.

Lemma sort_by_version_sorted (l : list Migration) :
  StronglySorted (fun a b => version a <= version b) (sort_by_version l).
Proof.
  induction l as [|m l IH]; simpl.
  - constructor.
  - apply insert_by_version_sorted. exact IH.
Qed.

(** A list in ascending order and a list in strictly ascending order
    with the same elements are the same list. *)
Lemma sorted_unique (l1 : list Migration) : forall l2,
  StronglySorted (fun a b => version a <= version b) l1 ->
  StronglySorted (fun a b => version a < version b) l2 ->
  Permutation l1 l2 ->
  l1 = l2.
Proof.
  induction l1 as [|h1 t1 IH]; intros l2 H1 H2 Hperm.
  - apply Permutation_nil in Hperm. symmetry. exact Hperm.
  - destruct l2 as [|h2 t2].
    + apply Permutation_sym, Permutation_nil in Hperm. discriminate.
    + inversion H1 as [|? ? Hs1 Hall1]; subst.
      inversion H2 as [|? ? Hs2 Hall2]; subst.
      rewrite Forall_forall in Hall1, Hall2.
      assert (Hh : h1 = h2).
      { assert (Hin1 : In h1 (h2 :: t2))
          by (apply (Permutation_in _ Hperm); left; reflexivity).
        assert (Hin2 : In h2 (h1 :: t1))
          by (apply (Permutation_in _ (Permutation_sym Hperm)); left;
              reflexivity).
        destruct Hin1 as [E|Hin1]; [symmetry; exact E|].
        destruct Hin2 as [E|Hin2]; [exact E|].
        specialize (Hall1 _ Hin2). specialize (Hall2 _ Hin1).
        simpl in *. lia. }
      subst h2. f_equal. apply IH; try assumption.
      apply (Permutation_cons_inv Hperm).
Qed.

Lemma dense_versions_sorted (l : list Migration) : forall i,
  map version l = map Z.of_nat (seq i (List.length l)) ->
  StronglySorted (fun a b => version a < version b) l.
Proof.
  induction l as [|m l IH]; intros i H; simpl in *.
  - constructor.
  - inversion H as [[Hm Hrest]]. constructor.
    + apply (IH (S i)). exact Hrest.
    + rewrite Forall_forall. intros y Hy.
      assert (Hv : In (version y) (map version l))
        by (apply in_map; exact Hy).
      rewrite Hrest in Hv. apply in_map_iff in Hv.
      destruct Hv as (n & Hn & Hseq). apply in_seq in Hseq.
      simpl. lia.
Qed.

(** X12. Declaration order is not trusted: a set declared in any order sorts
    to the same list, and it is accepted when that list has the versions
    1..N. *)
Theorem sort_by_version_any_order (declared valid : list Migration) :
  Permutation declared valid ->
  map version valid = one_to (List.length valid) ->
  sort_by_version declared = valid
  /\ validateSequence 0 (sort_by_version declared) = inr tt.
Proof.
  intros Hperm Hvalid.
  assert (E : sort_by_version declared = valid).
  { apply sorted_unique.
    - apply sort_by_version_sorted.
    - apply (dense_versions_sorted valid 1). exact Hvalid.
    - apply perm_trans with declared;
        [apply sort_by_version_perm | exact Hperm]. }
  split; [exact E|]. rewrite E.
  apply validateSequence_ok_iff. exact Hvalid.
Qed.

Lemma latest_of_dense (migs : list Migration) :
  map version migs = one_to (List.length migs) ->
  latest_of migs = Z.of_nat (List.length migs).
Proof.
  intro H.
  destruct (latest_of_is_max migs) as [[-> E]|[Hin Hmax]]; [exact E|].
  rewrite H in Hin, Hmax. unfold one_to in *.
  apply in_map_iff in Hin. destruct Hin as (n & Hn & Hseq).
  apply in_seq in Hseq.
  assert (Hlast : In (Z.of_nat (List.length migs))
                    (map Z.of_nat (seq 1 (List.length migs)))).
  { apply in_map. apply in_seq. lia. }
  specialize (Hmax _ Hlast). lia.
Qed.

(** X10. A successful [loadMigrations] returns the parsed migrations, each
    once, in ascending order with the versions 1..N; it leaves the
    connection alone; and [getLatestVersion] is then N, the number of
    migrations in the source. *)
Theorem loadMigrations_result (w w' : World U) (migs : list Migration) :
  loadMigrations migrationsPath yamlParser w = (w', inr migs) ->
  (exists wa content file,
     readTextFile migrationsPath w = (wa, inr content)
     /\ yamlParser content = inr file
     /\ Permutation migs (migrations file))
  /\ map version migs = one_to (List.length migs)
  /\ getLatestVersion migrationsPath yamlParser w
     = (w', inr (Z.of_nat (List.length migs)))
  /\ db w' = db w.
Proof.
  intro Hload.
  assert (Hseq : map version migs = one_to (List.length migs)).
  { apply validateSequence_ok_iff.
    exact (loadMigrations_validated _ _ _ _ _ Hload). }
  split; [|split; [exact Hseq|split]].
  - unfold loadMigrations, try_catch, bind, of_result in Hload.
    destruct (readTextFile migrationsPath w) as [wa [e|content]] eqn:Hread;
      [discriminate|].
    destruct (yamlParser content) as [e|file] eqn:Hparse; [discriminate|].
    destruct (validateSequence 0 (sort_by_version (migrations file)))
      as [e|[]]; [discriminate|].
    destruct (validateMigrationFiles _ wa) as [w2 [e|[]]]; [discriminate|].
    inversion Hload; subst.
    exists wa, content, file. split; [reflexivity|]. split; [exact Hparse|].
    apply sort_by_version_perm.
  - unfold getLatestVersion, bind. rewrite Hload.
    rewrite (latest_of_dense migs Hseq). reflexivity.
  - apply (loadMigrations_fs_only _ _ _ _ _ Hload).
Qed.

(** X11. The sequence check comes before the file check: when the sorted
    versions are not 1..N, [loadMigrations] fails with the load error that
    wraps the sequence error of the first index [i] whose version is not
    [i + 1] (every index before it is in sequence), and no file but the
    migration source has been read, whatever files the migrations refer
    to. *)
Theorem loadMigrations_sequence_first (w wa : World U) (content : string)
  (file : MigrationsFile) (e : Error) :
  readTextFile migrationsPath w = (wa, inr content) ->
  yamlParser content = inr file ->
  validateSequence 0 (sort_by_version (migrations file)) = inl e ->
  loadMigrations migrationsPath yamlParser w = (wa, inl (LoadError e))
  /\ FileSystem.reads (fs wa) = migrationsPath :: FileSystem.reads (fs w)
  /\ db wa = db w
  /\ exists i actual,
       e = SequenceError (Z.of_nat i + 1) actual
       /\ actual <> Z.of_nat i + 1
       /\ option_map version
            (nth_error (sort_by_version (migrations file)) i)
          = Some actual
       /\ forall j, (j < i)%nat ->
            option_map version
              (nth_error (sort_by_version (migrations file)) j)
            = Some (Z.of_nat j + 1).
Proof.
  intros Hread Hparse Hseq. split; [|split; [|split]].
  - unfold loadMigrations, try_catch, bind, of_result.
    rewrite Hread, Hparse, Hseq. reflexivity.
  - unfold readTextFile, on_fs, zoom, FileSystem.readTextFile in Hread.
    destruct (FileSystem.disk (fs w) _ migrationsPath); inversion Hread;
      reflexivity.
  - unfold readTextFile, on_fs, zoom, FileSystem.readTextFile in Hread.
    destruct (FileSystem.disk (fs w) _ migrationsPath); inversion Hread;
      reflexivity.
  - clear Hread Hparse.
    assert (Hgen : forall l i0 e,
              validateSequence i0 l = inl e ->
              exists i actual,
                e = SequenceError (Z.of_nat (i0 + i) + 1) actual
                /\ actual <> Z.of_nat (i0 + i) + 1
                /\ option_map version (nth_error l i) = Some actual
                /\ forall j, (j < i)%nat ->
                     option_map version (nth_error l j)
                     = Some (Z.of_nat (i0 + j) + 1)).
    { induction l as [|m l IH]; intros i0 e0 H; simpl in H;
        [discriminate|].
      destruct (Z.eqb_spec (version m) (Z.of_nat i0 + 1)) as [E|E].
      - destruct (IH _ _ H) as (i & actual & He & Hne & Hnth & Hbefore).
        exists (S i), actual.
        replace (i0 + S i)%nat with (S i0 + i)%nat by lia.
        split; [exact He|]. split; [exact Hne|]. split; [exact Hnth|].
        intros [|j] Hj; simpl.
        + rewrite Nat.add_0_r. rewrite E. reflexivity.
        + rewrite (Hbefore j) by lia.
          replace (S i0 + j)%nat with (i0 + S j)%nat by lia. reflexivity.
      - inversion H; subst. exists 0%nat, (version m).
        rewrite Nat.add_0_r. split; [reflexivity|]. split; [exact E|].
        split; [reflexivity|]. intros j Hj. lia. }
    exact (Hgen _ 0%nat e Hseq).
Qed.

End Loading.

(** ** The current version *)

Section CurrentVersion.
Context {U : Type}.
Variable script : string -> U -> U * option string.
Variable migrationsPath : string.
Variable yamlParser : string -> Error + MigrationsFile.
Import MigrationManager.

Lemma classify_CREATE_MIGRATIONS :
  Sqlite.classify Sqlite.CREATE_MIGRATIONS = Sqlite.CreateMigrations.
Proof. reflexivity. Qed.

(** [ensureMigrationsTable] never throws; it creates the table when there
    is none and changes nothing when there is one. *)
Lemma constructor_run (w : World U) :
  exists w',
    constructor script w = (w', inr tt)
    /\ ledger_of w'
       = match ledger_of w with Some rows => Some rows | None => Some [] end
    /\ Sqlite.user (store_of w') = Sqlite.user (store_of w)
    /\ Sqlite.snapshot (DenoDatabase.db (db w'))
       = Sqlite.snapshot (DenoDatabase.db (db w)).
Proof.
  unfold constructor, ensureMigrationsTable, on_db, zoom, DenoDatabase.exec,
    DenoDatabase.on_db, Sqlite.exec, ledger_of, store_of.
  rewrite classify_CREATE_MIGRATIONS.
  destruct w as [f [[[lg u] snap cs] flag] t]; simpl.
  destruct lg as [rows|]; simpl; eexists; repeat split.
Qed.

(** C10, amended.  The constructor never throws and leaves the migrations
    table in place: it creates an empty one when there is none and leaves
    an existing one, rows included, as it is.  [getCurrentVersion] throws
    when the table is absent; while the table exists it does not throw
    and returns 0 when the ledger has no row and otherwise the greatest
    version recorded in it.  Either way it leaves the store alone. *)
Theorem getCurrentVersion_while_table_exists (w0 w1 w w' : World U)
  (r1 : Error + unit) (r : Error + Z) :
  constructor script w0 = (w1, r1) ->
  getCurrentVersion w = (w', r) ->
  (r1 = inr tt
   /\ ledger_of w1
      = Some (match ledger_of w0 with Some rows => rows | None => [] end)
   /\ Sqlite.user (store_of w1) = Sqlite.user (store_of w0))
  /\ store_of w' = store_of w
  /\ match ledger_of w with
     | Some rows =>
         r = inr (current_version rows)
         /\ (rows = [] -> current_version rows = 0)
         /\ (rows <> [] ->
             is_max (map row_version rows) (current_version rows))
     | None => r = inl (DriverError "no such table: migrations")
     end.
Proof.
  intros Hnew Hrun. split; [|split].
  - destruct (constructor_run w0) as (w2 & Hnew' & Hledger & Huser & _).
    rewrite Hnew' in Hnew. inversion Hnew; subst w2 r1.
    split; [reflexivity|]. split; [|exact Huser].
    rewrite Hledger. destruct (ledger_of w0); reflexivity.
  - exact (proj1 (proj2 (proj2 (proj2 (getCurrentVersion_run _ _ _ Hrun))))).
  - pose proof (getCurrentVersion_run _ _ _ Hrun)
      as (_ & _ & _ & _ & _ & _ & Hr).
    destruct (ledger_of w) as [rows|]; [|exact Hr].
    split; [exact Hr|]. split.
    + intros ->. reflexivity.
    + intro Hne. unfold current_version.
      destruct (Sqlite.max_version rows) as [v|] eqn:E.
      * apply max_version_is_max. exact E.
      * apply max_version_None in E. contradiction.
Qed.

End CurrentVersion.

(** ** [DenoDatabase.transaction] *)

Section Transactions.
Context {U : Type}.
Variable script : string -> U -> U * option string.

(** A re-entrant call runs its function and nothing else: the driver
    receives no BEGIN, COMMIT or ROLLBACK on its behalf. *)
Lemma transaction_nested {T : Type} (fn : Eff (DenoDatabase.t U) T)
  (d : DenoDatabase.t U) :
  DenoDatabase.inTransaction d = true ->
  DenoDatabase.transaction script fn d = fn d.
Proof.
  intro H. unfold DenoDatabase.transaction. rewrite H. reflexivity.
Qed.

Lemma begin_unit_idle (d : DenoDatabase.t U) :
  idle d ->
  begin_unit script d
  = ({| DenoDatabase.db :=
          Sqlite.set_snapshot (Some (Sqlite.store (DenoDatabase.db d)))
            (Sqlite.record_call (Sqlite.Exec "BEGIN TRANSACTION")
               (DenoDatabase.db d));
        DenoDatabase.inTransaction := true |}, inr tt).
Proof.
  intros [Hflag Hsnap]. destruct d as [[st snap cs] flag]; simpl in *; subst.
  reflexivity.
Qed.

(** X14. An outermost call on an idle connection whose function leaves the
    transaction open (as every function does that runs ordinary scripts
    and ledger statements): the call commits when the function returns
    and restores the store BEGIN saw when it throws, and either way the
    connection is idle again. *)
Lemma transaction_outermost {T : Type} (fn : Eff (DenoDatabase.t U) T)
  (d d_in d_out : DenoDatabase.t U) (r0 : Error + T) :
  idle d ->
  begin_unit script d = (d_in, inr tt) ->
  fn d_in = (d_out, r0) ->
  Sqlite.snapshot (DenoDatabase.db d_out)
  = Some (Sqlite.store (DenoDatabase.db d)) ->
  exists d',
    DenoDatabase.transaction script fn d = (d', r0)
    /\ idle d'
    /\ Sqlite.store (DenoDatabase.db d')
       = match r0 with
         | inr _ => Sqlite.store (DenoDatabase.db d_out)
         | inl _ => Sqlite.store (DenoDatabase.db d)
         end.
Proof.
  intros Hidle Hin Hfn Hopen.
  pose proof Hidle as [Hflag Hsnap].
  unfold DenoDatabase.transaction. rewrite Hflag.
  unfold begin_unit in Hin. unfold bind at 1 2.
  unfold bind at 1 in Hin.
  destruct (DenoDatabase.set_inTransaction true d) as [da [e|[]]] eqn:Ea;
    [discriminate|].
  rewrite Hin. unfold try_catch, bind. rewrite Hfn.
  destruct d_out as [[st snap cs] flag]; simpl in *; subst snap.
  destruct r0 as [e|x]; simpl; eexists; repeat split.
Qed.

(** X15. A [transaction] inside a [transaction] adds nothing to the outer
    one: on an idle connection, wrapping a function twice is the same as
    wrapping it once. *)
Lemma transaction_twice {T : Type} (fn : Eff (DenoDatabase.t U) T)
  (d : DenoDatabase.t U) :
  idle d ->
  DenoDatabase.transaction script (DenoDatabase.transaction script fn) d
  = DenoDatabase.transaction script fn d.
Proof.
  intros [Hflag Hsnap].
  unfold DenoDatabase.transaction at 1 3. rewrite Hflag.
  destruct d as [[st snap cs] flag]; simpl in *; subst.
  unfold bind, try_catch, DenoDatabase.set_inTransaction, modify. simpl.
  rewrite transaction_nested; reflexivity.
Qed.

End Transactions.

(** ** The two revisions of the manager *)

Section Revisions.
Context {U : Type}.
Variable script : string -> U -> U * option string.
Variable migrationsPath : string.
Variable yamlParser : string -> Error + InlineManager.MigrationsFile.

Lemma upgrade_insert (m : InlineManager.Migration)
  (l : list InlineManager.Migration) :
  MigrationManager.insert_by_version (upgrade m) (map upgrade l)
  = map upgrade (InlineManager.insert_by_version m l).
Proof.
  induction l as [|x l IH]; simpl; [reflexivity|].
  destruct (InlineManager.version m <=? InlineManager.version x); simpl.
  - reflexivity.
  - rewrite IH. reflexivity.
Qed.

Lemma upgrade_sort (l : list InlineManager.Migration) :
  MigrationManager.sort_by_version (map upgrade l)
  = map upgrade (InlineManager.sort_by_version l).
Proof.
  induction l as [|m l IH]; [reflexivity|].
  change (MigrationManager.sort_by_version (map upgrade (m :: l)))
    with (MigrationManager.insert_by_version (upgrade m)
            (MigrationManager.sort_by_version (map upgrade l))).
  rewrite IH. apply upgrade_insert.
Qed.

Lemma upgrade_validateSequence (l : list InlineManager.Migration) :
  forall i,
    MigrationManager.validateSequence i (map upgrade l)
    = InlineManager.validateSequence i l.
Proof.
  induction l as [|m l IH]; intro i; simpl; [reflexivity|].
  destruct (InlineManager.version m =? Z.of_nat i + 1);
    [apply IH | reflexivity].
Qed.

Lemma upgrade_validateMigrationFiles (l : list InlineManager.Migration)
  (w : MigrationManager.World U) :
  MigrationManager.validateMigrationFiles (map upgrade l) w = (w, inr tt).
Proof.
  induction l as [|m l IH]; simpl; [reflexivity|].
  unfold bind at 1.
  assert (E : MigrationManager.validateMigrationFile (upgrade m) w
              = (w, inr tt)).
  { unfold MigrationManager.validateMigrationFile. simpl.
    destruct (InlineManager.down m); reflexivity. }
  rewrite E. exact IH.
Qed.

Lemma upgrade_loadMigrations (w : MigrationManager.World U) :
  MigrationManager.loadMigrations migrationsPath
    (upgrade_parser yamlParser) w
  = match InlineManager.loadMigrations migrationsPath yamlParser w with
    | (w', inl e) => (w', inl e)
    | (w', inr migs) => (w', inr (map upgrade migs))
    end.
Proof.
  unfold MigrationManager.loadMigrations, InlineManager.loadMigrations,
    try_catch, bind, MigrationManager.of_result, upgrade_parser.
  destruct (MigrationManager.readTextFile migrationsPath w)
    as [wa [e|content]]; [reflexivity|].
  destruct (yamlParser content) as [e|file]; [reflexivity|].
  simpl migrations. rewrite upgrade_sort, upgrade_validateSequence.
  destruct (InlineManager.validateSequence 0
              (InlineManager.sort_by_version
                 (InlineManager.migrations file))) as [e|[]];
    [reflexivity|].
  rewrite upgrade_validateMigrationFiles. reflexivity.
Qed.

Lemma upgrade_latest_of (l : list InlineManager.Migration) :
  MigrationManager.latest_of (map upgrade l) = InlineManager.latest_of l.
Proof.
  unfold MigrationManager.latest_of, InlineManager.latest_of.
  rewrite map_map. reflexivity.
Qed.

Lemma upgrade_find_version (v : Z) (l : list InlineManager.Migration) :
  MigrationManager.find_version v (map upgrade l)
  = option_map upgrade (InlineManager.find_version v l).
Proof.
  unfold MigrationManager.find_version, InlineManager.find_version.
  induction l as [|m l IH]; simpl; [reflexivity|].
  destruct (InlineManager.version m =? v); [reflexivity | exact IH].
Qed.

Lemma inline_find_version_In (v : Z) (l : list InlineManager.Migration)
  (m : InlineManager.Migration) :
  InlineManager.find_version v l = Some m -> In m l.
Proof.
  unfold InlineManager.find_version. intro H.
  apply find_some in H. apply H.
Qed.

Lemma inline_insert_In (m x : InlineManager.Migration)
  (l : list InlineManager.Migration) :
  In x (InlineManager.insert_by_version m l) -> x = m \/ In x l.
Proof.
  induction l as [|y l IH]; simpl.
  - intros [<-|[]]. left. reflexivity.
  - destruct (InlineManager.version m <=? InlineManager.version y); simpl.
    + intros [<-|[<-|H]]; auto.
    + intros [<-|H]; auto. destruct (IH H) as [->|H']; auto.
Qed.

Lemma inline_sort_In (x : InlineManager.Migration)
  (l : list InlineManager.Migration) :
  In x (InlineManager.sort_by_version l) -> In x l.
Proof.
  induction l as [|m l IH]; simpl; [auto|].
  intro H. apply inline_insert_In in H. destruct H as [->|H]; auto.
Qed.

Lemma upgrade_apply_step (v : Z) (m : InlineManager.Migration)
  (w : MigrationManager.World U) :
  truthy (InlineManager.up m) = true ->
  MigrationManager.apply_step script v (upgrade m) w
  = InlineManager.apply_step script v m w.
Proof.
  intro Hup.
  unfold MigrationManager.apply_step, InlineManager.apply_step,
    MigrationManager.resolveSql, try_catch, bind, ret.
  simpl. rewrite Hup. reflexivity.
Qed.

Lemma upgrade_revert_step (v : Z) (m : InlineManager.Migration)
  (w : MigrationManager.World U) :
  MigrationManager.revert_step script v (upgrade m) w
  = InlineManager.revert_step script v m w.
Proof.
  unfold MigrationManager.revert_step, InlineManager.revert_step,
    MigrationManager.no_down, MigrationManager.resolveSql.
  simpl. destruct (InlineManager.reversible m); simpl; [|reflexivity].
  destruct (InlineManager.down m) as [text|]; simpl; [|reflexivity].
  destruct (truthy text) eqn:Ht; simpl; [|reflexivity].
  unfold try_catch, bind, ret. rewrite Ht. reflexivity.
Qed.

Lemma upgrade_migrateUp_loop (migs : list InlineManager.Migration)
  (n : nat) : forall v w,
  (forall m, In m migs -> truthy (InlineManager.up m) = true) ->
  MigrationManager.migrateUp_loop script n v (map upgrade migs) w
  = InlineManager.migrateUp_loop script n v migs w.
Proof.
  induction n as [|n IH]; intros v w Hup; simpl; [reflexivity|].
  rewrite upgrade_find_version.
  destruct (InlineManager.find_version v migs) as [m|] eqn:Hfind; simpl;
    [|reflexivity].
  unfold bind.
  rewrite (upgrade_apply_step v m w
             (Hup m (inline_find_version_In _ _ _ Hfind))).
  destruct (InlineManager.apply_step script v m w) as [w1 [e|[]]];
    [reflexivity|].
  apply IH. exact Hup.
Qed.

Lemma upgrade_migrateDown_loop (migs : list InlineManager.Migration)
  (n : nat) : forall v w,
  MigrationManager.migrateDown_loop script n v (map upgrade migs) w
  = InlineManager.migrateDown_loop script n v migs w.
Proof.
  induction n as [|n IH]; intros v w; simpl; [reflexivity|].
  rewrite upgrade_find_version.
  destruct (InlineManager.find_version v migs) as [m|]; simpl;
    [|reflexivity].
  unfold bind. rewrite upgrade_revert_step.
  destruct (InlineManager.revert_step script v m w) as [w1 [e|[]]];
    [reflexivity|].
  apply IH.
Qed.

Lemma inline_loadMigrations_In (w w' : MigrationManager.World U)
  (migs : list InlineManager.Migration) :
  InlineManager.loadMigrations migrationsPath yamlParser w = (w', inr migs) ->
  exists n content file,
    FileSystem.disk (MigrationManager.fs w) n migrationsPath = Some content
    /\ yamlParser content = inr file
    /\ forall m, In m migs -> In m (InlineManager.migrations file).
Proof.
  unfold InlineManager.loadMigrations, try_catch, bind,
    MigrationManager.of_result.
  destruct (MigrationManager.readTextFile migrationsPath w)
    as [wa [e|content]] eqn:Hread; [discriminate|].
  destruct (yamlParser content) as [e|file] eqn:Hparse; [discriminate|].
  destruct (InlineManager.validateSequence 0
              (InlineManager.sort_by_version
                 (InlineManager.migrations file))) as [e|[]];
    [discriminate|].
  intro H. inversion H; subst.
  exists (List.length (FileSystem.reads (MigrationManager.fs w))),
    content, file.
  split; [|split; [exact Hparse|]].
  - revert Hread.
    unfold MigrationManager.readTextFile, MigrationManager.on_fs, zoom,
      FileSystem.readTextFile.
    destruct (FileSystem.disk (MigrationManager.fs w)
                (List.length (FileSystem.reads (MigrationManager.fs w)))
                migrationsPath) as [c|]; intro Hread; inversion Hread.
    reflexivity.
  - intros m Hm. exact (inline_sort_In _ _ Hm).
Qed.

(** X13. The later revision is compatible with the earlier one.  Let the
    migration source be such that, whatever it holds at any read, the
    document parses into migrations whose up scripts are not empty (or
    does not parse).  Then [migrateTo] of the later revision, reading the
    migrations as inline ones, does what [migrateTo] of the earlier
    revision does: same calls, same final state, same result.  (An empty
    up script is where they part: the earlier revision sends it to the
    driver, the later one refuses it.) *)
Theorem migrateTo_revisions_agree (targetVersion : Target)
  (w : MigrationManager.World U) :
  (forall n content file m,
     FileSystem.disk (MigrationManager.fs w) n migrationsPath = Some content ->
     yamlParser content = inr file ->
     In m (InlineManager.migrations file) ->
     InlineManager.up m <> EmptyString) ->
  MigrationManager.migrateTo script migrationsPath
    (upgrade_parser yamlParser) targetVersion w
  = InlineManager.migrateTo script migrationsPath yamlParser
      targetVersion w.
Proof.
  intro Hup.
  unfold MigrationManager.migrateTo, InlineManager.migrateTo, bind.
  rewrite upgrade_loadMigrations.
  destruct (InlineManager.loadMigrations migrationsPath yamlParser w)
    as [w1 [e|migs]] eqn:Hload; [reflexivity|].
  assert (Hmigs : forall m, In m migs ->
                    truthy (InlineManager.up m) = true).
  { destruct (inline_loadMigrations_In _ _ _ Hload)
      as (n & content & file & Hdisk & Hparse & Hin).
    intros m Hm. specialize (Hup n content file m Hdisk Hparse (Hin m Hm)).
    unfold truthy. destruct (InlineManager.up m); [contradiction|].
    reflexivity. }
  destruct (MigrationManager.getCurrentVersion w1) as [w2 [e|current]];
    [reflexivity|].
  assert (Htarget :
            MigrationManager.resolve_target migrationsPath
              (upgrade_parser yamlParser) targetVersion w2
            = InlineManager.resolve_target migrationsPath yamlParser
                targetVersion w2).
  { destruct targetVersion as [|n]; simpl; [|reflexivity].
    unfold MigrationManager.getLatestVersion,
      InlineManager.getLatestVersion, bind.
    rewrite upgrade_loadMigrations.
    destruct (InlineManager.loadMigrations migrationsPath yamlParser w2)
      as [w3 [e|migs']]; [reflexivity|].
    rewrite upgrade_latest_of. reflexivity. }
  rewrite Htarget.
  destruct (InlineManager.resolve_target migrationsPath yamlParser
              targetVersion w2) as [w3 [e|target]]; [reflexivity|].
  destruct (current =? target); [reflexivity|].
  destruct (current <? target).
  - unfold MigrationManager.migrateUp, InlineManager.migrateUp.
    apply upgrade_migrateUp_loop. exact Hmigs.
  - unfold MigrationManager.migrateDown, InlineManager.migrateDown.
    apply upgrade_migrateDown_loop.
Qed.

End Revisions.

(** ** Schema definitions *)

Section SchemaText.
Import Schema.

Lemma split_not_nil (c : ascii) (s : string) : split c s <> [].
Proof.
  destruct s as [|a s]; simpl; [discriminate|].
  destruct (Ascii.eqb a c); [discriminate|].
  destruct (split c s); discriminate.
Qed.

Lemma split_app (c : ascii) (a b : string) :
  split c (a ++ String c b) = (split c a ++ split c b)%list.
Proof.
  induction a as [|x a IH]; simpl.
  - rewrite Ascii.eqb_refl. reflexivity.
  - destruct (Ascii.eqb x c).
    + rewrite IH. reflexivity.
    + rewrite IH. pose proof (split_not_nil c a) as Hne.
      destruct (split c a) as [|p ps]; [contradiction|]. reflexivity.
Qed.

Lemma split_pieces (c : ascii) (s : string) :
  forall p, In p (split c s) -> contains c p = false.
Proof.
  induction s as [|a s IH]; simpl; intros p Hp.
  - destruct Hp as [<-|[]]. reflexivity.
  - destruct (Ascii.eqb a c) eqn:Ea.
    + destruct Hp as [<-|Hp]; [reflexivity | exact (IH p Hp)].
    + pose proof (split_not_nil c s) as Hne.
      destruct (split c s) as [|q qs]; [contradiction|].
      destruct Hp as [<-|Hp].
      * simpl. rewrite Ea. apply IH. left. reflexivity.
      * apply IH. right. exact Hp.
Qed.

Lemma split_whole (c : ascii) (s : string) :
  contains c s = false -> split c s = [s].
Proof.
  induction s as [|a s IH]; simpl; intro H; [reflexivity|].
  apply orb_false_iff in H. destruct H as [Ha Hs].
  rewrite Ha, (IH Hs). reflexivity.
Qed.

Lemma trimEnd_keeps_head (c : ascii) (s : string) :
  is_white_space c = false ->
  trimEnd (String c s) = String c (trimEnd s).
Proof.
  intro Hc. simpl. destruct (trimEnd s); [rewrite Hc|]; reflexivity.
Qed.

Lemma trimEnd_idempotent (s : string) : trimEnd (trimEnd s) = trimEnd s.
Proof.
  induction s as [|c s IH]; simpl; [reflexivity|].
  destruct (trimEnd s) as [|c' r] eqn:E.
  - destruct (is_white_space c) eqn:Hc; simpl; [reflexivity|].
    rewrite Hc. reflexivity.
  - change (trimEnd (String c (String c' r)) = String c (String c' r)).
    simpl in IH |- *. destruct (trimEnd r) as [|c'' r''] eqn:Er.
    + destruct (is_white_space c'); [discriminate|].
      rewrite IH. reflexivity.
    + rewrite IH. reflexivity.
Qed.

Lemma trimStart_head (s : string) :
  trimStart s = EmptyString
  \/ exists c rest, trimStart s = String c rest /\ is_white_space c = false.
Proof.
  induction s as [|c s IH]; simpl; [left; reflexivity|].
  destruct (is_white_space c) eqn:Hc; [exact IH|].
  right. exists c, s. split; [reflexivity | exact Hc].
Qed.

(** What [trim] returns has no white space at either end: trimming it
    again changes nothing. *)
Lemma trim_idempotent (s : string) : trim (trim s) = trim s.
Proof.
  unfold trim. destruct (trimStart_head s) as [E|(c & rest & E & Hc)].
  - rewrite E. reflexivity.
  - rewrite E. rewrite (trimEnd_keeps_head c rest Hc).
    simpl trimStart. rewrite Hc.
    rewrite <- (trimEnd_keeps_head c rest Hc).
    apply trimEnd_idempotent.
Qed.

Lemma trimStart_contains (c : ascii) (s : string) :
  contains c s = false -> contains c (trimStart s) = false.
Proof.
  induction s as [|a s IH]; simpl; intro H; [reflexivity|].
  destruct (is_white_space a); [|exact H].
  apply orb_false_iff in H. apply IH. apply H.
Qed.

Lemma trimEnd_contains (c : ascii) (s : string) :
  contains c s = false -> contains c (trimEnd s) = false.
Proof.
  induction s as [|a s IH]; simpl; intro H; [reflexivity|].
  apply orb_false_iff in H. destruct H as [Ha Hs]. specialize (IH Hs).
  destruct (trimEnd s) as [|a' r].
  - destruct (is_white_space a); simpl; [reflexivity|].
    rewrite Ha. reflexivity.
  - change (contains c (String a (String a' r)) = false).
    simpl in IH |- *. rewrite Ha. exact IH.
Qed.

Lemma statements_of_app (a b : string) :
  statements_of (a ++ String semicolon b)
  = (statements_of a ++ statements_of b)%list.
Proof.
  unfold statements_of. rewrite split_app, map_app, filter_app.
  reflexivity.
Qed.

Lemma statements_of_line_feed (s : string) :
  statements_of (String line_feed s) = statements_of s.
Proof.
  unfold statements_of.
  change (split semicolon (String line_feed s))
    with (match split semicolon s with
          | piece :: pieces => String line_feed piece :: pieces
          | [] => [String line_feed EmptyString]
          end).
  pose proof (split_not_nil semicolon s) as Hne.
  destruct (split semicolon s) as [|p ps]; [contradiction|].
  reflexivity.
Qed.

Lemma append_assoc' (a b c : string) : ((a ++ b) ++ c = a ++ (b ++ c))%string.
Proof.
  induction a as [|x a IH]; simpl; [reflexivity|]. rewrite IH. reflexivity.
Qed.

Lemma statements_of_joined (l : list string) :
  statements_of
    (join (String semicolon (String line_feed EmptyString)) l
     ++ String semicolon EmptyString)
  = flat_map statements_of l.
Proof.
  induction l as [|s l IH].
  - reflexivity.
  - destruct l as [|s2 l].
    + simpl join. simpl flat_map.
      rewrite statements_of_app. reflexivity.
    + change (join (String semicolon (String line_feed EmptyString))
                (s :: s2 :: l))
        with (s ++ String semicolon (String line_feed EmptyString)
                ++ join (String semicolon (String line_feed EmptyString))
                     (s2 :: l))%string.
      rewrite append_assoc'.
      change ((String semicolon (String line_feed EmptyString)
                 ++ join (String semicolon (String line_feed EmptyString))
                      (s2 :: l))
                ++ String semicolon EmptyString)%string
        with (String semicolon
                (String line_feed
                   (join (String semicolon (String line_feed EmptyString))
                      (s2 :: l)
                    ++ String semicolon EmptyString)))%string.
      rewrite statements_of_app, statements_of_line_feed, IH.
      reflexivity.
Qed.

(** X17. The statements [applySchema] finds in what [build] returns are
    those it finds in the builder's entries, one entry after the other:
    the separators and the final semicolon that [build] adds bring nothing
    of their own. *)
Theorem statements_of_build (this : SchemaBuilder) :
  statements_of (build this) = flat_map statements_of (statements this).
Proof.
  destruct this as [l]. unfold build. simpl statements.
  apply statements_of_joined.
Qed.

(** X18. Every statement [applySchema] sends is non-empty, has no white space
    at either end and holds no semicolon: a semicolon inside a string
    literal or a trigger body ends the statement there. *)
Theorem statements_of_clean (schemaSQL statement : string) :
  In statement (statements_of schemaSQL) ->
  statement <> EmptyString
  /\ trim statement = statement
  /\ contains semicolon statement = false.
Proof.
  unfold statements_of. intro H. apply filter_In in H.
  destruct H as [Hin Hlen]. apply in_map_iff in Hin.
  destruct Hin as (p & <- & Hp). split; [|split].
  - intro E. rewrite E in Hlen. discriminate.
  - apply trim_idempotent.
  - unfold trim. apply trimEnd_contains, trimStart_contains.
    exact (split_pieces _ _ _ Hp).
Qed.

(** A statement that is non-empty, trimmed and free of semicolons is
    found as it is. *)
Lemma statements_of_one (statement : string) :
  statement <> EmptyString ->
  trim statement = statement ->
  contains semicolon statement = false ->
  statements_of statement = [statement].
Proof.
  intros Hne Htrim Hsemi. unfold statements_of.
  rewrite (split_whole _ _ Hsemi). simpl. rewrite Htrim.
  destruct statement; [contradiction|]. reflexivity.
Qed.

End SchemaText.

Section SchemaRuns.
Context {U : Type}.
Variable script : string -> U -> U * option string.
Import Schema.

Lemma exec_call (sql : string) (d d' : DenoDatabase.t U) (r : Error + unit) :
  DenoDatabase.exec script sql d = (d', r) ->
  Sqlite.calls (DenoDatabase.db d')
  = Sqlite.Exec sql :: Sqlite.calls (DenoDatabase.db d)
  /\ DenoDatabase.inTransaction d' = DenoDatabase.inTransaction d.
Proof.
  destruct d as [[st snap cs] flag].
  unfold DenoDatabase.exec, DenoDatabase.on_db, zoom, Sqlite.exec.
  simpl. intro H.
  destruct (Sqlite.classify sql); simpl in H.
  - destruct snap; inversion H; subst; simpl; auto.
  - destruct snap; inversion H; subst; simpl; auto.
  - destruct snap; inversion H; subst; simpl; auto.
  - destruct (Sqlite.ledger st); inversion H; subst; simpl; auto.
  - destruct (script sql0 (Sqlite.user st)) as [u' [msg|]];
      inversion H; subst; simpl; auto.
Qed.

Lemma exec_each_app (done rest : list string) (d : DenoDatabase.t U) :
  exec_each script (done ++ rest) d
  = match exec_each script done d with
    | (d1, inr _) => exec_each script rest d1
    | (d1, inl e) => (d1, inl e)
    end.
Proof.
  revert d. induction done as [|s done IH]; intro d; simpl.
  - reflexivity.
  - unfold bind. destruct (DenoDatabase.exec script s d) as [d1 [e|[]]].
    + reflexivity.
    + apply IH.
Qed.

Lemma exec_each_calls (l : list string) : forall d d' r,
  exec_each script l d = (d', r) ->
  exists sent unsent,
    l = (sent ++ unsent)%list
    /\ Sqlite.calls (DenoDatabase.db d')
       = (rev (map Sqlite.Exec sent) ++ Sqlite.calls (DenoDatabase.db d))%list
    /\ DenoDatabase.inTransaction d' = DenoDatabase.inTransaction d
    /\ (r = inr tt -> unsent = [])
    /\ (forall e, r = inl e ->
          exists before failing d1 d2,
            sent = (before ++ [failing])%list
            /\ exec_each script before d = (d1, inr tt)
            /\ DenoDatabase.exec script failing d1 = (d2, inl e)
            /\ d' = d2).
Proof.
  induction l as [|s l IH]; intros d d' r H; simpl in H.
  - inversion H; subst. exists [], []. simpl.
    split; [reflexivity|]. split; [reflexivity|]. split; [reflexivity|].
    split; [reflexivity|]. intros e He. discriminate.
  - unfold bind in H.
    destruct (DenoDatabase.exec script s d) as [d1 [e|[]]] eqn:Es.
    + inversion H; subst. destruct (exec_call _ _ _ _ Es) as [Hc Hf].
      exists [s], l. simpl. split; [reflexivity|].
      split; [exact Hc|]. split; [exact Hf|].
      split; [intro; discriminate|].
      intros e0 He0. inversion He0; subst.
      exists [], s, d, d'. simpl. auto.
    + destruct (exec_call _ _ _ _ Es) as [Hc Hf].
      destruct (IH _ _ _ H) as (sent & unsent & Hl & Hcalls & Hflag
                                & Hok & Hfail).
      exists (s :: sent), unsent. simpl. split; [rewrite Hl; reflexivity|].
      split; [rewrite Hcalls, Hc, <- app_assoc; reflexivity|].
      split; [rewrite Hflag; exact Hf|]. split; [exact Hok|].
      intros e He. destruct (Hfail e He) as (before & failing & da & db
                                             & Hs & Hb & Hx & Hd).
      exists (s :: before), failing, da, db. simpl. unfold bind.
      rewrite Es, Hs. auto.
Qed.

Lemma applySchema_exec_each (schemaSQL : string) (d : DenoDatabase.t U) :
  applySchema script schemaSQL d
  = exec_each script (statements_of schemaSQL) d.
Proof.
  unfold applySchema, try_catch, throw.
  destruct (exec_each script (statements_of schemaSQL) d) as [d' [e|x]];
    reflexivity.
Qed.

(** X19. [applySchema] sends the driver the statements it found, in order, one
    call each and nothing else, up to the end or to the first one that
    fails; it leaves the adapter's transaction flag alone. *)
Theorem applySchema_calls (schemaSQL : string) (d d' : DenoDatabase.t U)
  (r : Error + unit) :
  applySchema script schemaSQL d = (d', r) ->
  exists sent unsent,
    statements_of schemaSQL = (sent ++ unsent)%list
    /\ Sqlite.calls (DenoDatabase.db d')
       = (rev (map Sqlite.Exec sent) ++ Sqlite.calls (DenoDatabase.db d))%list
    /\ DenoDatabase.inTransaction d' = DenoDatabase.inTransaction d
    /\ (r = inr tt -> unsent = [])
    /\ (forall e, r = inl e -> sent <> []).
Proof.
  rewrite applySchema_exec_each. intro H.
  destruct (exec_each_calls _ _ _ _ H) as (sent & unsent & Hl & Hcalls
                                           & Hflag & Hok & Hfail).
  exists sent, unsent. split; [exact Hl|]. split; [exact Hcalls|].
  split; [exact Hflag|]. split; [exact Hok|].
  intros e He. destruct (Hfail e He) as (before & failing & _ & _ & -> & _).
  destruct before; discriminate.
Qed.

(** X20. [applySchema] is not atomic: when a statement fails, the error is the
    driver's own, the statements before it have run and stay, and the
    statements after it are not sent. *)
Theorem applySchema_failure (schemaSQL : string)
  (before after : list string) (failing : string)
  (d d1 d2 : DenoDatabase.t U) (e : Error) :
  statements_of schemaSQL = (before ++ failing :: after)%list ->
  exec_each script before d = (d1, inr tt) ->
  DenoDatabase.exec script failing d1 = (d2, inl e) ->
  applySchema script schemaSQL d = (d2, inl e)
  /\ Sqlite.calls (DenoDatabase.db d2)
     = (Sqlite.Exec failing :: rev (map Sqlite.Exec before)
          ++ Sqlite.calls (DenoDatabase.db d))%list.
Proof.
  intros Hl Hb Hx. split.
  - rewrite applySchema_exec_each, Hl, exec_each_app, Hb. simpl.
    unfold bind. rewrite Hx. reflexivity.
  - destruct (exec_call _ _ _ _ Hx) as [Hc _]. rewrite Hc.
    destruct (exec_each_calls _ _ _ _ Hb) as (sent & unsent & Hl' & Hcalls
                                              & _ & Hok & _).
    rewrite (Hok eq_refl), app_nil_r in Hl'. subst sent.
    rewrite Hcalls. reflexivity.
Qed.

(** X21. A builder whose entries are single statements (non-empty, trimmed, no
    semicolon) applies exactly its entries, in the order they were
    added. *)
Theorem apply_entries (this : SchemaBuilder) (d : DenoDatabase.t U) :
  (forall s, In s (statements this) ->
     s <> EmptyString /\ trim s = s /\ contains semicolon s = false) ->
  apply script this d = exec_each script (statements this) d.
Proof.
  intro Hclean. unfold apply.
  destruct this as [l]. unfold build. simpl in *.
  rewrite applySchema_exec_each, statements_of_joined.
  f_equal.
  induction l as [|s l IH]; simpl; [reflexivity|].
  destruct (Hclean s (or_introl eq_refl)) as (H1 & H2 & H3).
  rewrite (statements_of_one s H1 H2 H3). simpl. f_equal.
  apply IH. intros x Hx. apply Hclean. right. exact Hx.
Qed.

End SchemaRuns.

(** ** Instances on the sample engine *)

Section Instances.
Import MigrationManager.

Lemma validateSequence_dense_witness :
  validateSequence 0 (sort_by_version [Sample.m3; Sample.m1])
  = inl (SequenceError 2 3).
Proof.
  apply (proj2 (validateSequence_dense
                  (sort_by_version [Sample.m3; Sample.m1]))
           1%nat Sample.m3).
  - reflexivity.
  - simpl. lia.
  - intros j mj Hj Hnth. destruct j as [|j]; [|lia].
    inversion Hnth. reflexivity.
Defined.

Lemma migrateTo_step_not_found_witness :
  exists w1,
    Sample.migrateTo (Version 3)
      (Sample.world (Sample.fs_with "two") (Some []))
    = (w1, inl (StepNotFoundError 3))
    /\ applied w1 = [1; 2].
Proof.
  exists (fst (migrateUp Sample.script 0 2 [Sample.m1; Sample.m2]
                 (planned Sample.migrationsPath Sample.yamlParser (Version 3)
                    (Sample.world (Sample.fs_with "two") (Some []))))).
  split.
  - unfold Sample.migrateTo.
    apply (migrateTo_step_not_found Sample.script Sample.migrationsPath
             Sample.yamlParser (Version 3)
             (Sample.world (Sample.fs_with "two") (Some []))
             (planned Sample.migrationsPath Sample.yamlParser (Version 3)
                (Sample.world (Sample.fs_with "two") (Some [])))
             _ [Sample.m1; Sample.m2] 0 3 3).
    + apply plans_of_run; vm_compute; reflexivity.
    + reflexivity.
    + left. split; [lia|]. apply run_eq. vm_compute. reflexivity.
  - vm_compute. reflexivity.
Defined.

Lemma migrateTo_not_reversible_witness :
  exists w1,
    Sample.migrateTo (Version 1)
      (Sample.world (Sample.fs_with "fixed")
         (Some [Sample.row Sample.m1; Sample.row Sample.m2_fixed]))
    = (w1, inl (NotReversibleError 2 "create u"))
    /\ In 2 (applied w1).
Proof.
  exists (planned Sample.migrationsPath Sample.yamlParser (Version 1)
            (Sample.world (Sample.fs_with "fixed")
               (Some [Sample.row Sample.m1; Sample.row Sample.m2_fixed]))).
  unfold Sample.migrateTo.
  destruct (migrateTo_not_reversible Sample.script Sample.migrationsPath
              Sample.yamlParser (Version 1)
              (Sample.world (Sample.fs_with "fixed")
                 (Some [Sample.row Sample.m1; Sample.row Sample.m2_fixed]))
              (planned Sample.migrationsPath Sample.yamlParser (Version 1)
                 (Sample.world (Sample.fs_with "fixed")
                    (Some [Sample.row Sample.m1;
                           Sample.row Sample.m2_fixed])))
              (planned Sample.migrationsPath Sample.yamlParser (Version 1)
                 (Sample.world (Sample.fs_with "fixed")
                    (Some [Sample.row Sample.m1;
                           Sample.row Sample.m2_fixed])))
              [Sample.m1; Sample.m2_fixed] 2 1 2 Sample.m2_fixed)
    as [H1 H2].
  - apply plans_of_run; vm_compute; reflexivity.
  - lia.
  - vm_compute. reflexivity.
  - reflexivity.
  - reflexivity.
  - split; [exact H1|]. apply H2.
    + split; reflexivity.
    + vm_compute. auto.
Defined.

Lemma migrateTo_unit_rolls_back_witness :
  exists w',
    Sample.migrateTo Latest
      (Sample.world (Sample.fs_with "broken") (Some []))
    = (w', inl (ExecutionError Up 2 (DriverError "syntax error")))
    /\ applied w' = [1]
    /\ Sqlite.user (store_of w') = ["CREATE TABLE t(id INTEGER);"].
Proof.
  pose (w := Sample.world (Sample.fs_with "broken") (Some [])).
  pose (w0 := planned Sample.migrationsPath Sample.yamlParser Latest w).
  pose (w1 := fst (migrateUp Sample.script 0 1
                     [Sample.m1; Sample.m2_broken] w0)).
  pose (d_in := fst (begin_unit Sample.script (db w1))).
  pose (d_out := fst (DenoDatabase.exec Sample.script "FAIL TABLE u;" d_in)).
  destruct (migrateTo_unit_rolls_back Sample.script Sample.migrationsPath
              Sample.yamlParser Latest w w0 w1 w1
              [Sample.m1; Sample.m2_broken] 0 2 2 Sample.m2_broken
              "FAIL TABLE u;" d_in d_out (DriverError "syntax error"))
    as (w' & Hrun & Hstore & _ & _).
  - split; reflexivity.
  - apply plans_of_run; vm_compute; reflexivity.
  - lia.
  - apply run_eq. vm_compute. reflexivity.
  - reflexivity.
  - reflexivity.
  - reflexivity.
  - apply run_eq. vm_compute. reflexivity.
  - apply run_eq. vm_compute. reflexivity.
  - vm_compute. reflexivity.
  - exists w'. split; [exact Hrun|].
    unfold applied, ledger_of. rewrite Hstore.
    split; vm_compute; reflexivity.
Defined.

Lemma getCurrentVersion_while_table_exists_witness :
  snd (constructor Sample.script
         (Sample.world (Sample.fs_with "two") None)) = inr tt
  /\ snd (getCurrentVersion
            (fst (constructor Sample.script
                    (Sample.world (Sample.fs_with "two") None))))
     = inr 0.
Proof.
  pose (w0 := Sample.world (Sample.fs_with "two") None).
  pose (w1 := fst (constructor Sample.script w0)).
  destruct (getCurrentVersion_while_table_exists Sample.script w0 w1 w1
              (fst (getCurrentVersion w1))
              (snd (constructor Sample.script w0))
              (snd (getCurrentVersion w1)))
    as ((Hnew & _) & _ & Hcur).
  - apply surjective_pairing.
  - apply surjective_pairing.
  - split; [exact Hnew|].
    change (ledger_of w1) with (Some (@nil LedgerRow)) in Hcur.
    destruct Hcur as [Hr _]. exact Hr.
Defined.

(** C10, as stated, fails: a manager constructed while a transaction of
    the caller is open creates the table inside that transaction, and
    [getCurrentVersion] then returns 0; once the caller rolls the
    transaction back the table is gone, and [getCurrentVersion] throws
    although the manager is constructed. *)
Lemma getCurrentVersion_throws_after_rollback :
  ledger_of Cases.caller_begins = None
  /\ Sqlite.snapshot (DenoDatabase.db (db Cases.caller_begins)) <> None
  /\ snd (constructor Sample.script Cases.caller_begins) = inr tt
  /\ ledger_of Cases.constructed_inside = Some []
  /\ snd (getCurrentVersion Cases.constructed_inside) = inr 0
  /\ snd (on_db (DenoDatabase.exec Sample.script "ROLLBACK")
            Cases.constructed_inside) = inr tt
  /\ ledger_of Cases.caller_rolled_back = None
  /\ snd (getCurrentVersion Cases.caller_rolled_back)
     = inl (DriverError "no such table: migrations").
Proof.
  repeat split; try (vm_compute; reflexivity).
  vm_compute. discriminate.
Qed.


(** C1. A failing forward step is not always rolled back.  Migration 1
    of this set has the up script COMMIT: its unit ends the transaction
    itself, the adapter's COMMIT and then its ROLLBACK fail, and
    [transaction] throws with [inTransaction] still set (and the ledger
    row of version 1 recorded, although the step failed).  In the next
    [migrateTo] step 2 fails half-way through its script: [transaction]
    takes the unit for a nested one, the driver receives neither BEGIN nor
    ROLLBACK, and what the script did before it failed stays in the
    database. *)
Theorem migrateTo_failed_step_persists :
  snd (Cases.migrateTo Latest
         (Sample.world (Sample.fs_with "commit") (Some [])))
  = inl (ExecutionError Up 1
           (DriverError "cannot rollback - no transaction is active"))
  /\ applied Cases.after_commit_step = [1]
  /\ DenoDatabase.inTransaction (db Cases.after_commit_step) = true
  /\ Sqlite.snapshot (DenoDatabase.db (db Cases.after_commit_step)) = None
  /\ Sqlite.user (store_of Cases.after_commit_step) = []
  /\ snd (Cases.migrateTo Latest Cases.after_commit_step)
     = inl (ExecutionError Up 2 (DriverError "syntax error"))
  /\ Sqlite.user
       (store_of (fst (Cases.migrateTo Latest Cases.after_commit_step)))
     = ["FAIL TABLE u;"]
  /\ calls_of (fst (Cases.migrateTo Latest Cases.after_commit_step))
     = ([Sqlite.Exec "FAIL TABLE u;"; Sqlite.SelectMax]
          ++ calls_of Cases.after_commit_step)%list.
Proof. repeat split; vm_compute; reflexivity. Qed.

(** C9. [transaction] sets [inTransaction] before BEGIN and outside the
    [try]: when the driver refuses BEGIN (here because the caller had
    opened a transaction with [exec]), the outermost call throws and
    leaves the flag set.  From then on every [transaction] call is taken
    for a nested one: after the caller's ROLLBACK, a unit that fails
    half-way gets neither BEGIN nor ROLLBACK and its first statement
    stays in the database. *)
Theorem transaction_flag_stuck :
  DenoDatabase.inTransaction Sample.connection_in_use = false
  /\ snd (DenoDatabase.transaction Sample.script Sample.create_t
            Sample.connection_in_use)
     = inl (DriverError "cannot start a transaction within a transaction")
  /\ DenoDatabase.inTransaction Sample.after_refused_begin = true
  /\ Sqlite.snapshot (DenoDatabase.db Sample.after_user_rollback) = None
  /\ snd (DenoDatabase.transaction Sample.script Sample.failing_unit
            Sample.after_user_rollback)
     = inl (DriverError "syntax error")
  /\ Sqlite.calls (DenoDatabase.db Sample.after_later_unit)
     = [Sqlite.Exec "FAIL TABLE u;"; Sqlite.Exec "CREATE TABLE t(id INTEGER);";
        Sqlite.Exec "ROLLBACK"; Sqlite.Exec "BEGIN TRANSACTION";
        Sqlite.Exec "BEGIN TRANSACTION"]
  /\ Sqlite.user (Sqlite.store (DenoDatabase.db Sample.after_later_unit))
     = ["FAIL TABLE u;"; "CREATE TABLE t(id INTEGER);"]
  /\ DenoDatabase.inTransaction Sample.after_later_unit = true.
Proof. repeat split; reflexivity. Qed.

(** The same unit on an idle connection is rolled back, and the
    connection is idle again. *)
Lemma failing_unit_rolled_back :
  let r := DenoDatabase.transaction Sample.script Sample.failing_unit
             Sample.connection in
  snd r = inl (DriverError "syntax error")
  /\ Sqlite.user (Sqlite.store (DenoDatabase.db (fst r))) = []
  /\ DenoDatabase.inTransaction (fst r) = false.
Proof. repeat split; reflexivity. Qed.

(** The flag also stays set when ROLLBACK is refused in the [catch]
    block, here because the unit had ended the transaction itself; the
    error that comes out is then the driver's, not the unit's. *)
Lemma transaction_flag_stuck_in_catch :
  let r := DenoDatabase.transaction Sample.script Sample.committing_unit
             Sample.connection in
  snd r = inl (DriverError "cannot rollback - no transaction is active")
  /\ DenoDatabase.inTransaction (fst r) = true.
Proof. repeat split; reflexivity. Qed.

(** C2, as stated, fails: with target "latest" the source is read twice,
    by [migrateTo] and again by [getLatestVersion].  When the file grows
    between the two reads, the steps search the set of the first read,
    [[m1]], whose greatest version is 1, while [actualTarget] is 2, the
    greatest version of the second; the run then fails at step 2. *)
Lemma migrateTo_latest_reads_twice :
  exists w0,
    plans Sample.migrationsPath Sample.yamlParser Latest
      (Sample.world (Sample.fs_changing "one" "two") (Some []))
      [Sample.m1] 0 2 w0
    /\ latest_of [Sample.m1] = 1
    /\ FileSystem.reads (fs w0)
       = [Sample.migrationsPath; Sample.migrationsPath]
    /\ snd (Sample.migrateTo Latest
              (Sample.world (Sample.fs_changing "one" "two") (Some [])))
       = inl (StepNotFoundError 2).
Proof.
  eexists. split; [|split; [|split]].
  - eexists. eexists. split; [reflexivity|]. split; reflexivity.
  - reflexivity.
  - reflexivity.
  - reflexivity.
Qed.

(** C7, as stated, fails: the pre-flight check skips a file reference
    whose path is the empty string ([migration.up.file] is falsy).  The
    set of this run has such a reference in migration 2 and it does not
    resolve, yet the failure comes at apply time, as an execution error
    of step 2, after step 1 opened its atomic unit and was recorded in the
    ledger. *)
Lemma migrateTo_empty_path_not_prechecked :
  Sample.yamlParser "nopath"
  = inr {| migrations := [Sample.m1; Sample.m2_file ""] |}
  /\ up (Sample.m2_file "") = FileRef ""
  /\ (forall n,
        FileSystem.disk (fs (Sample.world (Sample.fs_with "nopath")
                               (Some []))) n "" = None)
  /\ snd (Sample.migrateTo Latest
            (Sample.world (Sample.fs_with "nopath") (Some [])))
     = inl (ExecutionError Up 2 (SqlFileError 2 Up (FsError "")))
  /\ applied (fst (Sample.migrateTo Latest
                     (Sample.world (Sample.fs_with "nopath") (Some []))))
     = [1]
  /\ In (Sqlite.Exec "BEGIN TRANSACTION")
       (calls_of (fst (Sample.migrateTo Latest
                         (Sample.world (Sample.fs_with "nopath")
                            (Some []))))).
Proof.
  split; [reflexivity|]. split; [reflexivity|]. split; [reflexivity|].
  split; [reflexivity|]. split; [reflexivity|].
  vm_compute. auto 10.
Qed.

Lemma fs_with_stable (content : string) :
  FileSystem.stable (Sample.fs_with content).
Proof. intros n path. reflexivity. Qed.

Lemma migrateTo_plan_witness :
  exists w0 migs2,
    loadMigrations Sample.migrationsPath Sample.yamlParser
      (fst (getCurrentVersion
              (fst (loadMigrations Sample.migrationsPath Sample.yamlParser
                      (Sample.world (Sample.fs_with "two") (Some []))))))
    = (w0, inr migs2)
    /\ 2 = latest_of migs2
    /\ migs2 = [Sample.m1; Sample.m2].
Proof.
  epose proof (migrateTo_plan Sample.migrationsPath Sample.yamlParser Latest
                 (Sample.world (Sample.fs_with "two") (Some []))
                 _ [Sample.m1; Sample.m2] 0 2) as H.
  destruct H as (wa & wb & migs2 & Ha & Hb & Hc & Hd & _ & He).
  - eexists. eexists. split; [reflexivity|]. split; reflexivity.
  - exists (fst (getLatestVersion Sample.migrationsPath Sample.yamlParser
                   (fst (getCurrentVersion
                           (fst (loadMigrations Sample.migrationsPath
                                   Sample.yamlParser
                                   (Sample.world (Sample.fs_with "two")
                                      (Some []))))))))
    , migs2.
    split; [|split; [exact Hd | apply He; apply fs_with_stable]].
    rewrite (He (fs_with_stable "two")). reflexivity.
Defined.

Lemma migrateTo_missing_file_witness :
  exists w',
    Sample.migrateTo Latest
      (Sample.world (Sample.fs_with "missing") (Some []))
    = (w', inl (LoadError (MissingFileError Up 2 "create u" "missing.sql")))
    /\ db w' = db (Sample.world (Sample.fs_with "missing") (Some [])).
Proof.
  epose proof (migrateTo_missing_file Sample.script Sample.migrationsPath
                 Sample.yamlParser Latest
                 (Sample.world (Sample.fs_with "missing") (Some []))
                 _ "missing" _ (Sample.m2_file "missing.sql") Up
                 "missing.sql") as H.
  destruct H as (w' & d' & m' & path' & n & Hrun & _ & _ & _ & Hdb).
  - reflexivity.
  - reflexivity.
  - reflexivity.
  - simpl. auto.
  - reflexivity.
  - intro n. reflexivity.
  - exists w'. split; [|exact Hdb].
    assert (E : snd (Sample.migrateTo Latest
                       (Sample.world (Sample.fs_with "missing") (Some [])))
                = inl (LoadError
                         (MissingFileError Up 2 "create u" "missing.sql")))
      by reflexivity.
    unfold Sample.migrateTo in *. rewrite Hrun in *. simpl in E.
    rewrite E. reflexivity.
Defined.



Lemma migrateTo_down_unit_rolls_back_witness :
  exists w',
    Cases.migrateTo (Version 1)
      (Sample.world (Sample.fs_with "stuck") Cases.rows12)
    = (w', inl (ExecutionError Down 2 (DriverError "syntax error")))
    /\ applied w' = [1; 2]
    /\ Sqlite.user (store_of w') = [].
Proof.
  unfold Cases.migrateTo.
  pose (w := Sample.world (Sample.fs_with "stuck") Cases.rows12).
  pose (w0 := planned Sample.migrationsPath Cases.yamlParser (Version 1) w).
  pose (d_in := fst (begin_unit Sample.script (db w0))).
  pose (d_out := fst (DenoDatabase.exec Sample.script "FAIL DROP u;" d_in)).
  destruct (migrateTo_down_unit_rolls_back Sample.script
              Sample.migrationsPath Cases.yamlParser (Version 1)
              w w0 w0 w0 [Sample.m1; Cases.m2_stuck] 2 1 2 Cases.m2_stuck
              "FAIL DROP u;" d_in d_out (DriverError "syntax error"))
    as (w' & Hrun & Hstore & _ & _).
  - split; reflexivity.
  - apply plans_of_run; vm_compute; reflexivity.
  - lia.
  - apply run_eq. vm_compute. reflexivity.
  - reflexivity.
  - reflexivity.
  - reflexivity.
  - reflexivity.
  - reflexivity.
  - apply run_eq. vm_compute. reflexivity.
  - apply run_eq. vm_compute. reflexivity.
  - vm_compute. reflexivity.
  - exists w'. split; [exact Hrun|].
    unfold applied, ledger_of. rewrite Hstore.
    split; vm_compute; reflexivity.
Defined.

Lemma migrateTo_no_rollback_script_witness :
  snd (Cases.migrateTo (Version 1)
         (Sample.world (Sample.fs_with "no down") Cases.rows12))
  = inl (NoRollbackScriptError 2 "create u").
Proof.
  unfold Cases.migrateTo.
  pose (w := Sample.world (Sample.fs_with "no down") Cases.rows12).
  pose (w0 := planned Sample.migrationsPath Cases.yamlParser (Version 1) w).
  fold w.
  rewrite (migrateTo_no_rollback_script Sample.script Sample.migrationsPath
             Cases.yamlParser (Version 1) w w0 w0
             [Sample.m1; Cases.m2_no_down] 2 1 2 Cases.m2_no_down).
  - reflexivity.
  - apply plans_of_run; vm_compute; reflexivity.
  - lia.
  - apply run_eq. vm_compute. reflexivity.
  - reflexivity.
  - reflexivity.
  - left. reflexivity.
Defined.

Lemma migrateTo_empty_script_witness :
  snd (Cases.migrateTo Latest
         (Sample.world (Sample.fs_with "empty up") (Some [])))
  = inl (ExecutionError Up 2 (EmptyScriptError 2 Up)).
Proof.
  unfold Cases.migrateTo.
  pose (w := Sample.world (Sample.fs_with "empty up") (Some [])).
  pose (w0 := planned Sample.migrationsPath Cases.yamlParser Latest w).
  pose (w1 := fst (migrateUp Sample.script 0 1
                     [Sample.m1; Cases.m2_empty] w0)).
  destruct (migrateTo_empty_script Sample.script Sample.migrationsPath
              Cases.yamlParser Latest w w0 w1 w1
              [Sample.m1; Cases.m2_empty] 0 2 2 Cases.m2_empty)
    as (d & Hrun & Hd & _).
  - apply plans_of_run; vm_compute; reflexivity.
  - reflexivity.
  - left. split; [lia|]. split.
    + apply run_eq. vm_compute. reflexivity.
    + reflexivity.
  - simpl in Hd. subst d. fold w. rewrite Hrun. reflexivity.
Defined.

Lemma migrateTo_sql_file_unreadable_witness :
  snd (Cases.migrateTo (Version 2)
         (Sample.world (Cases.fs_vanishing "file" 2) (Some [])))
  = inl (ExecutionError Up 2 (SqlFileError 2 Up (FsError "u.sql"))).
Proof.
  unfold Cases.migrateTo.
  pose (w := Sample.world (Cases.fs_vanishing "file" 2) (Some [])).
  pose (w0 := planned Sample.migrationsPath Cases.yamlParser (Version 2) w).
  pose (w1 := fst (migrateUp Sample.script 0 1
                     [Sample.m1; Sample.m2_file "u.sql"] w0)).
  pose (w2 := fst (readTextFile "u.sql" w1)).
  destruct (migrateTo_sql_file_unreadable Sample.script
              Sample.migrationsPath Cases.yamlParser (Version 2)
              w w0 w1 w2 [Sample.m1; Sample.m2_file "u.sql"] 0 2 2
              (Sample.m2_file "u.sql") "u.sql" (FsError "u.sql"))
    as (Hrun & _).
  - apply plans_of_run; vm_compute; reflexivity.
  - lia.
  - apply run_eq. vm_compute. reflexivity.
  - reflexivity.
  - reflexivity.
  - apply run_eq. vm_compute. reflexivity.
  - fold w. rewrite Hrun. reflexivity.
Defined.

Lemma migrateTo_load_failure_witness :
  snd (Cases.migrateTo Latest (Sample.world Cases.fs_empty (Some [])))
  = inl (LoadError (FsError "./migrations.yaml"))
  /\ snd (getLatestVersion Sample.migrationsPath Cases.yamlParser
            (Sample.world Cases.fs_empty (Some [])))
     = inl (LoadError (FsError "./migrations.yaml")).
Proof.
  unfold Cases.migrateTo.
  pose (w := Sample.world Cases.fs_empty (Some [])).
  pose (w' := fst (loadMigrations Sample.migrationsPath Cases.yamlParser w)).
  destruct (migrateTo_load_failure Sample.script Sample.migrationsPath
              Cases.yamlParser Latest w w'
              (LoadError (FsError "./migrations.yaml")))
    as (_ & Hrun & Hlatest & _).
  - apply run_eq. vm_compute. reflexivity.
  - fold w. rewrite Hrun, Hlatest. split; reflexivity.
Defined.

Lemma migrateTo_keeps_dense_witness :
  exists rows' j,
    ledger_of (fst (Sample.migrateTo Latest
                      (Sample.world (Sample.fs_with "broken") (Some []))))
    = Some rows'
    /\ dense rows' j.
Proof.
  unfold Sample.migrateTo.
  pose (w := Sample.world (Sample.fs_with "broken") (Some [])).
  destruct (migrateTo_keeps_dense Sample.script Sample.migrationsPath
              Sample.yamlParser Latest w
              (fst (migrateTo Sample.script Sample.migrationsPath
                      Sample.yamlParser Latest w))
              [] 0
              (snd (migrateTo Sample.script Sample.migrationsPath
                      Sample.yamlParser Latest w)))
    as (rows' & j & Hrows & Hdense & _).
  - split; reflexivity.
  - reflexivity.
  - exact dense_empty.
  - apply surjective_pairing.
  - exists rows', j. split; [exact Hrows | exact Hdense].
Defined.

Lemma migrateTo_reaches_target_witness :
  exists target w'',
    getCurrentVersion
      (fst (Sample.migrateTo (Version 2)
              (Sample.world (Sample.fs_with "two") (Some []))))
    = (w'', inr target).
Proof.
  unfold Sample.migrateTo.
  pose (w := Sample.world (Sample.fs_with "two") (Some [])).
  destruct (migrateTo_reaches_target Sample.script Sample.migrationsPath
              Sample.yamlParser (Version 2) w
              (fst (migrateTo Sample.script Sample.migrationsPath
                      Sample.yamlParser (Version 2) w))
              [] 0)
    as (migs & target & w0 & w'' & _ & Hcur & _).
  - split; reflexivity.
  - reflexivity.
  - exact dense_empty.
  - apply run_eq. vm_compute. reflexivity.
  - exists target, w''. exact Hcur.
Defined.

Lemma loadMigrations_result_witness :
  snd (getLatestVersion Sample.migrationsPath Sample.yamlParser
         (Sample.world (Sample.fs_with "two") (Some [])))
  = inr 2.
Proof.
  pose (w := Sample.world (Sample.fs_with "two") (Some [])).
  pose (w' := fst (loadMigrations Sample.migrationsPath Sample.yamlParser
                     w)).
  destruct (loadMigrations_result Sample.migrationsPath Sample.yamlParser
              w w' [Sample.m1; Sample.m2])
    as (_ & _ & Hlatest & _).
  - apply run_eq. vm_compute. reflexivity.
  - fold w. rewrite Hlatest. reflexivity.
Defined.

Lemma loadMigrations_sequence_first_witness :
  snd (loadMigrations Sample.migrationsPath Cases.yamlParser
         (Sample.world (Sample.fs_with "gap") (Some [])))
  = inl (LoadError (SequenceError 1 2))
  /\ FileSystem.reads
       (fs (fst (loadMigrations Sample.migrationsPath Cases.yamlParser
                   (Sample.world (Sample.fs_with "gap") (Some [])))))
     = [Sample.migrationsPath].
Proof.
  pose (w := Sample.world (Sample.fs_with "gap") (Some [])).
  pose (wa := fst (readTextFile Sample.migrationsPath w)).
  destruct (loadMigrations_sequence_first Sample.migrationsPath
              Cases.yamlParser w wa "gap"
              {| migrations := [Sample.m3; Sample.m2_file "missing.sql"] |}
              (SequenceError 1 2))
    as (Hrun & Hreads & _ & _).
  - reflexivity.
  - reflexivity.
  - reflexivity.
  - fold w. rewrite Hrun. split; [reflexivity | exact Hreads].
Defined.

Lemma sort_by_version_any_order_witness :
  sort_by_version [Sample.m3; Sample.m1; Sample.m2]
  = [Sample.m1; Sample.m2; Sample.m3]
  /\ validateSequence 0 (sort_by_version [Sample.m3; Sample.m1; Sample.m2])
     = inr tt.
Proof.
  apply (sort_by_version_any_order [Sample.m3; Sample.m1; Sample.m2]
           [Sample.m1; Sample.m2; Sample.m3]).
  - apply perm_trans with [Sample.m1; Sample.m3; Sample.m2].
    + apply perm_swap.
    + apply perm_skip. apply perm_swap.
  - reflexivity.
Defined.

Lemma transaction_outermost_witness :
  exists d',
    DenoDatabase.transaction Sample.script Sample.failing_unit
      Sample.connection
    = (d', inl (DriverError "syntax error"))
    /\ idle d'
    /\ Sqlite.store (DenoDatabase.db d')
       = Sqlite.store (DenoDatabase.db Sample.connection).
Proof.
  apply (transaction_outermost Sample.script Sample.failing_unit
           Sample.connection
           (fst (begin_unit Sample.script Sample.connection))
           (fst (Sample.failing_unit
                   (fst (begin_unit Sample.script Sample.connection))))
           (inl (DriverError "syntax error"))).
  - split; reflexivity.
  - reflexivity.
  - reflexivity.
  - reflexivity.
Defined.

Lemma transaction_twice_witness :
  DenoDatabase.transaction Sample.script
    (DenoDatabase.transaction Sample.script Sample.create_t)
    Sample.connection
  = DenoDatabase.transaction Sample.script Sample.create_t
      Sample.connection.
Proof.
  apply (transaction_twice Sample.script Sample.create_t Sample.connection).
  split; reflexivity.
Defined.

Lemma statements_of_clean_witness :
  "INSERT INTO a VALUES ('p" <> EmptyString
  /\ Schema.trim "INSERT INTO a VALUES ('p" = "INSERT INTO a VALUES ('p"
  /\ Schema.contains Schema.semicolon "INSERT INTO a VALUES ('p" = false.
Proof.
  apply (statements_of_clean Cases.schema_literal
           "INSERT INTO a VALUES ('p").
  vm_compute. right. left. reflexivity.
Defined.

Lemma applySchema_calls_witness :
  exists sent unsent,
    Schema.statements_of Cases.schema = (sent ++ unsent)%list
    /\ Sqlite.calls
         (DenoDatabase.db
            (fst (Schema.applySchema Sample.script Cases.schema
                    Sample.connection)))
       = (rev (map Sqlite.Exec sent)
            ++ Sqlite.calls (DenoDatabase.db Sample.connection))%list
    /\ sent <> [].
Proof.
  destruct (applySchema_calls Sample.script Cases.schema Sample.connection
              (fst (Schema.applySchema Sample.script Cases.schema
                      Sample.connection))
              (inl (DriverError "syntax error")))
    as (sent & unsent & Hl & Hcalls & _ & _ & Hfail).
  - apply run_eq. vm_compute. reflexivity.
  - exists sent, unsent. split; [exact Hl|]. split; [exact Hcalls|].
    apply (Hfail (DriverError "syntax error")). reflexivity.
Defined.

Lemma applySchema_failure_witness :
  snd (Schema.applySchema Sample.script Cases.schema Sample.connection)
  = inl (DriverError "syntax error")
  /\ Sqlite.user
       (Sqlite.store
          (DenoDatabase.db
             (fst (Schema.applySchema Sample.script Cases.schema
                     Sample.connection))))
     = ["FAIL b"; "CREATE TABLE a(x)"].
Proof.
  pose (d1 := fst (Schema.exec_each Sample.script ["CREATE TABLE a(x)"]
                     Sample.connection)).
  pose (d2 := fst (DenoDatabase.exec Sample.script "FAIL b" d1)).
  destruct (applySchema_failure Sample.script Cases.schema
              ["CREATE TABLE a(x)"] ["CREATE TABLE c(x)"] "FAIL b"
              Sample.connection d1 d2 (DriverError "syntax error"))
    as (Hrun & _).
  - vm_compute. reflexivity.
  - reflexivity.
  - reflexivity.
  - rewrite Hrun. split; reflexivity.
Defined.

Lemma apply_entries_witness :
  Schema.apply Sample.script Cases.builder Sample.connection
  = Schema.exec_each Sample.script
      ["CREATE TABLE a(x)"; "CREATE INDEX i ON a(x)"] Sample.connection.
Proof.
  apply (apply_entries Sample.script Cases.builder Sample.connection).
  intros s Hs. vm_compute in Hs.
  destruct Hs as [<-|[<-|[]]];
    (split; [discriminate | split; vm_compute; reflexivity]).
Defined.

Lemma migrateTo_revisions_agree_witness :
  MigrationManager.migrateTo Sample.script Sample.migrationsPath
    (upgrade_parser Cases.inline_parser) Latest
    (Sample.world (Sample.fs_with "two") (Some []))
  = InlineManager.migrateTo Sample.script Sample.migrationsPath
      Cases.inline_parser Latest
      (Sample.world (Sample.fs_with "two") (Some [])).
Proof.
  apply (migrateTo_revisions_agree Sample.script Sample.migrationsPath
           Cases.inline_parser Latest
           (Sample.world (Sample.fs_with "two") (Some []))).
  intros n content file m Hdisk Hparse Hin.
  vm_compute in Hdisk. inversion Hdisk; subst content.
  vm_compute in Hparse. inversion Hparse; subst file.
  simpl in Hin. destruct Hin as [<-|[<-|[]]]; discriminate.
Defined.

Lemma migrateTo_forward_effect_witness :
  exists (steps : list (Migration * string)) (added : list LedgerRow),
    map (fun s => version (fst s)) steps = [1; 2]
    /\ ledger_of (fst (Sample.migrateTo (Version 2)
                         (Sample.world (Sample.fs_with "two") (Some []))))
       = Some added
    /\ map (fun r => (row_version r, row_name r, row_description r)) added
       = map (fun s => (version (fst s), name (fst s),
                        description (fst s))) steps
    /\ Sqlite.user
         (store_of (fst (Sample.migrateTo (Version 2)
                           (Sample.world (Sample.fs_with "two") (Some [])))))
       = fold_left (fun u s => run_script Sample.script (snd s) u) steps [].
Proof.
  unfold Sample.migrateTo.
  pose (w := Sample.world (Sample.fs_with "two") (Some [])).
  pose (w0 := planned Sample.migrationsPath Sample.yamlParser (Version 2) w).
  destruct (migrateTo_forward_effect Sample.script Sample.migrationsPath
              Sample.yamlParser (Version 2) w w0
              (fst (migrateTo Sample.script Sample.migrationsPath
                      Sample.yamlParser (Version 2) w))
              [Sample.m1; Sample.m2] 0 2 [])
    as (steps & added & Hvs & _ & Hledger & Hadded & Huser).
  - split; reflexivity.
  - reflexivity.
  - apply plans_of_run; vm_compute; reflexivity.
  - lia.
  - apply run_eq. vm_compute. reflexivity.
  - exists steps, added. split; [exact Hvs|]. split; [exact Hledger|].
    split; [exact Hadded | exact Huser].
Defined.


End Instances.
